(** * Poster Wall Designer: the wall document validator ([src/utils/wallIO.ts])
    and the editor that uses it ([src/App.tsx])

    A shallow embedding of the import/export utility module of the poster
    wall editor, and the properties of its validator [parseWallData], of the
    export helper's serialisation and of the bulk image loader; then of the
    editor component: the poster templates and their storage, the handlers
    that change the wall, the snapping of coordinates and the zoom.

    The module is TypeScript running on a JavaScript host.  Values of type
    [unknown] are modelled by the inductive [value]; JavaScript numbers are
    IEEE 754 binary64 values, modelled by Rocq's primitive [float]; strings
    are sequences of UTF-16 code units.  The host functions the module calls
    ([String.prototype.trim], [JSON.parse], [JSON.stringify]) are modelled
    after ECMA-262; the only part of the host left abstract is the conversion
    between a number and its decimal text, gathered in the class
    [HostNumbers]. *)

From Stdlib Require Import List Bool Arith NArith ZArith Lia.
From Stdlib Require Import Strings.String Strings.Ascii.
From Stdlib Require Import Floats.

Import ListNotations.
Local Open Scope N_scope.
Set Warnings "-register-all".

(* ================================================================== *)
(** * JavaScript values *)
(* ================================================================== *)

(** A string is a sequence of UTF-16 code units. *)
Definition code_unit := N.
Definition jsstring := list code_unit.

(** [js "text"] is the JavaScript string with the code units of an ASCII
    literal. *)
Definition js (s : string) : jsstring :=
  List.map N_of_ascii (list_ascii_of_string s).

Fixpoint jsstring_eqb (a b : jsstring) : bool :=
  match a, b with
  | [], [] => true
  | x :: a', y :: b' => (x =? y) && jsstring_eqb a' b'
  | _, _ => false
  end.

(** The values the module can meet: what [JSON.parse] produces, and
    [undefined], which reading a missing property yields and which an
    in-memory object may hold. An object is the list of its own properties
    in creation order; [JSON.stringify] writes them in that order. (A host
    enumerates keys that are array indices first; the module reads
    properties by name only, and that reordering is not modelled.) *)
Inductive value : Type :=
| VUndefined
| VNull
| VBoolean (b : bool)
| VNumber (x : float)
| VString (s : jsstring)
| VArray (elems : list value)
| VObject (props : list (jsstring * value)).

(** The results of the [typeof] operator on these values. *)
Inductive type_tag := TUndefined | TObject | TBoolean | TNumber | TString.

Definition typeof (v : value) : type_tag :=
  match v with
  | VUndefined => TUndefined
  | VNull => TObject
  | VBoolean _ => TBoolean
  | VNumber _ => TNumber
  | VString _ => TString
  | VArray _ => TObject
  | VObject _ => TObject
  end.

Definition type_tag_eqb (a b : type_tag) : bool :=
  match a, b with
  | TUndefined, TUndefined | TObject, TObject | TBoolean, TBoolean
  | TNumber, TNumber | TString, TString => true
  | _, _ => false
  end.

Fixpoint lookup (k : jsstring) (props : list (jsstring * value)) : option value :=
  match props with
  | [] => None
  | (k', v) :: rest => if jsstring_eqb k k' then Some v else lookup k rest
  end.

(** [get k v] is the property read [v.k] for the property names this module
    reads ([settings], [posters], the fields of a settings record and of a
    poster): none of them is an array index, [length], or a property of
    [Object.prototype] or [Array.prototype], so the read finds an own
    property of an object or yields [undefined]. *)
Definition get (k : jsstring) (v : value) : value :=
  match v with
  | VObject props =>
      match lookup k props with
      | Some x => x
      | None => VUndefined
      end
  | _ => VUndefined
  end.

(** [has_property k v] is [k in v], under the same proviso as [get]. *)
Definition has_property (k : jsstring) (v : value) : bool :=
  match v with
  | VObject props =>
      match lookup k props with
      | Some _ => true
      | None => false
      end
  | _ => false
  end.

(** [v !== undefined]. *)
Definition is_not_undefined (v : value) : bool :=
  match v with
  | VUndefined => false
  | _ => true
  end.

(** [ToBoolean], the truthiness of a value. *)
Definition ToBoolean (v : value) : bool :=
  match v with
  | VUndefined | VNull => false
  | VBoolean b => b
  | VNumber x => negb (PrimFloat.is_zero x || PrimFloat.is_nan x)
  | VString s => match s with [] => false | _ => true end
  | VArray _ | VObject _ => true
  end.

(* ================================================================== *)
(** * The type guards of wallIO.ts *)
(* ================================================================== *)

Inductive ParseWallError :=
| empty
| invalid_json
| invalid_root
| invalid_settings
| invalid_posters.

(** [WallData]: after the guards have passed, [settings] is the value found
    under the root's [settings] property and [posters] the elements of the
    array found under [posters]. *)
Record WallData := { settings : value; posters : list value }.

Record ParseWallResult := {
  data : option WallData;
  error : option ParseWallError
}.

(** [typeof value === "object" && value !== null] *)
Definition isRecord (v : value) : bool :=
  type_tag_eqb (typeof v) TObject &&
  match v with VNull => false | _ => true end.

(** [typeof value === "number" && Number.isFinite(value)] *)
Definition isNumber (v : value) : bool :=
  match v with
  | VNumber x => PrimFloat.is_finite x
  | _ => false
  end.

(** [isNumber(value) && value > 0] *)
Definition isPositiveNumber (v : value) : bool :=
  isNumber v &&
  match v with
  | VNumber x => PrimFloat.ltb 0%float x
  | _ => false
  end.

Definition isString (v : value) : bool := type_tag_eqb (typeof v) TString.

Definition isBoolean (v : value) : bool := type_tag_eqb (typeof v) TBoolean.

Definition isSettings (v : value) : bool :=
  if negb (isRecord v) then false
  else
    isPositiveNumber (get (js "wallWidth") v) &&
    isPositiveNumber (get (js "wallHeight") v) &&
    isString (get (js "background") v) &&
    isBoolean (get (js "showGrid") v) &&
    isPositiveNumber (get (js "gridStep") v) &&
    isString (get (js "gridColor") v).

Definition isPoster (v : value) : bool :=
  if negb (isRecord v) then false
  else if
    negb (isString (get (js "id") v)) ||
    negb (isString (get (js "sizeId") v)) ||
    negb (isNumber (get (js "x") v)) ||
    negb (isNumber (get (js "y") v)) ||
    negb (isPositiveNumber (get (js "width") v)) ||
    negb (isPositiveNumber (get (js "height") v)) ||
    negb (isString (get (js "label") v))
  then false
  else if has_property (js "imageSrc") v &&
          is_not_undefined (get (js "imageSrc") v)
  then isString (get (js "imageSrc") v)
  else true.

(* ================================================================== *)
(** * The host: trimming and JSON text *)
(* ================================================================== *)

(** ** String.prototype.trim *)

(** White space and line terminators of ECMA-262 (WhiteSpace: TAB, VT, FF,
    SP, NBSP, ZWNBSP and the Unicode space separators; LineTerminator: LF,
    CR, LS, PS). *)
Definition is_trim_space (c : code_unit) : bool :=
  existsb (N.eqb c)
    [9; 10; 11; 12; 13; 32; 160; 5760;
     8192; 8193; 8194; 8195; 8196; 8197; 8198; 8199; 8200; 8201; 8202;
     8232; 8233; 8239; 8287; 12288; 65279].

Fixpoint trim_start (s : jsstring) : jsstring :=
  match s with
  | c :: s' => if is_trim_space c then trim_start s' else s
  | [] => []
  end.

Definition trim_end (s : jsstring) : jsstring := rev (trim_start (rev s)).

Definition trim (s : jsstring) : jsstring := trim_end (trim_start s).

(** ** Number conversions of the host *)

(** The two conversions between numbers and decimal text that the host
    performs inside [JSON.parse] and [JSON.stringify]: the Number value of a
    JSON number literal (its mathematical value rounded to binary64), and
    [Number::toString] in radix 10. They are floating-point algorithms of
    the host and stay abstract here. *)
Class HostNumbers := {
  NumericLiteral_value : jsstring -> float;
  Number_toString : float -> jsstring
}.

(** ** The JSON grammar (ECMA-404), as JSON.parse reads it *)

Inductive parsed (A : Type) : Type :=
| Ok (a : A) (rest : jsstring)
| SyntaxError
| OutOfFuel.
Arguments Ok {A} a rest.
Arguments SyntaxError {A}.
Arguments OutOfFuel {A}.

Definition QUOTE : code_unit := 34.      (* double quote *)
Definition BACKSLASH : code_unit := 92.  (* backslash *)
Definition SLASH : code_unit := 47.      (* / *)
Definition COMMA : code_unit := 44.      (* , *)
Definition COLON : code_unit := 58.      (* : *)
Definition MINUS : code_unit := 45.      (* - *)
Definition PLUS : code_unit := 43.       (* + *)
Definition DOT : code_unit := 46.        (* . *)
Definition ZERO : code_unit := 48.       (* 0 *)
Definition LBRACKET : code_unit := 91.   (* [ *)
Definition RBRACKET : code_unit := 93.   (* ] *)
Definition LBRACE : code_unit := 123.    (* { *)
Definition RBRACE : code_unit := 125.    (* } *)
Definition LF : code_unit := 10.
Definition SPACE : code_unit := 32.

(** JSON white space: TAB, LF, CR, SP. *)
Definition is_json_ws (c : code_unit) : bool :=
  (c =? 9) || (c =? 10) || (c =? 13) || (c =? 32).

Fixpoint skip_ws (s : jsstring) : jsstring :=
  match s with
  | c :: s' => if is_json_ws c then skip_ws s' else s
  | [] => []
  end.

Definition is_digit (c : code_unit) : bool := (48 <=? c) && (c <=? 57).

(** The longest run of digits at the head of [s], and what follows it. *)
Fixpoint take_digits (s : jsstring) : jsstring * jsstring :=
  match s with
  | c :: s' =>
      if is_digit c then let (ds, r) := take_digits s' in (c :: ds, r)
      else ([], s)
  | [] => ([], [])
  end.

(** The pieces of a number token: [-]? int frac? exp?. Each scanner returns
    the characters it read and the rest, or [None] when the grammar is
    violated. *)
Definition scan_sign (s : jsstring) : jsstring * jsstring :=
  match s with
  | c :: s' => if c =? MINUS then ([c], s') else ([], s)
  | [] => ([], [])
  end.

Definition scan_int (s : jsstring) : option (jsstring * jsstring) :=
  match s with
  | c :: s' =>
      if c =? ZERO then Some ([c], s')
      else if is_digit c then let (ds, r) := take_digits s' in Some (c :: ds, r)
      else None
  | [] => None
  end.

Definition scan_frac (s : jsstring) : option (jsstring * jsstring) :=
  match s with
  | c :: s' =>
      if c =? DOT then
        match take_digits s' with
        | ([], _) => None
        | (ds, r) => Some (c :: ds, r)
        end
      else Some ([], s)
  | [] => Some ([], [])
  end.

Definition scan_exp (s : jsstring) : option (jsstring * jsstring) :=
  match s with
  | c :: s' =>
      if (c =? 101) || (c =? 69) then      (* e, E *)
        let (sg, s'') :=
          match s' with
          | d :: t => if (d =? PLUS) || (d =? MINUS) then ([d], t) else ([], s')
          | [] => ([], [])
          end in
        match take_digits s'' with
        | ([], _) => None
        | (ds, r) => Some (c :: sg ++ ds, r)
        end
      else Some ([], s)
  | [] => Some ([], [])
  end.

Definition scan_number (s : jsstring) : option (jsstring * jsstring) :=
  let (sg, s1) := scan_sign s in
  match scan_int s1 with
  | None => None
  | Some (i, s2) =>
      match scan_frac s2 with
      | None => None
      | Some (f, s3) =>
          match scan_exp s3 with
          | None => None
          | Some (e, s4) => Some (sg ++ i ++ f ++ e, s4)
          end
      end
  end.

Definition hex_digit (c : code_unit) : option N :=
  if is_digit c then Some (c - 48)
  else if (97 <=? c) && (c <=? 102) then Some (c - 87)   (* a-f *)
  else if (65 <=? c) && (c <=? 70) then Some (c - 55)    (* A-F *)
  else None.

Definition hex4 (a b c d : code_unit) : option code_unit :=
  match hex_digit a, hex_digit b, hex_digit c, hex_digit d with
  | Some x, Some y, Some z, Some w => Some (((x * 16 + y) * 16 + z) * 16 + w)
  | _, _, _, _ => None
  end.

(** The character a single-character escape stands for. *)
Definition simple_escape (c : code_unit) : option code_unit :=
  if c =? QUOTE then Some QUOTE
  else if c =? BACKSLASH then Some BACKSLASH
  else if c =? SLASH then Some SLASH
  else if c =? 98 then Some 8          (* \b *)
  else if c =? 102 then Some 12        (* \f *)
  else if c =? 110 then Some 10        (* \n *)
  else if c =? 114 then Some 13        (* \r *)
  else if c =? 116 then Some 9         (* \t *)
  else None.

Definition cons_char (c : code_unit) (p : parsed jsstring) : parsed jsstring :=
  match p with
  | Ok s rest => Ok (c :: s) rest
  | SyntaxError => SyntaxError
  | OutOfFuel => OutOfFuel
  end.

(** The characters of a string token, read after its opening quote up to
    and including the closing quote. *)
Fixpoint parse_chars (s : jsstring) : parsed jsstring :=
  match s with
  | [] => SyntaxError
  | c :: t =>
      if c =? QUOTE then Ok [] t
      else if c =? BACKSLASH then
        match t with
        | [] => SyntaxError
        | e :: t' =>
            if e =? 117 then               (* \uXXXX *)
              match t' with
              | h1 :: h2 :: h3 :: h4 :: t'' =>
                  match hex4 h1 h2 h3 h4 with
                  | Some u => cons_char u (parse_chars t'')
                  | None => SyntaxError
                  end
              | _ => SyntaxError
              end
            else
              match simple_escape e with
              | Some u => cons_char u (parse_chars t')
              | None => SyntaxError
              end
        end
      else if c <? 32 then SyntaxError
      else cons_char c (parse_chars t)
  end.

(** [expect word v s]: the literal [word] at the head of [s]. *)
Fixpoint expect (word : jsstring) (v : value) (s : jsstring) : parsed value :=
  match word with
  | [] => Ok v s
  | w :: word' =>
      match s with
      | c :: s' => if c =? w then expect word' v s' else SyntaxError
      | [] => SyntaxError
      end
  end.

(** [CreateDataProperty]: a repeated key keeps its place and takes the
    later value. *)
Fixpoint define_property (props : list (jsstring * value)) (k : jsstring) (v : value)
  : list (jsstring * value) :=
  match props with
  | [] => [(k, v)]
  | (k', v') :: rest =>
      if jsstring_eqb k k' then (k', v) :: rest
      else (k', v') :: define_property rest k v
  end.

Section JSONText.
Context {host : HostNumbers}.

(** Recursive descent over a JSON value. [fuel] bounds the number of nested
    calls; [JSON_parse] below supplies enough of it for any text
    ([parse_value_enough_fuel]). [parse_elements] reads the elements of an
    array after its opening bracket, [parse_members] the members of an
    object after its opening brace; [acc] holds what has been read. *)
Fixpoint parse_value (fuel : nat) (s : jsstring) {struct fuel} : parsed value :=
  match fuel with
  | O => OutOfFuel
  | S fuel' =>
      match skip_ws s with
      | [] => SyntaxError
      | c :: r =>
          if c =? LBRACE then
            match skip_ws r with
            | [] => SyntaxError
            | c' :: r' =>
                if c' =? RBRACE then Ok (VObject []) r'
                else parse_members fuel' [] (c' :: r')
            end
          else if c =? LBRACKET then
            match skip_ws r with
            | [] => SyntaxError
            | c' :: r' =>
                if c' =? RBRACKET then Ok (VArray []) r'
                else parse_elements fuel' [] (c' :: r')
            end
          else if c =? QUOTE then
            match parse_chars r with
            | Ok str rest => Ok (VString str) rest
            | SyntaxError => SyntaxError
            | OutOfFuel => OutOfFuel
            end
          else if (c =? MINUS) || is_digit c then
            match scan_number (c :: r) with
            | Some (lexeme, rest) => Ok (VNumber (NumericLiteral_value lexeme)) rest
            | None => SyntaxError
            end
          else if c =? 116 then expect (js "true") (VBoolean true) (c :: r)
          else if c =? 102 then expect (js "false") (VBoolean false) (c :: r)
          else if c =? 110 then expect (js "null") VNull (c :: r)
          else SyntaxError
      end
  end

with parse_elements (fuel : nat) (acc : list value) (s : jsstring) {struct fuel}
  : parsed value :=
  match fuel with
  | O => OutOfFuel
  | S fuel' =>
      match parse_value fuel' s with
      | Ok v r =>
          match skip_ws r with
          | [] => SyntaxError
          | c :: r' =>
              if c =? COMMA then parse_elements fuel' (acc ++ [v]) r'
              else if c =? RBRACKET then Ok (VArray (acc ++ [v])) r'
              else SyntaxError
          end
      | SyntaxError => SyntaxError
      | OutOfFuel => OutOfFuel
      end
  end

with parse_members (fuel : nat) (acc : list (jsstring * value)) (s : jsstring)
  {struct fuel} : parsed value :=
  match fuel with
  | O => OutOfFuel
  | S fuel' =>
      match skip_ws s with
      | [] => SyntaxError
      | q :: r =>
          if q =? QUOTE then
            match parse_chars r with
            | Ok k r1 =>
                match skip_ws r1 with
                | [] => SyntaxError
                | c1 :: r2 =>
                    if c1 =? COLON then
                      match parse_value fuel' r2 with
                      | Ok v r3 =>
                          match skip_ws r3 with
                          | [] => SyntaxError
                          | c3 :: r4 =>
                              if c3 =? COMMA then
                                parse_members fuel' (define_property acc k v) r4
                              else if c3 =? RBRACE then
                                Ok (VObject (define_property acc k v)) r4
                              else SyntaxError
                          end
                      | SyntaxError => SyntaxError
                      | OutOfFuel => OutOfFuel
                      end
                    else SyntaxError
                end
            | SyntaxError => SyntaxError
            | OutOfFuel => OutOfFuel
            end
          else SyntaxError
      end
  end.

(** [JSON.parse(text)] without reviver: [Some v] when [text] is one JSON
    value surrounded by optional white space, [None] when evaluating it
    throws a SyntaxError. *)
Definition JSON_parse (text : jsstring) : option value :=
  match parse_value (2 * List.length text + 1) text with
  | Ok v rest =>
      match skip_ws rest with
      | [] => Some v
      | _ :: _ => None
      end
  | SyntaxError => None
  | OutOfFuel => None
  end.

(* ================================================================== *)
(** * parseWallData *)
(* ================================================================== *)

Definition failure (e : ParseWallError) : ParseWallResult :=
  {| data := None; error := Some e |}.

Definition parseWallData (jsonText : jsstring) : ParseWallResult :=
  let trimmed := trim jsonText in
  if negb (ToBoolean (VString trimmed)) then failure empty
  else
    match JSON_parse trimmed with
    | None => failure invalid_json
    | Some parsed =>
        if negb (isRecord parsed) then failure invalid_root
        else
          let settings := get (js "settings") parsed in
          let posters := get (js "posters") parsed in
          if negb (isSettings settings) then failure invalid_settings
          else
            match posters with
            | VArray elems =>
                if negb (forallb isPoster elems) then failure invalid_posters
                else
                  {| data := Some {| settings := settings; posters := elems |};
                     error := None |}
            | _ => failure invalid_posters
            end
    end.

End JSONText.

(* ================================================================== *)
(** * Reference number conversions *)
(* ================================================================== *)

(** An executable instance of [HostNumbers] after ECMA-262: the value of a
    decimal literal is its mathematical value rounded to the nearest
    binary64 number, ties to even; [Number::toString] prints the shortest
    digit string that reads back as the same number. *)
Module Ecma262.
Local Open Scope Z_scope.

Definition digit_value (c : code_unit) : Z := Z.of_N (c - 48).

Fixpoint digits_value (acc : Z) (ds : jsstring) : Z :=
  match ds with
  | [] => acc
  | d :: t => digits_value (10 * acc + digit_value d) t
  end.

(** The exponent part [e], [e+] or [e-] followed by digits, as an integer. *)
Definition exp_value (e : jsstring) : Z :=
  match e with
  | _ :: c :: t =>
      if (c =? MINUS)%N then - digits_value 0 t
      else if (c =? PLUS)%N then digits_value 0 t
      else digits_value 0 (c :: t)
  | _ => 0
  end.

(** A number token as sign, coefficient and power of ten. *)
Definition decimal_of_lexeme (s : jsstring) : option (bool * Z * Z) :=
  let (sg, s1) := scan_sign s in
  match scan_int s1 with
  | None => None
  | Some (i, s2) =>
      match scan_frac s2 with
      | None => None
      | Some (f, s3) =>
          match scan_exp s3 with
          | None => None
          | Some (e, _) =>
              let fd := List.tl f in
              Some (match sg with [] => false | _ => true end,
                    digits_value 0 (i ++ fd),
                    exp_value e - Z.of_nat (List.length fd))
          end
      end
  end.

Definition signed_zero (neg : bool) : float := if neg then neg_zero else zero.
Definition signed_infinity (neg : bool) : float :=
  if neg then neg_infinity else infinity.

(** [m * 10^e] rounded to binary64, to nearest, ties to even. Values beyond
    the format's range are settled without computing the power of ten. *)
Definition round_decimal (neg : bool) (m e : Z) : float :=
  match m with
  | Zpos p =>
      if 310 <=? e then signed_infinity neg
      else if 100 * (Z.log2 m + 1) + 332 * e <? -107600 then signed_zero neg
      else if 0 <=? e then SF2Prim (binary_round prec emax neg (p * Z.to_pos (10 ^ e)) 0)
      else
        let d := 10 ^ (- e) in
        let k := 64 + Z.log2_up d in
        let n := m * 2 ^ k in
        let q := n / d in
        let r := n mod d in
        let loc := if r =? 0 then loc_Exact else loc_Inexact (2 * r ?= d) in
        SF2Prim (binary_round_aux prec emax neg q (- k) loc)
  | _ => signed_zero neg
  end.

Definition literal_value (s : jsstring) : float :=
  match decimal_of_lexeme s with
  | Some (neg, m, e) => round_decimal neg m e
  | None => nan
  end.

(** Decimal digits of a non-negative integer, most significant first. *)
Fixpoint digits_of_pos (fuel : nat) (n : Z) (acc : jsstring) : jsstring :=
  match fuel with
  | O => acc
  | S fuel' =>
      let acc' := (Z.to_N (n mod 10) + 48)%N :: acc in
      if n <? 10 then acc' else digits_of_pos fuel' (n / 10) acc'
  end.

Definition digits_of (n : Z) : jsstring :=
  digits_of_pos (S (Z.to_nat (Z.log2 n))) n [].

(** [m * 2^e < 10^n], exactly. *)
Definition below_pow10 (m e n : Z) : bool :=
  m * 2 ^ (Z.max e 0) * 10 ^ (Z.max (- n) 0) <? 2 ^ (Z.max (- e) 0) * 10 ^ (Z.max n 0).

(** The [n] with [10^(n-1) <= m * 2^e < 10^n], searched upward from an
    underestimate. *)
Fixpoint find_n (fuel : nat) (m e n : Z) : Z :=
  match fuel with
  | O => n
  | S fuel' => if below_pow10 m e n then n else find_n fuel' m e (n + 1)
  end.

Definition decimal_exponent (m e : Z) : Z :=
  find_n 8 m e ((Z.log2 m + e) * 30103 / 100000 - 2).

(** The [k]-digit candidate nearest to [x = m * 2^e] with exponent [n],
    when it reads back as [x]. *)
Definition candidate (x : float) (m e n k : Z) : option (Z * Z) :=
  let num := m * 2 ^ (Z.max e 0) * 10 ^ (Z.max (k - n) 0) in
  let den := 2 ^ (Z.max (- e) 0) * 10 ^ (Z.max (n - k) 0) in
  let lo := num / den in
  let r := num mod den in
  let up := match 2 * r ?= den with
            | Lt => false
            | Eq => Z.odd lo
            | Gt => true
            end in
  let try (s : Z) :=
    let '(s, n) := if s =? 10 ^ k then (10 ^ (k - 1), n + 1) else (s, n) in
    if (10 ^ (k - 1) <=? s) && PrimFloat.eqb (round_decimal false s (n - k)) x
    then Some (s, n) else None in
  match try (if up then lo + 1 else lo) with
  | Some c => Some c
  | None => try (if up then lo else lo + 1)
  end.

Fixpoint shortest (fuel : nat) (x : float) (m e n k : Z) : Z * Z * Z :=
  match fuel with
  | O => (m, 0, 0)
  | S fuel' =>
      match candidate x m e n k with
      | Some (s, n') => (s, n', k)
      | None => shortest fuel' x m e n (k + 1)
      end
  end.

Definition zeros (n : Z) : jsstring := List.repeat ZERO (Z.to_nat n).

Definition exponent_text (n : Z) : jsstring :=
  101%N :: (if n - 1 <? 0 then MINUS else PLUS) :: digits_of (Z.abs (n - 1)).

(** Steps 6 to 10 of Number::toString for the digits [s] of length [k] and
    the exponent [n]. *)
Definition layout (s n k : Z) : jsstring :=
  let ds := digits_of s in
  if (k <=? n) && (n <=? 21) then ds ++ zeros (n - k)
  else if (0 <? n) && (n <=? 21) then
    List.firstn (Z.to_nat n) ds ++ DOT :: List.skipn (Z.to_nat n) ds
  else if (-6 <? n) && (n <=? 0) then ZERO :: DOT :: zeros (- n) ++ ds
  else if k =? 1 then ds ++ exponent_text n
  else List.firstn 1 ds ++ DOT :: List.skipn 1 ds ++ exponent_text n.

Definition to_string (x : float) : jsstring :=
  match Prim2SF x with
  | S754_nan => js "NaN"
  | S754_zero _ => js "0"
  | S754_infinity neg => (if neg then [MINUS] else []) ++ js "Infinity"
  | S754_finite neg m e =>
      let ax := PrimFloat.abs x in
      let n := decimal_exponent (Zpos m) e in
      let '(s, n', k) := shortest 17 ax (Zpos m) e n 1 in
      (if neg then [MINUS] else []) ++ layout s n' k
  end.

End Ecma262.

#[export] Instance ecma262_numbers : HostNumbers := {|
  NumericLiteral_value := Ecma262.literal_value;
  Number_toString := Ecma262.to_string
|}.

(* ================================================================== *)
(** * The export helper's serialisation *)
(* ================================================================== *)

Section ExportHelper.
Context {host : HostNumbers}.

Definition hex_char (n : N) : code_unit := if n <? 10 then n + 48 else n + 87.

(** The escape [\uXXXX] with four lower-case hexadecimal digits. *)
Definition unicode_escape (c : code_unit) : jsstring :=
  [BACKSLASH; 117;
   hex_char (c / 4096 mod 16); hex_char (c / 256 mod 16);
   hex_char (c / 16 mod 16); hex_char (c mod 16)].

Definition is_high_surrogate (c : code_unit) : bool := (55296 <=? c) && (c <=? 56319).
Definition is_low_surrogate (c : code_unit) : bool := (56320 <=? c) && (c <=? 57343).

(** One code unit that is not part of a surrogate pair, as QuoteJSONString
    writes it. *)
Definition quote_unit (c : code_unit) : jsstring :=
  if c =? 8 then [BACKSLASH; 98]
  else if c =? 9 then [BACKSLASH; 116]
  else if c =? 10 then [BACKSLASH; 110]
  else if c =? 12 then [BACKSLASH; 102]
  else if c =? 13 then [BACKSLASH; 114]
  else if c =? QUOTE then [BACKSLASH; QUOTE]
  else if c =? BACKSLASH then [BACKSLASH; BACKSLASH]
  else if (c <? 32) || is_high_surrogate c || is_low_surrogate c then unicode_escape c
  else [c].

(** QuoteJSONString walks the code points of the string: a high surrogate
    followed by a low one is a pair and is copied; any other surrogate is
    escaped. *)
Fixpoint quote_chars (s : jsstring) : jsstring :=
  match s with
  | [] => []
  | c :: t =>
      match t with
      | d :: t' =>
          if is_high_surrogate c && is_low_surrogate d then c :: d :: quote_chars t'
          else quote_unit c ++ quote_chars t
      | [] => quote_unit c
      end
  end.

Definition QuoteJSONString (s : jsstring) : jsstring :=
  QUOTE :: quote_chars s ++ [QUOTE].

Fixpoint join (sep : jsstring) (parts : list jsstring) : jsstring :=
  match parts with
  | [] => []
  | p :: rest =>
      match rest with
      | [] => p
      | _ :: _ => p ++ sep ++ join sep rest
      end
  end.

(** The gap of [JSON.stringify(data, null, 2)]: two spaces. *)
Definition gap : jsstring := [SPACE; SPACE].

(** SerializeJSONProperty with a non-empty gap; [None] is the [undefined]
    that the algorithm returns for a value with no JSON form. [indent] is
    the current indentation. *)
Fixpoint serialize (indent : jsstring) (v : value) {struct v} : option jsstring :=
  match v with
  | VUndefined => None
  | VNull => Some (js "null")
  | VBoolean b => Some (if b then js "true" else js "false")
  | VNumber x => Some (if PrimFloat.is_finite x then Number_toString x else js "null")
  | VString s => Some (QuoteJSONString s)
  | VArray elems =>
      let stepback := indent in
      let indent := indent ++ gap in
      let partial :=
        List.map (fun e => match serialize indent e with
                           | Some t => t
                           | None => js "null"
                           end) elems in
      Some (match partial with
            | [] => js "[]"
            | _ :: _ =>
                LBRACKET :: LF :: indent ++ join (COMMA :: LF :: indent) partial
                  ++ LF :: stepback ++ [RBRACKET]
            end)
  | VObject props =>
      let stepback := indent in
      let indent := indent ++ gap in
      let partial :=
        List.flat_map (fun p => match serialize indent (snd p) with
                                | Some t => [QuoteJSONString (fst p) ++ COLON :: SPACE :: t]
                                | None => []
                                end) props in
      Some (match partial with
            | [] => js "{}"
            | _ :: _ =>
                LBRACE :: LF :: indent ++ join (COMMA :: LF :: indent) partial
                  ++ LF :: stepback ++ [RBRACE]
            end)
  end.

(** [JSON.stringify(value, null, 2)]. *)
Definition JSON_stringify (v : value) : option jsstring := serialize [] v.

(** The object literal [{ settings, posters }] of type [WallData] that the
    editor hands to [downloadJsonFile]. *)
Definition wall_document (d : WallData) : value :=
  VObject [(js "settings", settings d); (js "posters", VArray (posters d))].

(** The text [downloadJsonFile] puts in the downloaded file:
    [JSON.stringify(data, null, 2)]. A [WallData] is an object, so the
    result is a string. *)
Definition downloadJsonFile_text (d : WallData) : jsstring :=
  match JSON_stringify (wall_document d) with
  | Some text => text
  | None => js "undefined"
  end.

End ExportHelper.

(** What [JSON.parse] rebuilds from the text of a value: properties holding
    [undefined] are gone, [undefined] array elements and non-finite numbers
    have become [null], and a finite number is the value of its own decimal
    text. *)
Fixpoint revive {host : HostNumbers} (v : value) : value :=
  match v with
  | VUndefined => VUndefined
  | VNull => VNull
  | VBoolean b => VBoolean b
  | VNumber x =>
      if PrimFloat.is_finite x then VNumber (NumericLiteral_value (Number_toString x))
      else VNull
  | VString s => VString s
  | VArray elems =>
      VArray (List.map (fun e => match e with
                                 | VUndefined => VNull
                                 | _ => revive e
                                 end) elems)
  | VObject props =>
      VObject (List.flat_map (fun p => match snd p with
                                       | VUndefined => []
                                       | _ => [(fst p, revive (snd p))]
                                       end) props)
  end.

(** [a === b] on primitive values (numbers by IEEE equality, so that
    [0 === -0] and [NaN !== NaN]); arrays and objects are compared by
    identity in JavaScript and never by this function. *)
Definition strict_equal (a b : value) : bool :=
  match a, b with
  | VUndefined, VUndefined => true
  | VNull, VNull => true
  | VBoolean x, VBoolean y => Bool.eqb x y
  | VNumber x, VNumber y => PrimFloat.eqb x y
  | VString x, VString y => jsstring_eqb x y
  | _, _ => false
  end.

(** Field-for-field equality of two settings records and of two posters,
    over the fields that the types [Settings] and [WallPoster] of App.tsx
    declare. *)
Definition settings_fields : list jsstring :=
  [js "wallWidth"; js "wallHeight"; js "background"; js "showGrid";
   js "gridStep"; js "gridColor"].

Definition poster_fields : list jsstring :=
  [js "id"; js "sizeId"; js "x"; js "y"; js "width"; js "height"; js "label";
   js "imageSrc"].

Definition same_fields (fields : list jsstring) (a b : value) : bool :=
  forallb (fun k => strict_equal (get k a) (get k b)) fields.

Fixpoint same_posters (a b : list value) : bool :=
  match a, b with
  | [], [] => true
  | p :: a', q :: b' => same_fields poster_fields p q && same_posters a' b'
  | _, _ => false
  end.

Definition same_document (a b : WallData) : bool :=
  same_fields settings_fields (settings a) (settings b) &&
  same_posters (posters a) (posters b).

(** In a JavaScript object no two properties have the same key. *)
Fixpoint keys_unique (props : list (jsstring * value)) : bool :=
  match props with
  | [] => true
  | (k, _) :: rest =>
      match lookup k rest with
      | Some _ => false
      | None => keys_unique rest
      end
  end.

Fixpoint well_formed (v : value) : bool :=
  match v with
  | VArray elems => forallb well_formed elems
  | VObject props =>
      keys_unique props && forallb (fun p => well_formed (snd p)) props
  | _ => true
  end.

(** The finite numbers that occur in a value. *)
Fixpoint numbers_of (v : value) : list float :=
  match v with
  | VNumber x => if PrimFloat.is_finite x then [x] else []
  | VArray elems => List.flat_map numbers_of elems
  | VObject props => List.flat_map (fun p => numbers_of (snd p)) props
  | _ => []
  end.

(** What ECMA-262 promises of the host's conversions for a finite number
    [x]: [Number::toString] writes a JSON number token, and that token
    reads back as a number equal to [x] (the sign of zero apart). *)
Definition reads_back {host : HostNumbers} (x : float) : bool :=
  match scan_number (Number_toString x) with
  | Some (lexeme, []) =>
      jsstring_eqb lexeme (Number_toString x) &&
      PrimFloat.eqb (NumericLiteral_value (Number_toString x)) x
  | _ => false
  end.

(* ================================================================== *)
(** * The bulk image loader *)
(* ================================================================== *)

(** A load that [loadPosterImages] has started: the promise
    [loadImageFromSrc(poster.imageSrc)] with the continuation that calls
    [onImageLoad(poster.id, image)] when it resolves, and swallows a
    rejection. *)
Record image_load := { load_id : value; load_src : value }.

Definition loadPosterImages (posters : list value) : list image_load :=
  List.flat_map
    (fun poster =>
       if negb (ToBoolean (get (js "imageSrc") poster)) then []
       else [{| load_id := get (js "id") poster;
                load_src := get (js "imageSrc") poster |}])
    posters.

Section ImageLoading.
(** [HTMLImageElement] *)
Variable Image : Type.

(** The state of the loader as the host's event loop sees it: the loads
    still pending, and the calls of [onImageLoad] made so far. *)
Record loader_state := {
  pending : list image_load;
  calls : list (value * Image)
}.

Definition started (posters : list value) : loader_state :=
  {| pending := loadPosterImages posters; calls := [] |}.

(** One pending load settles, in any order: it resolves with an image and
    the callback runs, or it is rejected and nothing happens. *)
Inductive settles : loader_state -> loader_state -> Prop :=
| settle_resolved : forall before l after cs image,
    settles {| pending := before ++ l :: after; calls := cs |}
            {| pending := before ++ after; calls := cs ++ [(load_id l, image)] |}
| settle_rejected : forall before l after cs,
    settles {| pending := before ++ l :: after; calls := cs |}
            {| pending := before ++ after; calls := cs |}.

Inductive reachable (posters : list value) : loader_state -> Prop :=
| reach_start : reachable posters (started posters)
| reach_step : forall s s',
    reachable posters s -> settles s s' -> reachable posters s'.

End ImageLoading.
Arguments pending {Image} l.
Arguments calls {Image} l.

(** [json_text "..."] is the text of a literal in which every apostrophe
    stands for a double quote. *)
Definition json_text (s : string) : jsstring :=
  List.map (fun c => if c =? 39 then QUOTE else c) (js s).

(* ================================================================== *)
(** * The specification's vocabulary *)
(* ================================================================== *)

(** The predicates below follow the words of the specification; the
    theorems compare them with the guards above. *)

Definition finite_number (v : value) : Prop :=
  exists x, v = VNumber x /\ PrimFloat.is_finite x = true.

Definition positive_number (v : value) : Prop :=
  exists x, v = VNumber x /\ PrimFloat.is_finite x = true /\ PrimFloat.ltb 0%float x = true.

Definition a_string (v : value) : Prop := exists s, v = VString s.

Definition a_nonempty_string (v : value) : Prop :=
  exists c s, v = VString (c :: s).

Definition a_boolean (v : value) : Prop := exists b, v = VBoolean b.

(** Settings structural validation: wall width and wall height are finite
    numbers strictly greater than zero; background is a string; grid-visible
    is a boolean; grid step is a finite number strictly greater than zero;
    grid color is a string. *)
Definition valid_settings (s : value) : Prop :=
  positive_number (get (js "wallWidth") s) /\
  positive_number (get (js "wallHeight") s) /\
  a_string (get (js "background") s) /\
  a_boolean (get (js "showGrid") s) /\
  positive_number (get (js "gridStep") s) /\
  a_string (get (js "gridColor") s).

(** Poster structural validation: id, sizeId and label are strings; x and y
    are finite numbers, with no range check; width and height are finite
    numbers strictly greater than zero; the image field is absent,
    [undefined], or a string. *)
Definition valid_poster (p : value) : Prop :=
  a_string (get (js "id") p) /\
  a_string (get (js "sizeId") p) /\
  a_string (get (js "label") p) /\
  finite_number (get (js "x") p) /\
  finite_number (get (js "y") p) /\
  positive_number (get (js "width") p) /\
  positive_number (get (js "height") p) /\
  (has_property (js "imageSrc") p = false \/
   get (js "imageSrc") p = VUndefined \/
   a_string (get (js "imageSrc") p)).

(** The WallSettings invariant of the data model: all numeric fields finite
    and greater than zero; all color fields non-empty strings. *)
Definition wall_settings_invariant (s : value) : Prop :=
  positive_number (get (js "wallWidth") s) /\
  positive_number (get (js "wallHeight") s) /\
  positive_number (get (js "gridStep") s) /\
  a_nonempty_string (get (js "background") s) /\
  a_nonempty_string (get (js "gridColor") s).

(** The identifiers of the posters of a document, in order. *)
Definition poster_ids (d : WallData) : list value :=
  List.map (get (js "id")) (posters d).

(** A poster object with the seven required fields, and the image field
    when [image] is given. *)
Definition poster_object (id sizeId x y width height label : value)
  (image : option value) : value :=
  VObject
    ([(js "id", id); (js "sizeId", sizeId); (js "x", x); (js "y", y);
      (js "width", width); (js "height", height); (js "label", label)]
     ++ match image with
        | Some i => [(js "imageSrc", i)]
        | None => []
        end).

Section Stages.
Context {host : HostNumbers}.

(** "A non-null structured object": an object with properties; arrays,
    strings, numbers, booleans and [null] are none. *)
Definition structured_object (v : value) : Prop :=
  exists props, v = VObject props.

(** [applies e text]: the failure reason [e] describes [text], in the words
    of the specification's list of stages and each reason taken on its own,
    whatever the validator does:
    - empty: the text, after trimming, is the empty string;
    - invalid-json: the trimmed text fails to parse as JSON;
    - invalid-root: the parsed value is not a non-null structured object
      (it is an array, a string, a number, a boolean or [null]);
    - invalid-settings: the [settings] field fails structural validation;
    - invalid-posters: the [posters] field is not an array, or one of its
      elements fails structural validation. *)
Definition applies (e : ParseWallError) (text : jsstring) : Prop :=
  match e with
  | empty => trim text = []
  | invalid_json => JSON_parse (trim text) = None
  | invalid_root =>
      exists root, JSON_parse (trim text) = Some root /\ ~ structured_object root
  | invalid_settings =>
      exists root,
        JSON_parse (trim text) = Some root /\
        ~ valid_settings (get (js "settings") root)
  | invalid_posters =>
      exists root,
        JSON_parse (trim text) = Some root /\
        ((forall elems, get (js "posters") root <> VArray elems) \/
         (exists elems p,
             get (js "posters") root = VArray elems /\ In p elems /\
             ~ valid_poster p))
  end.

(** The place of each reason in the specification's priority order. *)
Definition priority (e : ParseWallError) : nat :=
  match e with
  | empty => 1%nat
  | invalid_json => 2%nat
  | invalid_root => 3%nat
  | invalid_settings => 4%nat
  | invalid_posters => 5%nat
  end.

(** [first_applicable e text]: [e] applies to [text] and no reason before it
    in the priority order does. *)
Definition first_applicable (e : ParseWallError) (text : jsstring) : Prop :=
  applies e text /\
  forall e', (priority e' < priority e)%nat -> ~ applies e' text.

(** The run of [parseWallData] on a text: the stage it stops at, or its
    success. *)
Inductive run (text : jsstring) : ParseWallResult -> Prop :=
| run_empty :
    trim text = [] ->
    run text (failure empty)
| run_invalid_json :
    trim text <> [] -> JSON_parse (trim text) = None ->
    run text (failure invalid_json)
| run_invalid_root : forall root,
    trim text <> [] -> JSON_parse (trim text) = Some root ->
    isRecord root = false ->
    run text (failure invalid_root)
| run_invalid_settings : forall root,
    trim text <> [] -> JSON_parse (trim text) = Some root ->
    isRecord root = true ->
    isSettings (get (js "settings") root) = false ->
    run text (failure invalid_settings)
| run_posters_not_array : forall root,
    trim text <> [] -> JSON_parse (trim text) = Some root ->
    isRecord root = true ->
    isSettings (get (js "settings") root) = true ->
    (forall elems, get (js "posters") root <> VArray elems) ->
    run text (failure invalid_posters)
| run_invalid_poster : forall root elems,
    trim text <> [] -> JSON_parse (trim text) = Some root ->
    isRecord root = true ->
    isSettings (get (js "settings") root) = true ->
    get (js "posters") root = VArray elems ->
    forallb isPoster elems = false ->
    run text (failure invalid_posters)
| run_success : forall root elems,
    trim text <> [] -> JSON_parse (trim text) = Some root ->
    isRecord root = true ->
    isSettings (get (js "settings") root) = true ->
    get (js "posters") root = VArray elems ->
    forallb isPoster elems = true ->
    run text {| data := Some {| settings := get (js "settings") root;
                                posters := elems |};
                error := None |}.

End Stages.

(** Concrete documents used as examples. *)

(** The scenario of the specification: one poster, no image. *)
Definition scenario_text : jsstring :=
  json_text "{'settings':{'wallWidth':1400,'wallHeight':800,'background':'#fff','showGrid':true,'gridStep':20,'gridColor':'#eee'},'posters':[{'id':'p1','sizeId':'s1','x':10,'y':10,'width':100,'height':150,'label':'A'}]}".

(** A wall without posters. *)
Definition bare_wall_text : jsstring :=
  json_text "{'settings':{'wallWidth':1400,'wallHeight':800,'background':'#fff','showGrid':true,'gridStep':20,'gridColor':'#eee'},'posters':[]}".

(** Settings whose two colors are the empty string. *)
Definition blank_color_settings : value :=
  VObject [(js "wallWidth", VNumber 1400); (js "wallHeight", VNumber 800);
           (js "background", VString []); (js "showGrid", VBoolean true);
           (js "gridStep", VNumber 20); (js "gridColor", VString [])].

(** Two posters with the same identifier. *)
Definition twin_posters_text : jsstring :=
  json_text "{'settings':{'wallWidth':1400,'wallHeight':800,'background':'#fff','showGrid':true,'gridStep':20,'gridColor':'#eee'},'posters':[{'id':'p1','sizeId':'s1','x':10,'y':10,'width':100,'height':150,'label':'A'},{'id':'p1','sizeId':'s2','x':200,'y':10,'width':100,'height':150,'label':'B'}]}".

(** An object root whose settings and posters are both malformed. *)
Definition doubly_broken_text : jsstring :=
  json_text "{'settings':{'wallWidth':0},'posters':5}".

(** The declaration [imageSrc?: string] of the type [WallPoster]: the
    field reads as [undefined] or as a string. *)
Definition image_field_typed (poster : value) : Prop :=
  get (js "imageSrc") poster = VUndefined \/ a_string (get (js "imageSrc") poster).

(** A poster whose [imageSrc] field is present and a non-empty string. *)
Definition has_image (poster : value) : bool :=
  match get (js "imageSrc") poster with
  | VString (_ :: _) => true
  | _ => false
  end.

(** The load started for a poster. *)
Definition load_of (poster : value) : image_load :=
  {| load_id := get (js "id") poster; load_src := get (js "imageSrc") poster |}.

(** Four posters: with an image, with the empty string as image, bare, and
    with the image field set to [undefined] and placed at minus zero. *)
Definition gallery : list value :=
  [ poster_object (VString (js "p1")) (VString (js "s1")) (VNumber 10) (VNumber 10)
      (VNumber 100) (VNumber 150) (VString (js "A"))
      (Some (VString (js "data:image/png;base64,AAAA")));
    poster_object (VString (js "p2")) (VString (js "s1")) (VNumber 0) (VNumber (-5))
      (VNumber 100) (VNumber 150) (VString (js "B")) (Some (VString []));
    poster_object (VString (js "p3")) (VString (js "s1")) (VNumber 2000) (VNumber 10)
      (VNumber 100) (VNumber 150) (VString (js "C")) None;
    poster_object (VString (js "p4")) (VString (js "s9")) (VNumber (-0)) (VNumber 0.5)
      (VNumber 297) (VNumber 420) (VString (js "D")) (Some VUndefined) ].

(** The settings of the specification's scenario. *)
Definition sample_settings : value :=
  VObject [(js "wallWidth", VNumber 1400); (js "wallHeight", VNumber 800);
           (js "background", VString (js "#fff")); (js "showGrid", VBoolean true);
           (js "gridStep", VNumber 20); (js "gridColor", VString (js "#eee"))].

(** An in-memory document: the sample settings with the gallery. *)
Definition sample_document : WallData :=
  {| settings := sample_settings; posters := gallery |}.

(** [settled a b]: the result [a] is [b], unless the fuel ran out while
    computing [a]. *)
Definition settled (a b : parsed value) : Prop := a = OutOfFuel \/ a = b.

(** What may follow a number token without being read as part of it. *)
Definition ends_number (rest : jsstring) : bool :=
  match rest with
  | [] => true
  | c :: _ => negb (is_digit c || (c =? DOT) || (c =? 101) || (c =? 69))
  end.

(** Text made of JSON white space only. *)
Definition blank (s : jsstring) : bool := forallb is_json_ws s.

(** Fuel that suffices to read a value back from its text. *)
Fixpoint reading_fuel (v : value) : nat :=
  match v with
  | VArray elems => S (list_sum (List.map (fun e => S (reading_fuel e)) elems))
  | VObject props =>
      S (list_sum (List.map (fun p => S (reading_fuel (snd p))) props))
  | _ => 1%nat
  end.

(** Text whose first character can start an element of an array or the
    text of a value: it is not white space and closes no array or object. *)
Definition starts_value (t : jsstring) : bool :=
  match t with
  | c :: _ => negb (is_json_ws c) && negb (c =? RBRACKET) && negb (c =? RBRACE)
  | [] => false
  end.

(** The property holds a value other than [undefined]. *)
Definition holds_value (p : jsstring * value) : bool := is_not_undefined (snd p).

(** [reads_as_revived v]: the reader, given the text of [v] written at any
    indentation and followed by any text that cannot continue a number,
    returns [revive v] and stops where that text starts. *)
Definition reads_as_revived {host : HostNumbers} (v : value) : Prop :=
  forall indent text rest fuel,
    blank indent = true ->
    serialize indent v = Some text ->
    ends_number rest = true ->
    (reading_fuel v <= fuel)%nat ->
    parse_value fuel (text ++ rest) = Ok (revive v) rest.

(* ================================================================== *)
(** * App.tsx: the poster templates and their storage *)
(* ================================================================== *)

(** [Number.isFinite(v)] *)
Definition Number_isFinite (v : value) : bool :=
  match v with
  | VNumber x => PrimFloat.is_finite x
  | _ => false
  end.

(** [v > 0], which the guard evaluates only once [typeof v === "number"]
    has held. *)
Definition greater_than_zero (v : value) : bool :=
  match v with
  | VNumber x => PrimFloat.ltb 0%float x
  | _ => false
  end.

Definition isValidPosterSize (v : value) : bool :=
  if negb (type_tag_eqb (typeof v) TObject) || strict_equal v VNull then false
  else
    type_tag_eqb (typeof (get (js "id") v)) TString &&
    type_tag_eqb (typeof (get (js "label") v)) TString &&
    type_tag_eqb (typeof (get (js "color") v)) TString &&
    type_tag_eqb (typeof (get (js "width") v)) TNumber &&
    Number_isFinite (get (js "width") v) &&
    greater_than_zero (get (js "width") v) &&
    type_tag_eqb (typeof (get (js "height") v)) TNumber &&
    Number_isFinite (get (js "height") v) &&
    greater_than_zero (get (js "height") v).

(** The one built-in template; its label is the Russian word for large. *)
Definition DEFAULT_SIZES : list value :=
  [VObject [(js "id", VString (js "s5"));
            (js "label", VString [1041; 1086; 1083; 1100; 1096; 1086; 1081]);
            (js "width", VNumber 500);
            (js "height", VNumber 700);
            (js "color", VString (js "#d1fae5"))]].

(** What [localStorage.getItem(POSTER_SIZES_STORAGE_KEY)] does: it throws
    (the storage is not available), returns [null] (nothing is stored under
    the key), or returns the stored string. *)
Inductive storage_read :=
| ReadThrows
| ReadNull
| ReadString (raw : jsstring).

(** The fields that the type [PosterSize] declares. *)
Definition size_fields : list jsstring :=
  [js "id"; js "label"; js "width"; js "height"; js "color"].

Fixpoint same_sizes (a b : list value) : bool :=
  match a, b with
  | [], [] => true
  | p :: a', q :: b' => same_fields size_fields p q && same_sizes a' b'
  | _, _ => false
  end.

(** A template as the type [PosterSize] describes it, with the bounds that
    the guard adds: id, label and color are strings, width and height are
    finite numbers above zero. *)
Definition valid_size (v : value) : Prop :=
  a_string (get (js "id") v) /\
  a_string (get (js "label") v) /\
  a_string (get (js "color") v) /\
  positive_number (get (js "width") v) /\
  positive_number (get (js "height") v).

Section Templates.
Context {host : HostNumbers}.

Definition loadPosterSizesFromStorage (read : storage_read) : list value :=
  match read with
  | ReadThrows => DEFAULT_SIZES
  | ReadNull => DEFAULT_SIZES
  | ReadString raw =>
      if negb (ToBoolean (VString raw)) then DEFAULT_SIZES
      else
        match JSON_parse raw with
        | None => DEFAULT_SIZES
        | Some parsed =>
            match parsed with
            | VArray elems =>
                if forallb isValidPosterSize elems then elems else DEFAULT_SIZES
            | _ => DEFAULT_SIZES
            end
        end
  end.

(** SerializeJSONProperty with the empty gap, as [JSON.stringify(value)]
    runs it: no line breaks, no indentation, no space after a colon. *)
Fixpoint serialize_plain (v : value) {struct v} : option jsstring :=
  match v with
  | VUndefined => None
  | VNull => Some (js "null")
  | VBoolean b => Some (if b then js "true" else js "false")
  | VNumber x => Some (if PrimFloat.is_finite x then Number_toString x else js "null")
  | VString s => Some (QuoteJSONString s)
  | VArray elems =>
      let partial :=
        List.map (fun e => match serialize_plain e with
                           | Some t => t
                           | None => js "null"
                           end) elems in
      Some (LBRACKET :: join [COMMA] partial ++ [RBRACKET])
  | VObject props =>
      let partial :=
        List.flat_map (fun p => match serialize_plain (snd p) with
                                | Some t => [QuoteJSONString (fst p) ++ COLON :: t]
                                | None => []
                                end) props in
      Some (LBRACE :: join [COMMA] partial ++ [RBRACE])
  end.

(** The string that the effect on [posterSizes] stores:
    [JSON.stringify(posterSizes)], of an array. *)
Definition stored_sizes (posterSizes : list value) : jsstring :=
  match serialize_plain (VArray posterSizes) with
  | Some text => text
  | None => js "undefined"
  end.

(** [reads_plain v]: the reader, given the text of [v] written without gap
    and followed by any text that cannot continue a number, returns
    [revive v] and stops where that text starts. *)
Definition reads_plain (v : value) : Prop :=
  forall text rest fuel,
    serialize_plain v = Some text ->
    ends_number rest = true ->
    (reading_fuel v <= fuel)%nat ->
    parse_value fuel (text ++ rest) = Ok (revive v) rest.

End Templates.

(** The own properties that an object spread [{ ...v }] copies, in order. *)
Definition spread (v : value) : list (jsstring * value) :=
  match v with
  | VObject props => props
  | _ => []
  end.

(** [v.id === id] for a string [id]. *)
Definition id_is (id : jsstring) (v : value) : bool :=
  strict_equal (get (js "id") v) (VString id).

(** The updater of [posterSizes] in [updateSize]: the templates with the
    given id get the field set. *)
Definition updateSize (id field : jsstring) (new : value) (prev : list value)
  : list value :=
  List.map (fun size => if id_is id size
                        then VObject (define_property (spread size) field new)
                        else size) prev.

(* ================================================================== *)
(** * App.tsx: the posters on the wall *)
(* ================================================================== *)

(** The Number of an integer below 2^53 in absolute value. *)
Definition of_integer (n : Z) : float :=
  let a := PrimFloat.of_uint63 (Uint63.of_Z (Z.abs n)) in
  if (n <? 0)%Z then PrimFloat.opp a else a.

(** [Math.round(x)]: [x] itself when it is not finite or is an integer;
    otherwise the integer nearest to [x], the greater one in a tie, which
    is the floor of [x + 1/2] taken exactly; a result of zero keeps the
    sign of [x]. A finite [x] is [m * 2^e], negated when [s] is set. *)
Definition Math_round (x : float) : float :=
  match Prim2SF x with
  | S754_finite s m e =>
      if (0 <=? e)%Z then x
      else
        let d := (2 ^ (- e))%Z in
        let n := ((2 * (if s then Z.neg m else Z.pos m) + d) / (2 * d))%Z in
        if (n =? 0)%Z then (if s then neg_zero else zero)
        else of_integer n
  | _ => x
  end.

Definition snapToGrid (value gridStep : float) : float :=
  (Math_round (value / gridStep) * gridStep)%float.

(** [Math.max(a, b)] and [Math.min(a, b)]: [NaN] if an argument is [NaN];
    otherwise the greater (the smaller) of the two, where plus zero counts
    as greater than minus zero. *)
Definition Math_max (a b : float) : float :=
  if PrimFloat.is_nan a || PrimFloat.is_nan b then nan
  else if (a <? b)%float then b
  else if PrimFloat.is_zero a && PrimFloat.get_sign a &&
          PrimFloat.is_zero b && negb (PrimFloat.get_sign b) then b
  else a.

Definition Math_min (a b : float) : float :=
  if PrimFloat.is_nan a || PrimFloat.is_nan b then nan
  else if (b <? a)%float then b
  else if PrimFloat.is_zero a && negb (PrimFloat.get_sign a) &&
          PrimFloat.is_zero b && PrimFloat.get_sign b then b
  else a.

(** The operand that a field gives to arithmetic when it holds a number,
    as its type [number] says, or is missing, which gives [NaN]; the
    fields read this way hold nothing else. *)
Definition number_field (k : jsstring) (v : value) : float :=
  match get k v with
  | VNumber x => x
  | _ => nan
  end.

(** [settings.showGrid ? settings.gridStep : 1] *)
Definition step_in_force (settings : value) : float :=
  if ToBoolean (get (js "showGrid") settings)
  then number_field (js "gridStep") settings
  else 1%float.

(** The coordinate that a drop and the end of a drag compute along one
    axis, [snapToGrid(Math.max(0, Math.min(position, limit - extent)),
    step)]: [position] is where the pointer or the dragged node is, [limit]
    the wall's width or height and [extent] the poster's. *)
Definition snapped (position limit extent : float) (settings : value) : float :=
  snapToGrid (Math_max 0 (Math_min position (limit - extent)%float))
    (step_in_force settings).

Definition snapped_x (position extent : float) (settings : value) : float :=
  snapped position (number_field (js "wallWidth") settings) extent settings.

Definition snapped_y (position extent : float) (settings : value) : float :=
  snapped position (number_field (js "wallHeight") settings) extent settings.

(** A number that is [NaN] or has its sign bit clear, read off its
    decomposition. *)
Definition sign_clear (f : spec_float) : bool :=
  match f with
  | S754_zero s | S754_infinity s | S754_finite s _ _ => negb s
  | S754_nan => true
  end.

(** The poster that [handleCanvasDrop] builds from the dragged template:
    [id] is the string of the template literal, [x] and [y] are the
    snapped coordinates. *)
Definition newPoster (id : jsstring) (draggedSize : value) (x y : float) : value :=
  VObject [(js "id", VString id);
           (js "sizeId", get (js "id") draggedSize);
           (js "x", VNumber x);
           (js "y", VNumber y);
           (js "width", get (js "width") draggedSize);
           (js "height", get (js "height") draggedSize);
           (js "label", get (js "label") draggedSize)].

(** [{ ...poster, x, y }] *)
Definition placed (poster : value) (x y : float) : value :=
  VObject (define_property (define_property (spread poster) (js "x") (VNumber x))
             (js "y") (VNumber y)).

(** [{ ...poster, imageSrc }] *)
Definition pictured (poster : value) (imageSrc : jsstring) : value :=
  VObject (define_property (spread poster) (js "imageSrc") (VString imageSrc)).

(** The wording of the import errors. *)
Definition IMPORT_ERROR_MESSAGES (e : ParseWallError) : jsstring :=
  match e with
  | empty =>
      [1060; 1072; 1081; 1083; 32; 1087; 1091; 1089; 1090; 1086; 1081; 46]
  | invalid_json =>
      [1060; 1072; 1081; 1083; 32; 1085; 1077; 32; 1103; 1074; 1083; 1103; 1077;
       1090; 1089; 1103; 32; 1074; 1072; 1083; 1080; 1076; 1085; 1099; 1084; 32;
       74; 83; 79; 78; 46]
  | invalid_root =>
      [1054; 1078; 1080; 1076; 1072; 1077; 1090; 1089; 1103; 32; 1086; 1073; 1098;
       1077; 1082; 1090; 32; 1089; 32; 1087; 1086; 1083; 1103; 1084; 1080; 32]
      ++ js "settings" ++ [32; 1080; 32] ++ js "posters."
  | invalid_settings =>
      [1053; 1077; 1082; 1086; 1088; 1088; 1077; 1082; 1090; 1085; 1099; 1077; 32;
       1085; 1072; 1089; 1090; 1088; 1086; 1081; 1082; 1080; 32; 1089; 1090; 1077;
       1085; 1099; 46]
  | invalid_posters =>
      [1053; 1077; 1082; 1086; 1088; 1088; 1077; 1082; 1090; 1085; 1099; 1081; 32;
       1089; 1087; 1080; 1089; 1086; 1082; 32; 1087; 1086; 1089; 1090; 1077; 1088;
       1086; 1074; 46]
  end.

Section Editor.
Context {host : HostNumbers}.
(** [HTMLImageElement] *)
Variable Image : Type.

(** The state of [App] that the poster handlers read and write: the state
    variables [settings] (here [wallSettings]), [wallPosters], [imageMap]
    (an object used as a map from poster id to image; ids that name a
    property of [Object.prototype] are left aside) and [selectedId] (a
    string or [null]). *)
Record editor := {
  wallSettings : value;
  wallPosters : list value;
  imageMap : list (jsstring * Image);
  selectedId : option jsstring
}.

(** [imageMap[id]] *)
Fixpoint image_of (id : jsstring) (map : list (jsstring * Image)) : option Image :=
  match map with
  | [] => None
  | (k, image) :: rest => if jsstring_eqb id k then Some image else image_of id rest
  end.

(** [{ ...prev, [id]: image }] *)
Fixpoint with_image (prev : list (jsstring * Image)) (id : jsstring) (image : Image)
  : list (jsstring * Image) :=
  match prev with
  | [] => [(id, image)]
  | (k, old) :: rest =>
      if jsstring_eqb id k then (k, image) :: rest
      else (k, old) :: with_image rest id image
  end.

(** The updater of [imageMap] in [removePoster]: the map itself when it has
    no entry for the id, and otherwise a copy without that entry. *)
Definition without_image (posterId : jsstring) (prev : list (jsstring * Image))
  : list (jsstring * Image) :=
  match image_of posterId prev with
  | None => prev
  | Some _ => List.filter (fun entry => negb (jsstring_eqb posterId (fst entry))) prev
  end.

(** The operand of [===] that a state of type [string | null] gives. *)
Definition id_value (selected : option jsstring) : value :=
  match selected with
  | Some id => VString id
  | None => VNull
  end.

(** [wallPosters.find((poster) => poster.id === selectedId)] *)
Definition selectedPoster (st : editor) : option value :=
  List.find (fun poster => strict_equal (get (js "id") poster) (id_value (selectedId st)))
    (wallPosters st).

(** [handleCanvasDrop]: [pointerX] and [pointerY] are the position of the
    pointer on the wall, computed from the drag event and the pan and zoom
    of the stage, [id] the string of the template literal. Without a
    dragged template the handler returns at once. *)
Definition handleCanvasDrop (draggedSize : option value) (id : jsstring)
  (pointerX pointerY : float) (st : editor) : editor :=
  match draggedSize with
  | None => st
  | Some size =>
      let x := snapped_x pointerX (number_field (js "width") size) (wallSettings st) in
      let y := snapped_y pointerY (number_field (js "height") size) (wallSettings st) in
      {| wallSettings := wallSettings st;
         wallPosters := wallPosters st ++ [newPoster id size x y];
         imageMap := imageMap st;
         selectedId := selectedId st |}
  end.

(** [handlePosterSelect]; [handlePosterRequestImage] changes the state in
    the same way and then opens the file dialog. *)
Definition handlePosterSelect (posterId : jsstring) (st : editor) : editor :=
  {| wallSettings := wallSettings st;
     wallPosters := wallPosters st;
     imageMap := imageMap st;
     selectedId := Some posterId |}.

(** The two state updates of [handleImageUpload], for the poster that was
    selected when the upload began: the first runs when the file has been
    read as a data URL, the second when the image has loaded from it. The
    second is also the update that [importJSON] hands to
    [loadPosterImages]. *)
Definition image_read (posterId imageSrc : jsstring) (st : editor) : editor :=
  {| wallSettings := wallSettings st;
     wallPosters :=
       List.map (fun poster => if id_is posterId poster
                               then pictured poster imageSrc
                               else poster) (wallPosters st);
     imageMap := imageMap st;
     selectedId := selectedId st |}.

Definition image_loaded (posterId : jsstring) (image : Image) (st : editor) : editor :=
  {| wallSettings := wallSettings st;
     wallPosters := wallPosters st;
     imageMap := with_image (imageMap st) posterId image;
     selectedId := selectedId st |}.

(** [handlePosterDragEnd]: [nodeX], [nodeY], [nodeWidth] and [nodeHeight]
    are what the dragged node answers to [x()], [y()], [width()] and
    [height()]. *)
Definition handlePosterDragEnd (posterId : jsstring)
  (nodeX nodeY nodeWidth nodeHeight : float) (st : editor) : editor :=
  let x := snapped_x nodeX nodeWidth (wallSettings st) in
  let y := snapped_y nodeY nodeHeight (wallSettings st) in
  {| wallSettings := wallSettings st;
     wallPosters :=
       List.map (fun poster => if id_is posterId poster
                               then placed poster x y
                               else poster) (wallPosters st);
     imageMap := imageMap st;
     selectedId := selectedId st |}.

Definition removePoster (posterId : jsstring) (st : editor) : editor :=
  {| wallSettings := wallSettings st;
     wallPosters := List.filter (fun p => negb (id_is posterId p)) (wallPosters st);
     imageMap := without_image posterId (imageMap st);
     selectedId :=
       if strict_equal (id_value (selectedId st)) (VString posterId) then None
       else selectedId st |}.

Definition handleRemoveSelected (st : editor) : editor :=
  if negb (ToBoolean (id_value (selectedId st))) then st
  else
    match selectedId st with
    | Some id => removePoster id st
    | None => st
    end.

(** A change in the settings panel: the panel writes its six fields into
    [settings]; any record is allowed for as the result. *)
Definition setSettings (s : value) (st : editor) : editor :=
  {| wallSettings := s;
     wallPosters := wallPosters st;
     imageMap := imageMap st;
     selectedId := selectedId st |}.

(** [clearWall]; [confirmed] is the answer to the confirmation dialog. *)
Definition clearWall (confirmed : bool) (st : editor) : editor :=
  if confirmed then
    {| wallSettings := wallSettings st;
       wallPosters := [];
       imageMap := [];
       selectedId := None |}
  else st.

(** The text that [exportJSON] hands to the browser as a download: the
    document [{ settings, posters: wallPosters }] as [downloadJsonFile]
    writes it. *)
Definition exportJSON (st : editor) : jsstring :=
  downloadJsonFile_text {| settings := wallSettings st; posters := wallPosters st |}.

(** What [importJSON] does once the file has been read as [text]: the new
    state, the message of the alert if there is one, and the image loads
    started. *)
Record import_outcome := {
  state_after : editor;
  alert : option jsstring;
  loads : list image_load
}.

Definition importJSON (text : jsstring) (st : editor) : import_outcome :=
  let result := parseWallData text in
  if match error result with Some _ => true | None => false end
     || match data result with Some _ => false | None => true end
  then
    {| state_after := st;
       alert := Some (IMPORT_ERROR_MESSAGES
                        match error result with
                        | Some e => e
                        | None => invalid_json
                        end);
       loads := [] |}
  else
    match data result with
    | Some d =>
        {| state_after :=
             {| wallSettings := settings d;
                wallPosters := posters d;
                imageMap := [];
                selectedId := None |};
           alert := None;
           loads := loadPosterImages (posters d) |}
    | None => {| state_after := st; alert := None; loads := [] |}
    end.

(** What happens to the editor, one handler or one completion at a time. *)
Inductive event :=
| Drop (draggedSize : option value) (id : jsstring) (pointerX pointerY : float)
| Select (posterId : jsstring)
| ImageRead (posterId imageSrc : jsstring)
| ImageLoaded (posterId : jsstring) (image : Image)
| DragEnd (posterId : jsstring) (nodeX nodeY nodeWidth nodeHeight : float)
| RemoveSelected
| Clear (confirmed : bool)
| Import (text : jsstring)
| Configure (s : value).

Definition handle (e : event) (st : editor) : editor :=
  match e with
  | Drop draggedSize id pointerX pointerY =>
      handleCanvasDrop draggedSize id pointerX pointerY st
  | Select posterId => handlePosterSelect posterId st
  | ImageRead posterId imageSrc => image_read posterId imageSrc st
  | ImageLoaded posterId image => image_loaded posterId image st
  | DragEnd posterId nodeX nodeY nodeWidth nodeHeight =>
      handlePosterDragEnd posterId nodeX nodeY nodeWidth nodeHeight st
  | RemoveSelected => handleRemoveSelected st
  | Clear confirmed => clearWall confirmed st
  | Import text => state_after (importJSON text st)
  | Configure s => setSettings s st
  end.

(** The posters are clicked where the canvas draws them: a click names the
    id of a poster on the wall. *)
Definition on_wall (posterId : jsstring) (st : editor) : bool :=
  existsb (id_is posterId) (wallPosters st).

Definition arises (e : event) (st : editor) : Prop :=
  match e with
  | Select posterId => on_wall posterId st = true
  | _ => True
  end.

(** The editor starts with an empty wall and nothing selected. *)
Definition initial (s : value) : editor :=
  {| wallSettings := s; wallPosters := []; imageMap := []; selectedId := None |}.

Inductive editing (s : value) : editor -> Prop :=
| editing_start : editing s (initial s)
| editing_step : forall st e,
    editing s st -> arises e st -> editing s (handle e st).

(** The template that an event drops is a valid one, and the coordinates
    that a drop or the end of a drag computes are finite. *)
Definition sound (e : event) (st : editor) : Prop :=
  match e with
  | Drop (Some size) _ pointerX pointerY =>
      isValidPosterSize size = true /\
      PrimFloat.is_finite
        (snapped_x pointerX (number_field (js "width") size) (wallSettings st)) = true /\
      PrimFloat.is_finite
        (snapped_y pointerY (number_field (js "height") size) (wallSettings st)) = true
  | DragEnd _ nodeX nodeY nodeWidth nodeHeight =>
      PrimFloat.is_finite (snapped_x nodeX nodeWidth (wallSettings st)) = true /\
      PrimFloat.is_finite (snapped_y nodeY nodeHeight (wallSettings st)) = true
  | _ => True
  end.

Inductive sound_editing (s : value) : editor -> Prop :=
| sound_start : sound_editing s (initial s)
| sound_step : forall st e,
    sound_editing s st -> sound e st -> sound_editing s (handle e st).

End Editor.
Arguments wallSettings {Image} e.
Arguments wallPosters {Image} e.
Arguments imageMap {Image} e.
Arguments selectedId {Image} e.
Arguments state_after {Image} i.
Arguments alert {Image} i.
Arguments loads {Image} i.

(* ================================================================== *)
(** * App.tsx: editing the templates *)
(* ================================================================== *)

Section TemplateEditing.
Context {host : HostNumbers}.

(** [addCustomSize]: [now] is what [Date.now()] returns; the label is the
    Russian word for custom, a space and the number of templates plus
    one. Template literals write a number as [Number::toString] does. *)
Definition addCustomSize (now : float) (posterSizes : list value) : list value :=
  posterSizes ++
  [VObject [(js "id", VString (js "custom-" ++ Number_toString now));
            (js "label",
             VString ([1055; 1086; 1083; 1100; 1079; 1086; 1074; 1072; 1090; 1077;
                       1083; 1100; 1089; 1082; 1080; 1081; 32]
                      ++ Number_toString
                           (of_integer (Z.of_nat (List.length posterSizes) + 1))));
            (js "width", VNumber 400);
            (js "height", VNumber 300);
            (js "color", VString (js "#e0e7ff"))]].

Definition removeSize (id : jsstring) (prev : list value) : list value :=
  List.filter (fun s => negb (id_is id s)) prev.

(** What the palette does to the templates: the add button, the width and
    height inputs of a card, which pass [Number(e.target.value)], and the
    remove button of a card. *)
Inductive size_event :=
| AddCustom (now : float)
| SetWidth (id : jsstring) (value : float)
| SetHeight (id : jsstring) (value : float)
| RemoveSize (id : jsstring).

Definition change_sizes (e : size_event) (posterSizes : list value) : list value :=
  match e with
  | AddCustom now => addCustomSize now posterSizes
  | SetWidth id value => updateSize id (js "width") (VNumber value) posterSizes
  | SetHeight id value => updateSize id (js "height") (VNumber value) posterSizes
  | RemoveSize id => removeSize id posterSizes
  end.

(** The number typed into an input is finite and above zero. *)
Definition typed_size (e : size_event) : Prop :=
  match e with
  | SetWidth _ value | SetHeight _ value => isPositiveNumber (VNumber value) = true
  | _ => True
  end.

(** The lists of templates reached from what the storage held at start-up
    while every number typed is finite and above zero. *)
Inductive templates_reached (read : storage_read) : list value -> Prop :=
| templates_loaded : templates_reached read (loadPosterSizesFromStorage read)
| templates_changed : forall sizes e,
    templates_reached read sizes -> typed_size e ->
    templates_reached read (change_sizes e sizes).

End TemplateEditing.

(* ================================================================== *)
(** * App.tsx: the zoom and pan of the stage *)
(* ================================================================== *)

(** The state variables [stageScale] and [stagePosition]. *)
Record view := {
  stageScale : float;
  stagePosition : float * float
}.

(** The view the editor starts with: [useState(1)] and
    [useState({ x: 0, y: 0 })]. *)
Definition initial_view : view :=
  {| stageScale := 1; stagePosition := (0%float, 0%float) |}.

(** The decimal literals [1.05] and [0.4] denote the doubles nearest to
    them, which are the correctly rounded quotients below. *)
Definition scaleBy : float := (105 / 100)%float.
Definition smallest_scale : float := (4 / 10)%float.
Definition largest_scale : float := 3%float.

(** A zoom factor within the bounds of the clamp. *)
Definition in_range (x : float) : Prop :=
  (smallest_scale <=? x)%float = true /\ (x <=? largest_scale)%float = true.

(** [handleStageWheel] on a mounted stage: [deltaY] comes from the wheel
    event, [pointer] is what [stage.getPointerPosition()] returns, [None]
    for [null]. *)
Definition handleStageWheel (deltaY : float) (pointer : option (float * float))
  (v : view) : view :=
  match pointer with
  | None => v
  | Some (pointer_x, pointer_y) =>
      let oldScale := stageScale v in
      let direction := if (0 <? deltaY)%float then (-1)%float else 1%float in
      let nextScale :=
        if (0 <? direction)%float then (oldScale * scaleBy)%float
        else (oldScale / scaleBy)%float in
      let clampedScale := Math_max smallest_scale (Math_min largest_scale nextScale) in
      let mousePointTo_x := ((pointer_x - fst (stagePosition v)) / oldScale)%float in
      let mousePointTo_y := ((pointer_y - snd (stagePosition v)) / oldScale)%float in
      {| stageScale := clampedScale;
         stagePosition := ((pointer_x - mousePointTo_x * clampedScale)%float,
                           (pointer_y - mousePointTo_y * clampedScale)%float) |}
  end.

(** The views the editor can be in: the wheel changes zoom and position;
    panning with the middle button changes the position only. *)
Inductive viewing : view -> Prop :=
| viewing_start : viewing initial_view
| viewing_wheel : forall v deltaY pointer,
    viewing v -> viewing (handleStageWheel deltaY pointer v)
| viewing_pan : forall v dx dy,
    viewing v ->
    viewing {| stageScale := stageScale v;
               stagePosition := ((fst (stagePosition v) + dx)%float,
                                 (snd (stagePosition v) + dy)%float) |}.

(** Concrete data for the editor. *)

(** An object root with valid settings and one poster of width zero. *)
Definition zero_width_text : jsstring :=
  json_text "{'settings':{'wallWidth':1400,'wallHeight':800,'background':'#fff','showGrid':true,'gridStep':20,'gridColor':'#eee'},'posters':[{'id':'p1','sizeId':'s1','x':10,'y':10,'width':0,'height':150,'label':'A'}]}".

(** The sample document with one more poster, of width zero. *)
Definition flawed_document : WallData :=
  {| settings := sample_settings;
     posters :=
       gallery ++
       [poster_object (VString (js "p5")) (VString (js "s1")) (VNumber 10) (VNumber 10)
          (VNumber 0) (VNumber 150) (VString (js "E")) None] |}.

(** The built-in template and a custom one. *)
Definition custom_size : value :=
  VObject [(js "id", VString (js "custom-1700000000000"));
           (js "label", VString (js "A4"));
           (js "width", VNumber 297);
           (js "height", VNumber 420.5);
           (js "color", VString (js "#e0e7ff"))].

Definition sample_sizes : list value := DEFAULT_SIZES ++ [custom_size].

(** A session: two drops, a click on the second poster, a drag of the
    first, an upload for the second, a file that is not JSON, a change of
    the colors in the settings panel, the removal of the selection and a
    click on the remaining poster. *)
Definition sample_session : list (event unit) :=
  [Drop unit (Some custom_size) (js "poster-1-0.25") 33 47;
   Drop unit (Some custom_size) (js "poster-2-0.75") 1390 (-12);
   Select unit (js "poster-2-0.75");
   DragEnd unit (js "poster-1-0.25") 108.5 61 297 420.5;
   ImageRead unit (js "poster-2-0.75") (js "data:image/png;base64,AAAA");
   ImageLoaded unit (js "poster-2-0.75") tt;
   Import unit (js "not json");
   Configure unit blank_color_settings;
   RemoveSelected unit;
   Select unit (js "poster-1-0.25")].

(** The states of a session, from the first to the last. *)
Fixpoint replay (events : list (event unit)) (st : editor unit) : editor unit :=
  match events with
  | [] => st
  | e :: rest => replay rest (handle unit e st)
  end.

(** The state at the end of the sample session. *)
Definition session_end : editor unit :=
  replay sample_session (initial unit sample_settings).

(* ================================================================== *)
(** * Properties of the type guards *)
(* ================================================================== *)

Lemma jsstring_eqb_eq (a b : jsstring) : jsstring_eqb a b = true <-> a = b.
Proof.
  revert b; induction a as [|x a IH]; intros [|y b]; simpl; try (split; congruence).
  rewrite andb_true_iff, N.eqb_eq, IH. split.
  - intros [-> ->]; reflexivity.
  - intros H; injection H; auto.
Qed.

Lemma jsstring_eqb_refl (a : jsstring) : jsstring_eqb a a = true.
Proof. apply jsstring_eqb_eq; reflexivity. Qed.

Lemma isString_spec (v : value) : isString v = true <-> a_string v.
Proof.
  split.
  - destruct v; simpl; try discriminate; intros _; eexists; reflexivity.
  - intros [s ->]; reflexivity.
Qed.

Lemma isBoolean_spec (v : value) : isBoolean v = true <-> a_boolean v.
Proof.
  split.
  - destruct v; simpl; try discriminate; intros _; eexists; reflexivity.
  - intros [s ->]; reflexivity.
Qed.

Lemma isNumber_spec (v : value) : isNumber v = true <-> finite_number v.
Proof.
  split.
  - destruct v; simpl; try discriminate; intros H; eexists; split; eauto.
  - intros [x [-> H]]; exact H.
Qed.

Lemma isPositiveNumber_spec (v : value) :
  isPositiveNumber v = true <-> positive_number v.
Proof.
  unfold isPositiveNumber. split.
  - destruct v; simpl; try discriminate.
    rewrite andb_true_iff. intros [H1 H2]. exists x; auto.
  - intros [x [-> [H1 H2]]]. simpl. rewrite H1, H2. reflexivity.
Qed.

(** A property read that finds something was made on an object. *)
Lemma get_defined_isRecord (k : jsstring) (v : value) :
  get k v <> VUndefined -> isRecord v = true.
Proof.
  destruct v; simpl; intros H; try reflexivity; exfalso; apply H; reflexivity.
Qed.

Lemma positive_number_defined (v : value) : positive_number v -> v <> VUndefined.
Proof. intros [x [-> _]]; discriminate. Qed.

Lemma a_string_defined (v : value) : a_string v -> v <> VUndefined.
Proof. intros [x ->]; discriminate. Qed.

(** The settings guard accepts exactly the settings the specification
    calls valid. *)
Lemma isSettings_spec (s : value) : isSettings s = true <-> valid_settings s.
Proof.
  unfold isSettings, valid_settings.
  rewrite <- !isPositiveNumber_spec, <- !isString_spec, <- isBoolean_spec.
  destruct (isRecord s) eqn:R; simpl.
  - rewrite !andb_true_iff. tauto.
  - split; [discriminate|].
    intros [H _]. apply isPositiveNumber_spec, positive_number_defined in H.
    apply get_defined_isRecord in H. congruence.
Qed.

(** The poster guard accepts exactly the posters the specification calls
    valid. *)
Lemma isPoster_spec (p : value) : isPoster p = true <-> valid_poster p.
Proof.
  unfold isPoster, valid_poster.
  rewrite <- !isPositiveNumber_spec, <- !isString_spec, <- !isNumber_spec.
  destruct (isRecord p) eqn:R; simpl.
  - destruct (isString (get (js "id") p)); simpl; [|intuition congruence].
    destruct (isString (get (js "sizeId") p)); simpl; [|intuition congruence].
    destruct (isNumber (get (js "x") p)); simpl; [|intuition congruence].
    destruct (isNumber (get (js "y") p)); simpl; [|intuition congruence].
    destruct (isPositiveNumber (get (js "width") p)); simpl; [|intuition congruence].
    destruct (isPositiveNumber (get (js "height") p)); simpl; [|intuition congruence].
    destruct (isString (get (js "label") p)); simpl; [|intuition congruence].
    destruct (has_property (js "imageSrc") p); simpl.
    + destruct (get (js "imageSrc") p); simpl; intuition congruence.
    + intuition congruence.
  - split; [discriminate|].
    intros [H _]. apply isString_spec, a_string_defined in H.
    apply get_defined_isRecord in H. congruence.
Qed.

(* ================================================================== *)
(** * Properties of parseWallData *)
(* ================================================================== *)

Section Validator.
Context {host : HostNumbers}.

Lemma trimmed_falsy (text : jsstring) :
  negb (ToBoolean (VString (trim text))) = true <-> trim text = [].
Proof. simpl. destruct (trim text); simpl; split; congruence. Qed.

(** Every call of [parseWallData] is one of the runs of [run]. *)
Lemma parseWallData_run (text : jsstring) : run text (parseWallData text).
Proof.
  unfold parseWallData.
  destruct (negb (ToBoolean (VString (trim text)))) eqn:E.
  - apply run_empty, trimmed_falsy, E.
  - assert (T : trim text <> []).
    { intros H. apply trimmed_falsy in H. congruence. }
    destruct (JSON_parse (trim text)) as [root|] eqn:P.
    + destruct (isRecord root) eqn:R; simpl.
      * destruct (isSettings (get (js "settings") root)) eqn:S; simpl.
        -- destruct (get (js "posters") root) as [| | | | |elems|] eqn:A;
             try (eapply run_posters_not_array; eauto; rewrite A; discriminate).
           destruct (forallb isPoster elems) eqn:F; simpl.
           ++ eapply run_success; eauto.
           ++ eapply run_invalid_poster; eauto.
        -- eapply run_invalid_settings; eauto.
      * eapply run_invalid_root; eauto.
    + apply run_invalid_json; assumption.
Qed.

Lemma JSON_parse_empty : JSON_parse [] = None.
Proof. reflexivity. Qed.

Lemma parsed_text_nonempty (text : jsstring) (root : value) :
  JSON_parse (trim text) = Some root -> trim text <> [].
Proof. intros P E. rewrite E, JSON_parse_empty in P. discriminate. Qed.

End Validator.

(** Case analysis on the run of [parseWallData text], given that the trimmed
    text parses ([P]): the runs that contradict [P] are dismissed and the
    root of the others is identified with the one of [P]. *)
Ltac run_of_parsed text P :=
  let E := fresh "E" in
  let r := fresh "r" in
  let es := fresh "es" in
  let T := fresh "T" in
  let P' := fresh "P'" in
  let R := fresh "R'" in
  let S := fresh "S'" in
  let A := fresh "A'" in
  let F := fresh "F'" in
  destruct (parseWallData_run text) as [E|T P'|r T P' R|r T P' R S
                                        |r T P' R S A|r es T P' R S A F
                                        |r es T P' R S A F];
  [ exfalso; exact (parsed_text_nonempty _ _ P E)
  | exfalso; rewrite P in P'; discriminate
  | rewrite P in P'; inversion P'; subst r; clear P'
  | rewrite P in P'; inversion P'; subst r; clear P'
  | rewrite P in P'; inversion P'; subst r; clear P'
  | rewrite P in P'; inversion P'; subst r; clear P'
  | rewrite P in P'; inversion P'; subst r; clear P' ].

Section ValidatorProperties.
Context {host : HostNumbers}.

(** A root that is neither an object nor an array is reported as
    [invalid-root]. *)
Lemma primitive_root_invalid_root (text : jsstring) (root : value) :
  JSON_parse (trim text) = Some root ->
  isRecord root = false ->
  parseWallData text = failure invalid_root.
Proof.
  intros P R. run_of_parsed text P; congruence.
Qed.

(** An array root passes [isRecord]; it has no [settings] property, and the
    run stops at the settings stage. *)
Lemma array_root_invalid_settings (text : jsstring) (elems : list value) :
  JSON_parse (trim text) = Some (VArray elems) ->
  parseWallData text = failure invalid_settings.
Proof.
  intros P. run_of_parsed text P; try discriminate. reflexivity.
Qed.

(** C1. The specification has a text whose JSON value is an array reported
    as [invalid-root]. On the text of the empty array the validator reports
    [invalid-settings] instead: [isRecord] lets arrays through. *)
Theorem empty_array_text_reports_invalid_settings :
  parseWallData (js "[]") = failure invalid_settings.
Proof. reflexivity. Qed.

(** A text that parses is not empty after trimming, and the first two
    reasons of the list do not apply to it. *)
Lemma parsed_text_past_syntax (text : jsstring) (root : value) (e : ParseWallError) :
  JSON_parse (trim text) = Some root ->
  (priority e < 3)%nat -> ~ applies e text.
Proof.
  intros P L A. destruct e; cbn in L, A; try lia.
  - exact (parsed_text_nonempty _ _ P A).
  - congruence.
Qed.

(** A root that passes [isRecord] and is no array is a structured object. *)
Lemma record_but_array_structured (root : value) :
  isRecord root = true ->
  (forall elems, root <> VArray elems) ->
  structured_object root.
Proof.
  intros R N. destruct root; try discriminate R.
  - exfalso. exact (N _ eq_refl).
  - eexists. reflexivity.
Qed.

(** A root whose [settings] property passes [isSettings] is a structured
    object. *)
Lemma settings_holder_structured (root : value) :
  isSettings (get (js "settings") root) = true -> structured_object root.
Proof.
  intros S. destruct root; try discriminate S. eexists. reflexivity.
Qed.

(** An array of elements that do not all pass [isPoster] holds one that is
    no valid poster. *)
Lemma rejected_poster_found (elems : list value) :
  forallb isPoster elems = false ->
  exists p, In p elems /\ ~ valid_poster p.
Proof.
  induction elems as [|p elems IH]; [discriminate|]. cbn [forallb].
  destruct (isPoster p) eqn:V; cbn [andb].
  - intros F. destruct (IH F) as (q & I & N). exists q. split; [right; exact I|exact N].
  - intros _. exists p. split; [left; reflexivity|].
    intros H. apply isPoster_spec in H. congruence.
Qed.

(** No reason of the specification's list applies to an accepted text. *)
Lemma accepted_no_reason (text : jsstring) (e : ParseWallError) :
  error (parseWallData text) = None -> ~ applies e text.
Proof.
  intros H.
  destruct (parseWallData_run text) as [E|T P|root T P R|root T P R S
                                        |root T P R S A|root es T P R S A F
                                        |root es T P R S A F];
    try discriminate H.
  destruct e; cbn [applies].
  - exact T.
  - congruence.
  - intros (r & P' & N). rewrite P in P'. inversion P'; subst r.
    exact (N (settings_holder_structured _ S)).
  - intros (r & P' & N). rewrite P in P'. inversion P'; subst r.
    apply N, isSettings_spec, S.
  - intros (r & P' & [N|(elems & p & A' & I & N)]);
      rewrite P in P'; inversion P'; subst r.
    + exact (N _ A).
    + rewrite A in A'. inversion A'; subst elems.
      rewrite forallb_forall in F. apply N, isPoster_spec, F, I.
Qed.

(** Unless the root is an array, the reason the validator reports applies
    to the text, and none before it in the priority order does. *)
Lemma reported_reason_is_first (text : jsstring) (e : ParseWallError) :
  (forall elems, JSON_parse (trim text) <> Some (VArray elems)) ->
  error (parseWallData text) = Some e -> first_applicable e text.
Proof.
  intros NA H.
  destruct (parseWallData_run text) as [E|T P|root T P R|root T P R S
                                        |root T P R S A|root es T P R S A F
                                        |root es T P R S A F];
    cbn [failure error] in H; inversion H; subst e; clear H.
  - split; [exact E|]. intros e' L. destruct e'; cbn in L; lia.
  - split; [exact P|]. intros e' L A. destruct e'; cbn in L, A; try lia.
    exact (T A).
  - split.
    + exists root. split; [exact P|]. intros [props X]. subst root. discriminate R.
    + intros e' L. exact (parsed_text_past_syntax _ _ _ P L).
  - assert (O : structured_object root).
    { apply record_but_array_structured; [exact R|].
      intros elems X. subst root. exact (NA _ P). }
    split.
    + exists root. split; [exact P|]. intros V. apply isSettings_spec in V. congruence.
    + intros e' L A.
      destruct (Nat.lt_ge_cases (priority e') 3) as [L3|L3];
        [exact (parsed_text_past_syntax _ _ _ P L3 A)|].
      destruct e'; cbn in L, L3, A; try lia.
      destruct A as (r & P' & N). rewrite P in P'. inversion P'; subst r. exact (N O).
  - split.
    + exists root. split; [exact P|]. left. exact A.
    + intros e' L B.
      destruct (Nat.lt_ge_cases (priority e') 3) as [L3|L3];
        [exact (parsed_text_past_syntax _ _ _ P L3 B)|].
      destruct e'; cbn in L, L3, B; try lia;
        destruct B as (r & P' & N); rewrite P in P'; inversion P'; subst r.
      * exact (N (settings_holder_structured _ S)).
      * apply N, isSettings_spec, S.
  - split.
    + exists root. split; [exact P|]. right.
      destruct (rejected_poster_found _ F) as (p & I & N).
      exists es, p. split; [exact A|]. split; [exact I|exact N].
    + intros e' L B.
      destruct (Nat.lt_ge_cases (priority e') 3) as [L3|L3];
        [exact (parsed_text_past_syntax _ _ _ P L3 B)|].
      destruct e'; cbn in L, L3, B; try lia;
        destruct B as (r & P' & N); rewrite P in P'; inversion P'; subst r.
      * exact (N (settings_holder_structured _ S)).
      * apply N, isSettings_spec, S.
Qed.

(** One reason at most is the first that applies. *)
Lemma first_applicable_unique (text : jsstring) (e e' : ParseWallError) :
  first_applicable e text -> first_applicable e' text -> e = e'.
Proof.
  intros [A N] [A' N'].
  destruct (Nat.lt_total (priority e) (priority e')) as [L|[E|L]].
  - exfalso. exact (N' _ L A).
  - destruct e, e'; cbn in E; try discriminate E; reflexivity.
  - exfalso. exact (N _ L A').
Qed.

(** For an array root the first reason that applies is [invalid-root]. *)
Lemma array_root_first_applicable (text : jsstring) (elems : list value) :
  JSON_parse (trim text) = Some (VArray elems) ->
  first_applicable invalid_root text.
Proof.
  intros P. split.
  - exists (VArray elems). split; [exact P|]. intros [props X]. discriminate X.
  - intros e' L. exact (parsed_text_past_syntax _ _ _ P L).
Qed.

(** C2. The specification has the first applicable of the five reasons
    reported, in the order empty, invalid-json, invalid-root,
    invalid-settings, invalid-posters, where invalid-root applies to every
    parsed value that is not a non-null structured object, arrays included.
    The validator does so but for array roots:
    - on the text of the empty array, and on every text whose value is an
      array, it reports [invalid-settings], while the first reason that
      applies is [invalid-root], and [invalid-settings] is not the first;
    - on every other text the reason reported is exactly the first that
      applies, and none is reported exactly when none applies;
    - in particular an object root whose settings are not valid is reported
      as [invalid-settings], whatever its [posters] property holds. *)
Theorem reported_reason_first_applicable_but_for_arrays :
  (error (parseWallData (js "[]")) = Some invalid_settings /\
   first_applicable invalid_root (js "[]") /\
   ~ first_applicable invalid_settings (js "[]")) /\
  (forall text elems,
      JSON_parse (trim text) = Some (VArray elems) ->
      error (parseWallData text) = Some invalid_settings /\
      first_applicable invalid_root text /\
      ~ first_applicable invalid_settings text) /\
  (forall text,
      (forall elems, JSON_parse (trim text) <> Some (VArray elems)) ->
      (forall e, error (parseWallData text) = Some e <-> first_applicable e text) /\
      (error (parseWallData text) = None <-> forall e, ~ applies e text)) /\
  (forall text props,
      JSON_parse (trim text) = Some (VObject props) ->
      ~ valid_settings (get (js "settings") (VObject props)) ->
      parseWallData text = failure invalid_settings).
Proof.
  assert (Arrays : forall text elems,
             JSON_parse (trim text) = Some (VArray elems) ->
             error (parseWallData text) = Some invalid_settings /\
             first_applicable invalid_root text /\
             ~ first_applicable invalid_settings text).
  { intros text elems P.
    pose proof (array_root_first_applicable _ _ P) as [A N].
    split; [rewrite (array_root_invalid_settings _ _ P); reflexivity|].
    split; [split; assumption|].
    intros [_ N']. apply (N' invalid_root); [cbn; lia|exact A]. }
  split; [exact (Arrays (js "[]") [] eq_refl)|].
  split; [exact Arrays|].
  split.
  - intros text NA.
    assert (First : forall e,
               error (parseWallData text) = Some e <-> first_applicable e text).
    { intros e. split; [apply reported_reason_is_first, NA|].
      intros F. destruct (error (parseWallData text)) as [e'|] eqn:H.
      - f_equal. eapply first_applicable_unique; [|exact F].
        apply reported_reason_is_first; assumption.
      - exfalso. destruct F as [A _]. exact (accepted_no_reason _ _ H A). }
    split; [exact First|].
    split; [intros H e; exact (accepted_no_reason _ _ H)|].
    intros N. destruct (error (parseWallData text)) as [e|] eqn:H; [|reflexivity].
    exfalso. destruct (proj1 (First e) eq_refl) as [A _]. exact (N _ A).
  - intros text props P V.
    run_of_parsed text P; try reflexivity; try discriminate;
      exfalso; apply V, isSettings_spec; assumption.
Qed.

(** C3. For an object root, [invalid-settings] is reported exactly when the
    [settings] property is not a valid settings record (a required key
    missing or mistyped, a number not finite or not above zero), and then no
    document is returned: nothing is substituted for the bad field. *)
Theorem invalid_settings_exactly (text : jsstring) (props : list (jsstring * value)) :
  JSON_parse (trim text) = Some (VObject props) ->
  (error (parseWallData text) = Some invalid_settings <->
   ~ valid_settings (get (js "settings") (VObject props))) /\
  (~ valid_settings (get (js "settings") (VObject props)) ->
   data (parseWallData text) = None).
Proof.
  intros P.
  assert (Hcase :
    (isSettings (get (js "settings") (VObject props)) = false /\
     parseWallData text = failure invalid_settings) \/
    (isSettings (get (js "settings") (VObject props)) = true /\
     error (parseWallData text) <> Some invalid_settings)).
  { run_of_parsed text P; try discriminate.
    - left; split; [assumption|reflexivity].
    - right; split; [assumption|simpl; discriminate].
    - right; split; [assumption|simpl; discriminate].
    - right; split; [assumption|simpl; discriminate]. }
  destruct Hcase as [[S E]|[S E]].
  - rewrite E. unfold failure; cbn [error data]. split; [split|reflexivity].
    + intros _ V. apply isSettings_spec in V. congruence.
    + reflexivity.
  - split; [split|].
    + intros H; contradiction.
    + intros V. exfalso. apply V, isSettings_spec, S.
    + intros V. exfalso. apply V, isSettings_spec, S.
Qed.

(** C6. In every result exactly one of [data] and [error] is null. *)
Theorem exactly_one_of_data_and_error (text : jsstring) :
  (data (parseWallData text) = None /\ error (parseWallData text) <> None) \/
  (data (parseWallData text) <> None /\ error (parseWallData text) = None).
Proof.
  destruct (parseWallData_run text); simpl;
    ((left; split; [reflexivity|discriminate])
     || (right; split; [discriminate|reflexivity])).
Qed.

(** C7. A returned document carries the value of the root's [settings]
    property and the elements of its [posters] array, in order; and an
    object root with valid settings and an empty [posters] array is
    accepted, with no posters and the settings as they were. *)
Theorem success_returns_the_parsed_fields (text : jsstring) :
  (forall d,
      data (parseWallData text) = Some d ->
      error (parseWallData text) = None /\
      exists root,
        JSON_parse (trim text) = Some root /\
        settings d = get (js "settings") root /\
        VArray (posters d) = get (js "posters") root) /\
  (forall root,
      JSON_parse (trim text) = Some root ->
      isRecord root = true ->
      isSettings (get (js "settings") root) = true ->
      get (js "posters") root = VArray [] ->
      parseWallData text =
      {| data := Some {| settings := get (js "settings") root; posters := [] |};
         error := None |}).
Proof.
  split.
  - intros d D.
    destruct (parseWallData_run text) as [E|T P|root T P R|root T P R S
                                          |root T P R S A|root es T P R S A F
                                          |root es T P R S A F];
      simpl in D; try discriminate.
    inversion D; subst d; simpl. split; [reflexivity|].
    exists root. auto.
  - intros root P R S A. run_of_parsed text P; try congruence.
    rewrite A in A'. inversion A'; subst es. discriminate.
Qed.

(** C9, as amended. Every poster of a returned document has a string
    identifier; the identifiers need not differ from each other. *)
Theorem accepted_posters_have_string_ids (text : jsstring) (d : WallData) :
  data (parseWallData text) = Some d ->
  Forall a_string (poster_ids d).
Proof.
  intros D.
  destruct (parseWallData_run text) as [E|T P|root T P R|root T P R S
                                        |root T P R S A|root es T P R S A F
                                        |root es T P R S A F];
    simpl in D; try discriminate.
  inversion D; subst d. unfold poster_ids; simpl.
  apply Forall_map. rewrite forallb_forall in F. apply Forall_forall.
  intros p Hp. apply F, isPoster_spec in Hp. apply Hp.
Qed.

End ValidatorProperties.

(** C4. A poster passes the guard exactly when its id, sizeId and label are
    strings, its x and y are finite numbers (of any sign and size), its
    width and height are finite numbers above zero, and its image field is
    absent, [undefined] or a string. A poster without the image field and
    one holding [undefined] there fare the same under the guard, read the
    same, and start no image load; one holding [null] there is refused. *)
Theorem poster_guard_exactly :
  (forall p, isPoster p = true <-> valid_poster p) /\
  (forall id sizeId x y width height label,
      let bare := poster_object id sizeId x y width height label None in
      let marked := poster_object id sizeId x y width height label (Some VUndefined) in
      isPoster bare = isPoster marked /\
      get (js "imageSrc") bare = get (js "imageSrc") marked /\
      loadPosterImages [bare] = loadPosterImages [marked]) /\
  (forall id sizeId x y width height label,
      isPoster (poster_object id sizeId x y width height label (Some VNull)) = false).
Proof.
  split; [exact isPoster_spec|split].
  - intros. repeat split; reflexivity.
  - intros. unfold isPoster. cbn.
    repeat match goal with
           | |- context [if ?b then _ else _] => destruct b; try reflexivity
           end.
Qed.

(** C8, as amended. Accepted settings have finite numeric fields above zero
    and color fields that are strings, which may be empty. *)
Theorem accepted_settings_invariant (s : value) :
  isSettings s = true ->
  positive_number (get (js "wallWidth") s) /\
  positive_number (get (js "wallHeight") s) /\
  positive_number (get (js "gridStep") s) /\
  a_string (get (js "background") s) /\
  a_string (get (js "gridColor") s).
Proof.
  intros H. apply isSettings_spec in H. unfold valid_settings in H. tauto.
Qed.

(* ================================================================== *)
(** * Properties of the bulk image loader *)
(* ================================================================== *)

(** What [isPoster] lets through has an image field of the declared type. *)
Lemma valid_poster_image_typed (poster : value) :
  valid_poster poster -> image_field_typed poster.
Proof.
  intros (_ & _ & _ & _ & _ & _ & _ & [H|[H|H]]); [left|left|right]; auto.
  destruct poster; try reflexivity. simpl in *.
  destruct (lookup (js "imageSrc") props); [discriminate|reflexivity].
Qed.

(** For an image field of the declared type, truthy means a non-empty
    string. *)
Lemma truthy_imageSrc_has_image (poster : value) :
  image_field_typed poster ->
  ToBoolean (get (js "imageSrc") poster) = has_image poster.
Proof.
  unfold has_image. intros [H|[s H]]; rewrite H; [reflexivity|].
  destruct s; reflexivity.
Qed.

Lemma loadPosterImages_filter (posters : list value) :
  Forall image_field_typed posters ->
  loadPosterImages posters = List.map load_of (List.filter has_image posters).
Proof.
  induction 1 as [|p ps V _ IH]; [reflexivity|].
  unfold loadPosterImages in *. simpl. rewrite IH.
  rewrite (truthy_imageSrc_has_image p V).
  destruct (has_image p); reflexivity.
Qed.

Section LoaderInvariant.
Variable Image : Type.
Variable posters : list value.

(** What stays true while loads settle: a pending load was started by
    [loadPosterImages], every callback call answers one of the started
    loads, and no load is answered twice. *)
Lemma reachable_invariant (s : loader_state Image) :
  reachable Image posters s ->
  (forall l, In l (pending s) -> In l (loadPosterImages posters)) /\
  (forall c, In c (calls s) ->
        exists l, In l (loadPosterImages posters) /\ load_id l = fst c) /\
  (List.length (calls s) + List.length (pending s)
    <= List.length (loadPosterImages posters))%nat.
Proof.
  induction 1 as [|s s' _ [Hp [Hc Hn]] St].
  - simpl. split; [auto|split; [intros c []|lia]].
  - inversion St; subst; simpl in *.
    + split; [|split].
      * intros l0 H0. apply Hp. rewrite in_app_iff in *. simpl. tauto.
      * intros c H0. rewrite in_app_iff in H0. destruct H0 as [H0|[H0|[]]].
        -- apply Hc, H0.
        -- subst c. exists l. split; [|reflexivity].
           apply Hp. rewrite in_app_iff. simpl. tauto.
      * rewrite !length_app in *. simpl in *. lia.
    + split; [|split].
      * intros l0 H0. apply Hp. rewrite in_app_iff in *. simpl. tauto.
      * exact Hc.
      * rewrite !length_app in *. simpl in *. lia.
Qed.

End LoaderInvariant.

(** C10. Given posters whose image field has its declared type (as those of
    an accepted document have), [loadPosterImages] starts a load exactly for
    the posters whose [imageSrc] is a non-empty string, in order; however
    the loads settle, every call of the callback carries the id of such a
    poster and there are no more calls than such posters; and a poster whose
    [imageSrc] is the empty string passes the guard as the bare poster does
    and starts no load. *)
Theorem loads_only_for_posters_with_image (Image : Type) (posters : list value) :
  Forall image_field_typed posters ->
  loadPosterImages posters = List.map load_of (List.filter has_image posters) /\
  (forall s, reachable Image posters s ->
     (forall id image, In (id, image) (calls s) ->
        exists poster, In poster posters /\ get (js "id") poster = id /\
                       a_nonempty_string (get (js "imageSrc") poster)) /\
     (List.length (calls s) <= List.length (List.filter has_image posters))%nat) /\
  (forall id sizeId x y width height label,
     let hollow := poster_object id sizeId x y width height label (Some (VString [])) in
     let bare := poster_object id sizeId x y width height label None in
     isPoster hollow = isPoster bare /\
     loadPosterImages [hollow] = [] /\ loadPosterImages [bare] = []).
Proof.
  intros V. pose proof (loadPosterImages_filter posters V) as L.
  split; [exact L|split].
  - intros s R. destruct (reachable_invariant Image posters s R) as (_ & Hc & Hn).
    split.
    + intros id image Hin. destruct (Hc _ Hin) as (l & Hl & Hid). simpl in Hid.
      rewrite L in Hl. apply in_map_iff in Hl. destruct Hl as (p & Hp & Hf).
      apply filter_In in Hf. destruct Hf as [Hin' Hi].
      exists p. split; [exact Hin'|]. split.
      * subst l. exact Hid.
      * unfold has_image in Hi.
        destruct (get (js "imageSrc") p) as [| | | |[|c s0]| |]; try discriminate.
        exists c, s0. reflexivity.
    + rewrite L, length_map in Hn. lia.
  - intros. repeat split; reflexivity.
Qed.

(* ================================================================== *)
(** * The JSON reader: progress, totality, independence of the fuel *)
(* ================================================================== *)

Lemma skip_ws_length (s : jsstring) : (List.length (skip_ws s) <= List.length s)%nat.
Proof.
  induction s as [|c s IH]; simpl; [lia|].
  destruct (is_json_ws c); simpl; lia.
Qed.

Lemma cons_char_Ok (c : code_unit) (p : parsed jsstring) (k r : jsstring) :
  cons_char c p = Ok k r -> exists k', p = Ok k' r /\ k = c :: k'.
Proof.
  destruct p; simpl; try discriminate.
  intros H; inversion H; subst. eauto.
Qed.

Lemma parse_chars_length (s k r : jsstring) :
  parse_chars s = Ok k r -> (List.length r < List.length s)%nat.
Proof.
  remember (List.length s) as n eqn:Hn.
  revert s k r Hn. induction n as [n IH] using lt_wf_ind.
  intros [|c t] k r Hn; simpl; [discriminate|].
  destruct (c =? QUOTE).
  { intros H; inversion H; subst; simpl; lia. }
  destruct (c =? BACKSLASH).
  - destruct t as [|e t']; [discriminate|].
    destruct (e =? 117).
    + destruct t' as [|h1 [|h2 [|h3 [|h4 t'']]]]; try discriminate.
      destruct (hex4 h1 h2 h3 h4); [|discriminate].
      intros H. apply cons_char_Ok in H. destruct H as (k' & H & _).
      specialize (IH (List.length t'') ltac:(subst n; simpl; lia) _ _ _ eq_refl H).
      subst n; simpl; lia.
    + destruct (simple_escape e); [|discriminate].
      intros H. apply cons_char_Ok in H. destruct H as (k' & H & _).
      specialize (IH (List.length t') ltac:(subst n; simpl; lia) _ _ _ eq_refl H).
      subst n; simpl; lia.
  - destruct (c <? 32); [discriminate|].
    intros H. apply cons_char_Ok in H. destruct H as (k' & H & _).
    specialize (IH (List.length t) ltac:(subst n; simpl; lia) _ _ _ eq_refl H).
    subst n; simpl; lia.
Qed.

Lemma take_digits_split (s ds r : jsstring) :
  take_digits s = (ds, r) -> s = ds ++ r.
Proof.
  revert ds r. induction s as [|c s IH]; simpl; intros ds r H.
  - inversion H; reflexivity.
  - destruct (is_digit c).
    + destruct (take_digits s) as [ds' r'] eqn:E. inversion H; subst.
      simpl. f_equal. apply IH. reflexivity.
    + inversion H; reflexivity.
Qed.

Lemma scan_sign_split (s l r : jsstring) : scan_sign s = (l, r) -> s = l ++ r.
Proof.
  destruct s as [|c s]; simpl.
  - intros H; inversion H; reflexivity.
  - destruct (c =? MINUS); intros H; inversion H; reflexivity.
Qed.

Lemma scan_int_split (s l r : jsstring) :
  scan_int s = Some (l, r) -> s = l ++ r /\ l <> [].
Proof.
  destruct s as [|c s]; simpl; [discriminate|].
  destruct (c =? ZERO).
  - intros H; inversion H; split; [reflexivity|discriminate].
  - destruct (is_digit c); [|discriminate].
    destruct (take_digits s) as [ds r'] eqn:E.
    intros H; inversion H; subst. split; [|discriminate].
    simpl. f_equal. apply take_digits_split, E.
Qed.

Lemma scan_frac_split (s l r : jsstring) : scan_frac s = Some (l, r) -> s = l ++ r.
Proof.
  destruct s as [|c s]; simpl.
  - intros H; inversion H; reflexivity.
  - destruct (c =? DOT).
    + destruct (take_digits s) as [[|d ds] r'] eqn:E; [discriminate|].
      intros H; inversion H; subst. simpl. f_equal.
      apply take_digits_split in E. exact E.
    + intros H; inversion H; reflexivity.
Qed.

Lemma scan_exp_split (s l r : jsstring) : scan_exp s = Some (l, r) -> s = l ++ r.
Proof.
  destruct s as [|c s]; simpl.
  - intros H; inversion H; reflexivity.
  - destruct ((c =? 101) || (c =? 69)).
    + destruct s as [|d t].
      * simpl. discriminate.
      * destruct ((d =? PLUS) || (d =? MINUS)).
        -- destruct (take_digits t) as [[|x ds] r'] eqn:E; [discriminate|].
           intros H; inversion H; subst. simpl. do 2 f_equal.
           apply take_digits_split in E. exact E.
        -- destruct (take_digits (d :: t)) as [[|x ds] r'] eqn:E; [discriminate|].
           intros H; inversion H; subst. simpl. f_equal.
           apply take_digits_split in E. exact E.
    + intros H; inversion H; reflexivity.
Qed.

(** A number token is the text it was read from, less what follows it, and
    is not empty. *)
Lemma scan_number_split (s l r : jsstring) :
  scan_number s = Some (l, r) -> s = l ++ r /\ l <> [].
Proof.
  unfold scan_number.
  destruct (scan_sign s) as [sg s1] eqn:E1.
  destruct (scan_int s1) as [[i s2]|] eqn:E2; [|discriminate].
  destruct (scan_frac s2) as [[f s3]|] eqn:E3; [|discriminate].
  destruct (scan_exp s3) as [[e s4]|] eqn:E4; [|discriminate].
  intros H; inversion H; subst.
  apply scan_sign_split in E1. apply scan_int_split in E2. destruct E2 as [E2 Hi].
  apply scan_frac_split in E3. apply scan_exp_split in E4. subst.
  split.
  - rewrite <- !app_assoc. reflexivity.
  - destruct sg; simpl; [|discriminate]. destruct i; [congruence|discriminate].
Qed.

Lemma expect_split (word : jsstring) (v v' : value) (s r : jsstring) :
  expect word v s = Ok v' r -> s = word ++ r /\ v' = v.
Proof.
  revert s. induction word as [|w word IH]; simpl; intros s H.
  - inversion H; auto.
  - destruct s as [|c s]; [discriminate|].
    destruct (N.eqb_spec c w); [|discriminate]. subst.
    apply IH in H. destruct H as [-> ->]. auto.
Qed.

Lemma expect_not_OutOfFuel (word : jsstring) (v : value) (s : jsstring) :
  expect word v s <> OutOfFuel.
Proof.
  revert s. induction word as [|w word IH]; simpl; intros s; [discriminate|].
  destruct s as [|c s]; [discriminate|]. destruct (c =? w); [apply IH|discriminate].
Qed.

Lemma parse_chars_not_OutOfFuel (s : jsstring) : parse_chars s <> OutOfFuel.
Proof.
  remember (List.length s) as n eqn:Hn.
  revert s Hn. induction n as [n IH] using lt_wf_ind.
  assert (C : forall c p, p <> OutOfFuel -> cons_char c p <> OutOfFuel).
  { intros c [] H; simpl; congruence. }
  intros [|c t] Hn; simpl; [discriminate|].
  destruct (c =? QUOTE); [discriminate|].
  destruct (c =? BACKSLASH).
  - destruct t as [|e t']; [discriminate|].
    destruct (e =? 117).
    + destruct t' as [|h1 [|h2 [|h3 [|h4 t'']]]]; try discriminate.
      destruct (hex4 h1 h2 h3 h4); [|discriminate].
      apply C. apply (IH (List.length t'')); [subst n; simpl; lia|reflexivity].
    + destruct (simple_escape e); [|discriminate].
      apply C. apply (IH (List.length t')); [subst n; simpl; lia|reflexivity].
  - destruct (c <? 32); [discriminate|].
    apply C. apply (IH (List.length t)); [subst n; simpl; lia|reflexivity].
Qed.

Lemma nonempty_length (A : Type) (l : list A) : l <> [] -> (0 < List.length l)%nat.
Proof. destruct l; [congruence|simpl; lia]. Qed.

Section Reader.
Context {host : HostNumbers}.

(** Splits the goal along the decisions the reader took to return [Ok]. *)
Ltac reader_cases H :=
  repeat match type of H with
         | match ?x with _ => _ end = _ => destruct x eqn:?; try discriminate H
         | (if ?b then _ else _) = _ => destruct b eqn:?; try discriminate H
         end.

(** Collects what is known about the lengths of the texts in the context. *)
Ltac reader_lengths :=
  repeat match goal with
         | H : skip_ws ?a = _ |- _ =>
             let L := fresh "L" in
             pose proof (skip_ws_length a) as L; rewrite H in L; revert H
         | H : parse_chars _ = Ok _ _ |- _ =>
             apply parse_chars_length in H
         | H : scan_number _ = Some _ |- _ =>
             let E := fresh "E" in
             apply scan_number_split in H; destruct H as [H E];
             apply (f_equal (@List.length _)) in H; rewrite length_app in H;
             apply nonempty_length in E
         | H : expect _ _ _ = Ok _ _ |- _ =>
             apply expect_split in H; destruct H as [H _];
             apply (f_equal (@List.length _)) in H; rewrite length_app in H
         end;
  intros; simpl in *.

Lemma reader_progress (fuel : nat) :
  (forall s v r, parse_value fuel s = Ok v r ->
                 (List.length r < List.length s)%nat) /\
  (forall acc s v r, parse_elements fuel acc s = Ok v r ->
                     (List.length r < List.length s)%nat) /\
  (forall acc s v r, parse_members fuel acc s = Ok v r ->
                     (List.length r < List.length s)%nat).
Proof.
  induction fuel as [|fuel (IHv & IHe & IHm)];
    [repeat split; intros; discriminate|].
  repeat split.
  - intros s v r H. simpl in H. reader_cases H;
      first [apply IHe in H | apply IHm in H | inversion H; subst; clear H];
      reader_lengths; lia.
  - intros acc s v r H. simpl in H.
    destruct (parse_value fuel s) as [v0 r0| |] eqn:V; try discriminate.
    apply IHv in V. reader_cases H;
      first [apply IHe in H | inversion H; subst; clear H];
      reader_lengths; lia.
  - intros acc s v r H. simpl in H.
    destruct (skip_ws s) as [|q r0] eqn:W; [discriminate|].
    destruct (q =? QUOTE); [|discriminate].
    destruct (parse_chars r0) as [k r1| |] eqn:K; try discriminate.
    destruct (skip_ws r1) as [|c1 r2] eqn:W1; [discriminate|].
    destruct (c1 =? COLON); [|discriminate].
    destruct (parse_value fuel r2) as [v0 r3| |] eqn:V; try discriminate.
    apply IHv in V. reader_cases H;
      first [apply IHm in H | inversion H; subst; clear H];
      reader_lengths; lia.
Qed.

Lemma value_progress (fuel : nat) (s : jsstring) (v : value) (r : jsstring) :
  parse_value fuel s = Ok v r -> (List.length r < List.length s)%nat.
Proof. apply reader_progress. Qed.

(** With fuel above twice the length of the text, the reader does not run
    out of it. *)
Lemma reader_enough_fuel (fuel : nat) :
  (forall s, (2 * List.length s + 1 <= fuel)%nat ->
             parse_value fuel s <> OutOfFuel) /\
  (forall acc s, (2 * List.length s + 2 <= fuel)%nat ->
                 parse_elements fuel acc s <> OutOfFuel) /\
  (forall acc s, (2 * List.length s + 2 <= fuel)%nat ->
                 parse_members fuel acc s <> OutOfFuel).
Proof.
  induction fuel as [|fuel (IHv & IHe & IHm)]; [repeat split; intros; lia|].
  repeat split.
  - intros s F H. simpl in H. reader_cases H;
      try (eapply parse_chars_not_OutOfFuel; eassumption);
      try (eapply expect_not_OutOfFuel; eassumption);
      first [apply IHe in H | apply IHm in H]; try exact H;
      reader_lengths; lia.
  - intros acc s F H. simpl in H.
    destruct (parse_value fuel s) as [v0 r0| |] eqn:V; try discriminate.
    + apply value_progress in V. reader_cases H.
      apply IHe in H; [exact H|]. reader_lengths; lia.
    + apply IHv in V; [exact V|lia].
  - intros acc s F H. simpl in H.
    destruct (skip_ws s) as [|q r0] eqn:W; [discriminate|].
    destruct (q =? QUOTE); [|discriminate].
    destruct (parse_chars r0) as [k r1| |] eqn:K; try discriminate.
    + destruct (skip_ws r1) as [|c1 r2] eqn:W1; [discriminate|].
      destruct (c1 =? COLON); [|discriminate].
      destruct (parse_value fuel r2) as [v0 r3| |] eqn:V; try discriminate.
      * apply value_progress in V. reader_cases H.
        apply IHm in H; [exact H|]. reader_lengths; lia.
      * apply IHv in V; [exact V|]. reader_lengths; lia.
    + eapply parse_chars_not_OutOfFuel; eassumption.
Qed.

(** The reader of [JSON_parse] always finishes: a text is rejected only for
    its syntax. *)
Lemma parse_value_enough_fuel (s : jsstring) :
  parse_value (2 * List.length s + 1) s <> OutOfFuel.
Proof. apply reader_enough_fuel. lia. Qed.

(** More fuel does not change a result. *)
Lemma reader_fuel_step (fuel : nat) :
  (forall s, settled (parse_value fuel s) (parse_value (S fuel) s)) /\
  (forall acc s, settled (parse_elements fuel acc s) (parse_elements (S fuel) acc s)) /\
  (forall acc s, settled (parse_members fuel acc s) (parse_members (S fuel) acc s)).
Proof.
  induction fuel as [|fuel (IHv & IHe & IHm)];
    [repeat split; intros; left; reflexivity|].
  repeat split.
  - intros s. remember (S fuel) as fuel' eqn:F.
    rewrite F at 1. simpl. subst fuel'.
    destruct (skip_ws s) as [|c r]; [right; reflexivity|].
    destruct (c =? LBRACE).
    { destruct (skip_ws r) as [|c' r']; [right; reflexivity|].
      destruct (c' =? RBRACE); [right; reflexivity|]. apply IHm. }
    destruct (c =? LBRACKET).
    { destruct (skip_ws r) as [|c' r']; [right; reflexivity|].
      destruct (c' =? RBRACKET); [right; reflexivity|]. apply IHe. }
    right; reflexivity.
  - intros acc s. remember (S fuel) as fuel' eqn:F.
    rewrite F at 1. simpl. subst fuel'.
    destruct (IHv s) as [H|H]; rewrite H; [left; reflexivity|].
    destruct (parse_value (S fuel) s) as [v r| |]; try (right; reflexivity).
    destruct (skip_ws r) as [|c r']; [right; reflexivity|].
    destruct (c =? COMMA); [apply IHe|right; reflexivity].
  - intros acc s. remember (S fuel) as fuel' eqn:F.
    rewrite F at 1. simpl. subst fuel'.
    destruct (skip_ws s) as [|q r0]; [right; reflexivity|].
    destruct (q =? QUOTE); [|right; reflexivity].
    destruct (parse_chars r0) as [k r1| |]; try (right; reflexivity).
    destruct (skip_ws r1) as [|c1 r2]; [right; reflexivity|].
    destruct (c1 =? COLON); [|right; reflexivity].
    destruct (IHv r2) as [H|H]; rewrite H; [left; reflexivity|].
    destruct (parse_value (S fuel) r2) as [v r3| |]; try (right; reflexivity).
    destruct (skip_ws r3) as [|c3 r4]; [right; reflexivity|].
    destruct (c3 =? COMMA); [apply IHm|right; reflexivity].
Qed.

(** A text that [JSON_parse] rejects has a syntax error, or text left after
    its value. *)
Lemma JSON_parse_rejects_syntax (text : jsstring) :
  JSON_parse text = None ->
  parse_value (2 * List.length text + 1) text = SyntaxError \/
  exists v c rest rest',
    parse_value (2 * List.length text + 1) text = Ok v rest /\
    skip_ws rest = c :: rest'.
Proof.
  unfold JSON_parse. pose proof (parse_value_enough_fuel text) as T.
  destruct (parse_value (2 * List.length text + 1) text) as [v rest| |];
    [|left; reflexivity|congruence].
  destruct (skip_ws rest) as [|c rest'] eqn:W; [discriminate|].
  intros _. right. exists v, c, rest, rest'. auto.
Qed.

Lemma value_fuel_mono (f f' : nat) (s : jsstring) :
  (f <= f')%nat -> settled (parse_value f s) (parse_value f' s).
Proof.
  induction 1 as [|f' _ IH]; [right; reflexivity|].
  destruct IH as [IH|IH]; [left; exact IH|].
  destruct (proj1 (reader_fuel_step f') s) as [H|H].
  - left. congruence.
  - right. congruence.
Qed.

(** Any fuel that suffices yields the result of [JSON_parse]'s own. *)
Lemma value_fuel_irrelevant (f : nat) (s : jsstring) (v : value) (r : jsstring) :
  parse_value f s = Ok v r ->
  parse_value (2 * List.length s + 1) s = Ok v r.
Proof.
  intros H. pose proof (parse_value_enough_fuel s) as T.
  destruct (Nat.le_ge_cases f (2 * List.length s + 1)) as [L|L];
    destruct (value_fuel_mono _ _ s L) as [M|M]; congruence.
Qed.

End Reader.

(* ================================================================== *)
(** * Reading back what the export helper wrote *)
(* ================================================================== *)

(** ** Strings *)

Lemma hex_digit_hex_char (n : N) : n < 16 -> hex_digit (hex_char n) = Some n.
Proof.
  intros H. unfold hex_char, hex_digit, is_digit.
  destruct (N.ltb_spec n 10) as [Small|Big].
  - replace (48 <=? n + 48) with true by (symmetry; apply N.leb_le; lia).
    replace (n + 48 <=? 57) with true by (symmetry; apply N.leb_le; lia).
    cbn [andb]. f_equal. lia.
  - replace (n + 87 <=? 57) with false by (symmetry; apply N.leb_gt; lia).
    rewrite andb_false_r.
    replace (97 <=? n + 87) with true by (symmetry; apply N.leb_le; lia).
    replace (n + 87 <=? 102) with true by (symmetry; apply N.leb_le; lia).
    cbn [andb]. f_equal. lia.
Qed.

Lemma hex4_unicode_escape (c : code_unit) (tail : jsstring) :
  c < 65536 ->
  parse_chars (unicode_escape c ++ tail) = cons_char c (parse_chars tail).
Proof.
  intros H. unfold unicode_escape.
  change (parse_chars ([BACKSLASH; 117; hex_char (c / 4096 mod 16);
                        hex_char (c / 256 mod 16); hex_char (c / 16 mod 16);
                        hex_char (c mod 16)] ++ tail))
    with (match hex4 (hex_char (c / 4096 mod 16)) (hex_char (c / 256 mod 16))
                     (hex_char (c / 16 mod 16)) (hex_char (c mod 16)) with
          | Some u => cons_char u (parse_chars tail)
          | None => SyntaxError
          end).
  unfold hex4.
  rewrite !hex_digit_hex_char by (apply N.mod_lt; discriminate).
  replace (((c / 4096 mod 16 * 16 + c / 256 mod 16) * 16 + c / 16 mod 16) * 16
           + c mod 16) with c; [reflexivity|].
  pose proof (N.div_mod c 16 ltac:(discriminate)).
  pose proof (N.div_mod (c / 16) 16 ltac:(discriminate)).
  pose proof (N.div_mod (c / 16 / 16) 16 ltac:(discriminate)).
  pose proof (N.mod_lt c 16 ltac:(discriminate)).
  pose proof (N.mod_lt (c / 16) 16 ltac:(discriminate)).
  pose proof (N.mod_lt (c / 16 / 16) 16 ltac:(discriminate)).
  assert (D1 : c / 256 = c / 16 / 16) by (rewrite N.Div0.div_div; reflexivity).
  assert (D2 : c / 4096 = c / 16 / 16 / 16) by (rewrite !N.Div0.div_div; reflexivity).
  assert (S : c / 16 / 16 / 16 < 16).
  { rewrite !N.Div0.div_div. apply N.Div0.div_lt_upper_bound. simpl. exact H. }
  rewrite D1, D2, (N.mod_small _ _ S). lia.
Qed.

Lemma parse_chars_plain (c : code_unit) (tail : jsstring) :
  (c =? QUOTE) = false -> (c =? BACKSLASH) = false -> (c <? 32) = false ->
  parse_chars (c :: tail) = cons_char c (parse_chars tail).
Proof. intros H1 H2 H3. simpl. rewrite H1, H2, H3. reflexivity. Qed.

Lemma parse_chars_quote_unit (c : code_unit) (tail : jsstring) :
  parse_chars (quote_unit c ++ tail) = cons_char c (parse_chars tail).
Proof.
  unfold quote_unit.
  destruct (N.eqb_spec c 8); [subst; reflexivity|].
  destruct (N.eqb_spec c 9); [subst; reflexivity|].
  destruct (N.eqb_spec c 10); [subst; reflexivity|].
  destruct (N.eqb_spec c 12); [subst; reflexivity|].
  destruct (N.eqb_spec c 13); [subst; reflexivity|].
  destruct (N.eqb_spec c QUOTE); [subst; reflexivity|].
  destruct (N.eqb_spec c BACKSLASH); [subst; reflexivity|].
  destruct ((c <? 32) || is_high_surrogate c || is_low_surrogate c) eqn:E.
  - apply hex4_unicode_escape.
    unfold is_high_surrogate, is_low_surrogate in E.
    rewrite !orb_true_iff, !andb_true_iff, N.ltb_lt, !N.leb_le in E. lia.
  - rewrite !orb_false_iff in E. destruct E as [[E _] _].
    apply parse_chars_plain; [apply N.eqb_neq; assumption ..|exact E].
Qed.

Lemma surrogate_plain (c : code_unit) (tail : jsstring) :
  is_high_surrogate c || is_low_surrogate c = true ->
  parse_chars (c :: tail) = cons_char c (parse_chars tail).
Proof.
  unfold is_high_surrogate, is_low_surrogate.
  rewrite orb_true_iff, !andb_true_iff, !N.leb_le. intros H.
  apply parse_chars_plain; [apply N.eqb_neq| apply N.eqb_neq | apply N.ltb_ge];
    unfold QUOTE, BACKSLASH; lia.
Qed.

Lemma quote_chars_pair (c d : code_unit) (t : jsstring) :
  quote_chars (c :: d :: t) =
  if is_high_surrogate c && is_low_surrogate d then c :: d :: quote_chars t
  else quote_unit c ++ quote_chars (d :: t).
Proof. reflexivity. Qed.

(** The reader recovers a string from its quoted form. *)
Lemma parse_chars_quote_chars (s rest : jsstring) :
  parse_chars (quote_chars s ++ QUOTE :: rest) = Ok s rest.
Proof.
  remember (List.length s) as n eqn:Hn.
  revert s Hn. induction n as [n IH] using lt_wf_ind.
  intros [|c [|d t]] Hn.
  - reflexivity.
  - simpl quote_chars. rewrite parse_chars_quote_unit. reflexivity.
  - rewrite quote_chars_pair.
    destruct (is_high_surrogate c && is_low_surrogate d) eqn:P.
    + apply andb_true_iff in P. destruct P as [Pc Pd].
      cbn [app]. rewrite (surrogate_plain c) by (rewrite Pc; reflexivity).
      rewrite (surrogate_plain d) by (rewrite Pd; apply orb_true_r).
      rewrite (IH (List.length t)); [reflexivity| subst n; simpl; lia | reflexivity].
    + rewrite <- app_assoc, parse_chars_quote_unit.
      rewrite (IH (List.length (d :: t))); [reflexivity| subst n; simpl; lia | reflexivity].
Qed.

(** ** Numbers *)

Lemma take_digits_end (rest : jsstring) :
  ends_number rest = true -> take_digits rest = ([], rest).
Proof.
  destruct rest as [|c rest]; [reflexivity|]. simpl.
  rewrite negb_true_iff, !orb_false_iff. intros [[[H _] _] _]. rewrite H. reflexivity.
Qed.

Lemma take_digits_app (s ds r rest : jsstring) :
  take_digits s = (ds, r) -> ends_number rest = true ->
  take_digits (s ++ rest) = (ds, r ++ rest).
Proof.
  revert ds r. induction s as [|c s IH]; intros ds r H E.
  - inversion H; subst. apply take_digits_end, E.
  - simpl in *. destruct (is_digit c).
    + destruct (take_digits s) as [ds' r'] eqn:T. inversion H; subst.
      rewrite (IH ds' r eq_refl E). reflexivity.
    + inversion H; subst. reflexivity.
Qed.

Lemma scan_int_app (s l r rest : jsstring) :
  scan_int s = Some (l, r) -> ends_number rest = true ->
  scan_int (s ++ rest) = Some (l, r ++ rest).
Proof.
  destruct s as [|c s]; simpl; [discriminate|].
  destruct (c =? ZERO).
  - intros H _; inversion H; reflexivity.
  - destruct (is_digit c); [|discriminate].
    destruct (take_digits s) as [ds r'] eqn:T. intros H E; inversion H; subst.
    rewrite (take_digits_app _ _ _ _ T E). reflexivity.
Qed.

Lemma scan_frac_app (s l r rest : jsstring) :
  scan_frac s = Some (l, r) -> ends_number rest = true ->
  scan_frac (s ++ rest) = Some (l, r ++ rest).
Proof.
  destruct s as [|c s]; simpl.
  - intros H E; inversion H; subst. destruct rest as [|x rest]; [reflexivity|].
    simpl in *. rewrite negb_true_iff, !orb_false_iff in E.
    destruct E as [[[_ E] _] _]. rewrite E. reflexivity.
  - destruct (c =? DOT).
    + destruct (take_digits s) as [[|d ds] r'] eqn:T; [discriminate|].
      intros H E; inversion H; subst.
      rewrite (take_digits_app _ _ _ _ T E). reflexivity.
    + intros H _; inversion H; reflexivity.
Qed.

Lemma scan_exp_app (s l r rest : jsstring) :
  scan_exp s = Some (l, r) -> ends_number rest = true ->
  scan_exp (s ++ rest) = Some (l, r ++ rest).
Proof.
  destruct s as [|c s]; simpl.
  - intros H E; inversion H; subst. destruct rest as [|x rest]; [reflexivity|].
    simpl in *. rewrite negb_true_iff, !orb_false_iff in E.
    destruct E as [[_ E1] E2]. rewrite E1, E2. reflexivity.
  - destruct ((c =? 101) || (c =? 69)).
    + destruct s as [|d t]; [simpl; discriminate|].
      cbn [app]. destruct ((d =? PLUS) || (d =? MINUS)).
      * destruct (take_digits t) as [[|x ds] r'] eqn:T; [discriminate|].
        intros H E; inversion H; subst.
        rewrite (take_digits_app _ _ _ _ T E). reflexivity.
      * destruct (take_digits (d :: t)) as [[|x ds] r'] eqn:T; [discriminate|].
        intros H E; inversion H; subst.
        change (d :: t ++ rest) with ((d :: t) ++ rest).
        rewrite (take_digits_app _ _ _ _ T E). reflexivity.
    + intros H _; inversion H; reflexivity.
Qed.

(** A number token is read the same when followed by text that cannot
    continue it. *)
Lemma scan_number_app (s l r rest : jsstring) :
  scan_number s = Some (l, r) -> ends_number rest = true ->
  scan_number (s ++ rest) = Some (l, r ++ rest).
Proof.
  unfold scan_number. intros H E.
  destruct s as [|c s]; [discriminate|].
  cbn [app scan_sign] in *.
  destruct (c =? MINUS).
  - destruct (scan_int s) as [[i s2]|] eqn:E2; [|discriminate].
    rewrite (scan_int_app _ _ _ _ E2 E).
    destruct (scan_frac s2) as [[f s3]|] eqn:E3; [|discriminate].
    rewrite (scan_frac_app _ _ _ _ E3 E).
    destruct (scan_exp s3) as [[e s4]|] eqn:E4; [|discriminate].
    rewrite (scan_exp_app _ _ _ _ E4 E). inversion H; reflexivity.
  - destruct (scan_int (c :: s)) as [[i s2]|] eqn:E2; [|discriminate].
    change (c :: s ++ rest) with ((c :: s) ++ rest).
    rewrite (scan_int_app _ _ _ _ E2 E).
    destruct (scan_frac s2) as [[f s3]|] eqn:E3; [|discriminate].
    rewrite (scan_frac_app _ _ _ _ E3 E).
    destruct (scan_exp s3) as [[e s4]|] eqn:E4; [|discriminate].
    rewrite (scan_exp_app _ _ _ _ E4 E). inversion H; reflexivity.
Qed.

(** A number token starts with a minus sign or a digit. *)
Lemma scan_number_head (s l r : jsstring) :
  scan_number s = Some (l, r) ->
  exists c s', s = c :: s' /\ (c =? MINUS) || is_digit c = true.
Proof.
  unfold scan_number. destruct s as [|c s]; [discriminate|].
  intros H. exists c, s. split; [reflexivity|].
  cbn [scan_sign] in H. destruct (c =? MINUS); [reflexivity|].
  simpl in H. destruct (N.eqb_spec c ZERO); [subst; reflexivity|].
  destruct (is_digit c); [reflexivity|discriminate].
Qed.

(** ** Values *)

(** Induction on a value with the hypothesis available for every element of
    an array and every property value of an object. *)
Lemma value_induction (P : value -> Prop) :
  P VUndefined -> P VNull -> (forall b, P (VBoolean b)) ->
  (forall x, P (VNumber x)) -> (forall s, P (VString s)) ->
  (forall elems, Forall P elems -> P (VArray elems)) ->
  (forall props, Forall (fun p => P (snd p)) props -> P (VObject props)) ->
  forall v, P v.
Proof.
  intros Hu Hn Hb Hx Hs Ha Ho.
  fix IH 1. intros [| |b|x|s|elems|props].
  - exact Hu.
  - exact Hn.
  - apply Hb.
  - apply Hx.
  - apply Hs.
  - apply Ha. induction elems as [|e elems IHe]; constructor; [apply IH|exact IHe].
  - apply Ho. induction props as [|[k w] props IHp]; constructor; [apply IH|exact IHp].
Qed.

Lemma skip_ws_blank (ws s : jsstring) :
  blank ws = true -> skip_ws (ws ++ s) = skip_ws s.
Proof.
  induction ws as [|c ws IH]; simpl; [reflexivity|].
  rewrite andb_true_iff. intros [Hc Hws]. rewrite Hc. apply IH, Hws.
Qed.

Lemma skip_ws_starts (t s : jsstring) :
  starts_value t = true ->
  exists c t', t = c :: t' /\ skip_ws (t ++ s) = c :: t' ++ s /\
               (c =? RBRACKET) = false /\ (c =? RBRACE) = false.
Proof.
  destruct t as [|c t]; simpl; [discriminate|].
  rewrite !andb_true_iff, !negb_true_iff. intros [[H1 H2] H3].
  exists c, t. rewrite H1. auto.
Qed.

Lemma skip_ws_idempotent (s : jsstring) : skip_ws (skip_ws s) = skip_ws s.
Proof.
  induction s as [|c s IH]; simpl; [reflexivity|].
  destruct (is_json_ws c) eqn:E; [exact IH|]. simpl. rewrite E. reflexivity.
Qed.

Lemma blank_app (a b : jsstring) :
  blank a = true -> blank b = true -> blank (a ++ b) = true.
Proof. unfold blank. rewrite forallb_app. intros -> ->. reflexivity. Qed.

Section ReadBack.
Context {host : HostNumbers}.

Lemma parse_value_skip_ws (fuel : nat) (s : jsstring) :
  parse_value fuel (skip_ws s) = parse_value fuel s.
Proof. destruct fuel; simpl; [reflexivity|]. rewrite skip_ws_idempotent. reflexivity. Qed.

Lemma parse_value_blank (fuel : nat) (ws s : jsstring) :
  blank ws = true -> parse_value fuel (ws ++ s) = parse_value fuel s.
Proof.
  intros B. rewrite <- parse_value_skip_ws, (skip_ws_blank _ _ B).
  apply parse_value_skip_ws.
Qed.

Lemma parse_elements_skip_ws (fuel : nat) (acc : list value) (s : jsstring) :
  parse_elements fuel acc (skip_ws s) = parse_elements fuel acc s.
Proof. destruct fuel; simpl; [reflexivity|]. rewrite parse_value_skip_ws. reflexivity. Qed.

Lemma parse_elements_blank (fuel : nat) (acc : list value) (ws s : jsstring) :
  blank ws = true -> parse_elements fuel acc (ws ++ s) = parse_elements fuel acc s.
Proof.
  intros B. rewrite <- parse_elements_skip_ws, (skip_ws_blank _ _ B).
  apply parse_elements_skip_ws.
Qed.

Lemma parse_members_skip_ws (fuel : nat) (acc : list (jsstring * value)) (s : jsstring) :
  parse_members fuel acc (skip_ws s) = parse_members fuel acc s.
Proof. destruct fuel; simpl; [reflexivity|]. rewrite skip_ws_idempotent. reflexivity. Qed.

Lemma parse_members_blank (fuel : nat) (acc : list (jsstring * value)) (ws s : jsstring) :
  blank ws = true -> parse_members fuel acc (ws ++ s) = parse_members fuel acc s.
Proof.
  intros B. rewrite <- parse_members_skip_ws, (skip_ws_blank _ _ B).
  apply parse_members_skip_ws.
Qed.

(** One step of the reader on each kind of first character. *)
Lemma parse_value_array (fuel : nat) (r : jsstring) :
  parse_value (S fuel) (LBRACKET :: r) =
  match skip_ws r with
  | [] => SyntaxError
  | c' :: r' =>
      if c' =? RBRACKET then Ok (VArray []) r'
      else parse_elements fuel [] (c' :: r')
  end.
Proof. reflexivity. Qed.

Lemma parse_value_object (fuel : nat) (r : jsstring) :
  parse_value (S fuel) (LBRACE :: r) =
  match skip_ws r with
  | [] => SyntaxError
  | c' :: r' =>
      if c' =? RBRACE then Ok (VObject []) r'
      else parse_members fuel [] (c' :: r')
  end.
Proof. reflexivity. Qed.

Lemma parse_value_string (fuel : nat) (r : jsstring) :
  parse_value (S fuel) (QUOTE :: r) =
  match parse_chars r with
  | Ok str rest => Ok (VString str) rest
  | SyntaxError => SyntaxError
  | OutOfFuel => OutOfFuel
  end.
Proof. reflexivity. Qed.

Lemma parse_value_number (fuel : nat) (c : code_unit) (r : jsstring) :
  (c =? MINUS) || is_digit c = true ->
  parse_value (S fuel) (c :: r) =
  match scan_number (c :: r) with
  | Some (lexeme, rest) => Ok (VNumber (NumericLiteral_value lexeme)) rest
  | None => SyntaxError
  end.
Proof.
  intros H.
  assert (R : 45 <= c <= 57).
  { unfold is_digit, MINUS in H.
    rewrite orb_true_iff, andb_true_iff, N.eqb_eq, !N.leb_le in H. lia. }
  assert (W : is_json_ws c = false).
  { unfold is_json_ws. rewrite !orb_false_iff, !N.eqb_neq. lia. }
  cbn [parse_value skip_ws]. rewrite W.
  replace (c =? LBRACE) with false by (symmetry; apply N.eqb_neq; unfold LBRACE; lia).
  replace (c =? LBRACKET) with false by (symmetry; apply N.eqb_neq; unfold LBRACKET; lia).
  replace (c =? QUOTE) with false by (symmetry; apply N.eqb_neq; unfold QUOTE; lia).
  rewrite H. reflexivity.
Qed.

Lemma parse_elements_step (fuel : nat) (acc : list value) (s : jsstring) :
  parse_elements (S fuel) acc s =
  match parse_value fuel s with
  | Ok v r =>
      match skip_ws r with
      | [] => SyntaxError
      | c :: r' =>
          if c =? COMMA then parse_elements fuel (acc ++ [v]) r'
          else if c =? RBRACKET then Ok (VArray (acc ++ [v])) r'
          else SyntaxError
      end
  | SyntaxError => SyntaxError
  | OutOfFuel => OutOfFuel
  end.
Proof. reflexivity. Qed.

Lemma parse_members_step (fuel : nat) (acc : list (jsstring * value))
  (k r : jsstring) :
  parse_members (S fuel) acc (QuoteJSONString k ++ COLON :: SPACE :: r) =
  match parse_value fuel r with
  | Ok v r3 =>
      match skip_ws r3 with
      | [] => SyntaxError
      | c3 :: r4 =>
          if c3 =? COMMA then parse_members fuel (define_property acc k v) r4
          else if c3 =? RBRACE then Ok (VObject (define_property acc k v)) r4
          else SyntaxError
      end
  | SyntaxError => SyntaxError
  | OutOfFuel => OutOfFuel
  end.
Proof.
  unfold QuoteJSONString. cbn [parse_members app skip_ws].
  change (is_json_ws QUOTE) with false. cbn iota.
  change (QUOTE =? QUOTE) with true. cbn iota.
  rewrite <- app_assoc. cbn [app]. rewrite parse_chars_quote_chars.
  cbn [skip_ws]. change (is_json_ws COLON) with false. cbn iota.
  change (COLON =? COLON) with true. cbn iota.
  change (SPACE :: r) with ([SPACE] ++ r).
  rewrite (parse_value_blank fuel [SPACE] r eq_refl). reflexivity.
Qed.

End ReadBack.

Lemma forallb_flat_map (A B : Type) (f : B -> bool) (g : A -> list B) (l : list A) :
  forallb f (List.flat_map g l) = forallb (fun x => forallb f (g x)) l.
Proof.
  induction l as [|x l IH]; simpl; [reflexivity|].
  rewrite forallb_app, IH. reflexivity.
Qed.

Lemma list_sum_filter (A : Type) (g : A -> nat) (keep : A -> bool) (l : list A) :
  (list_sum (List.map g (List.filter keep l)) <= list_sum (List.map g l))%nat.
Proof.
  induction l as [|x l IH]; simpl; [lia|].
  destruct (keep x); simpl; lia.
Qed.

Lemma lookup_None (k : jsstring) (props : list (jsstring * value)) :
  lookup k props = None <-> ~ In k (List.map fst props).
Proof.
  induction props as [|[k' v] props IH]; simpl; [tauto|].
  destruct (jsstring_eqb k k') eqn:E.
  - apply jsstring_eqb_eq in E. subst. split; [discriminate|tauto].
  - rewrite IH. split.
    + intros H [H'|H']; [|tauto]. subst.
      rewrite jsstring_eqb_refl in E. discriminate.
    + tauto.
Qed.

Lemma keys_unique_NoDup (props : list (jsstring * value)) :
  keys_unique props = true <-> NoDup (List.map fst props).
Proof.
  induction props as [|[k v] props IH]; simpl.
  - split; [constructor|reflexivity].
  - destruct (lookup k props) eqn:L.
    + split; [discriminate|]. intros H. inversion H; subst.
      apply lookup_None in H2. congruence.
    + rewrite IH. apply lookup_None in L. split.
      * intros H. constructor; assumption.
      * intros H. inversion H; assumption.
Qed.

Lemma define_property_fresh (acc : list (jsstring * value)) (k : jsstring) (v : value) :
  ~ In k (List.map fst acc) -> define_property acc k v = acc ++ [(k, v)].
Proof.
  induction acc as [|[k' v'] acc IH]; simpl; intros H; [reflexivity|].
  destruct (jsstring_eqb k k') eqn:E.
  - apply jsstring_eqb_eq in E. subst. tauto.
  - rewrite IH by tauto. reflexivity.
Qed.

Lemma join_cons (sep t : jsstring) (ts : list jsstring) :
  join sep (t :: ts) =
  t ++ match ts with [] => [] | _ :: _ => sep ++ join sep ts end.
Proof. destruct ts; simpl; [rewrite app_nil_r|]; reflexivity. Qed.

Section ReadValues.
Context {host : HostNumbers}.

Local Abbreviation element_text indent :=
  (fun e : value => match serialize indent e with
                    | Some t => t
                    | None => js "null"
                    end).

Local Abbreviation revive_element :=
  (fun e : value => match e with
                    | VUndefined => VNull
                    | _ => revive e
                    end).

Local Abbreviation member_text indent :=
  (fun p : jsstring * value =>
     QuoteJSONString (fst p) ++ COLON :: SPACE :: element_text indent (snd p)).

Local Abbreviation revive_member :=
  (fun p : jsstring * value => (fst p, revive (snd p))).

Lemma skip_ws_line (indent s : jsstring) :
  blank indent = true -> skip_ws (LF :: indent ++ s) = skip_ws s.
Proof. intros B. apply (skip_ws_blank (LF :: indent)). exact B. Qed.

Lemma parse_elements_line (fuel : nat) (acc : list value) (indent s : jsstring) :
  blank indent = true ->
  parse_elements fuel acc (LF :: indent ++ s) = parse_elements fuel acc s.
Proof. intros B. apply (parse_elements_blank fuel acc (LF :: indent)). exact B. Qed.

Lemma parse_members_line (fuel : nat) (acc : list (jsstring * value))
  (indent s : jsstring) :
  blank indent = true ->
  parse_members fuel acc (LF :: indent ++ s) = parse_members fuel acc s.
Proof. intros B. apply (parse_members_blank fuel acc (LF :: indent)). exact B. Qed.

Lemma serialize_holds (indent : jsstring) (e : value) :
  is_not_undefined e = true -> exists t, serialize indent e = Some t.
Proof. destruct e; simpl; try discriminate; eauto. Qed.

Lemma serialize_array (indent : jsstring) (elems : list value) :
  serialize indent (VArray elems) =
  Some (match List.map (element_text (indent ++ gap)) elems with
        | [] => js "[]"
        | _ :: _ =>
            LBRACKET :: LF :: (indent ++ gap)
              ++ join (COMMA :: LF :: indent ++ gap)
                      (List.map (element_text (indent ++ gap)) elems)
              ++ LF :: indent ++ [RBRACKET]
        end).
Proof. reflexivity. Qed.

Lemma serialize_members (indent : jsstring) (props : list (jsstring * value)) :
  List.flat_map (fun p => match serialize indent (snd p) with
                          | Some t => [QuoteJSONString (fst p) ++ COLON :: SPACE :: t]
                          | None => []
                          end) props =
  List.map (member_text indent) (List.filter holds_value props).
Proof.
  induction props as [|[k v] props IH]; [reflexivity|].
  cbn [List.flat_map List.filter holds_value snd fst]. rewrite IH.
  destruct v; reflexivity.
Qed.

Lemma serialize_object (indent : jsstring) (props : list (jsstring * value)) :
  serialize indent (VObject props) =
  Some (match List.map (member_text (indent ++ gap)) (List.filter holds_value props) with
        | [] => js "{}"
        | _ :: _ =>
            LBRACE :: LF :: (indent ++ gap)
              ++ join (COMMA :: LF :: indent ++ gap)
                      (List.map (member_text (indent ++ gap))
                                (List.filter holds_value props))
              ++ LF :: indent ++ [RBRACE]
        end).
Proof. cbn [serialize]. rewrite serialize_members. reflexivity. Qed.

Lemma revive_object (props : list (jsstring * value)) :
  revive (VObject props) =
  VObject (List.map revive_member (List.filter holds_value props)).
Proof.
  cbn [revive]. f_equal.
  induction props as [|[k v] props IH]; [reflexivity|].
  cbn [List.flat_map List.filter holds_value snd fst]. rewrite IH.
  destruct v; reflexivity.
Qed.

(** The text of a value starts with a character that starts a value. *)
Lemma element_text_starts (indent : jsstring) (e : value) :
  forallb reads_back (numbers_of e) = true ->
  starts_value (element_text indent e) = true.
Proof.
  destruct e as [| |[|]|x|s|elems|props]; intros N; try reflexivity.
  - cbn [serialize]. cbn [numbers_of] in N.
    destruct (PrimFloat.is_finite x); [|reflexivity].
    cbn [forallb] in N. rewrite andb_true_r in N. unfold reads_back in N.
    destruct (scan_number (Number_toString x)) as [[l r]|] eqn:S; [|discriminate].
    apply scan_number_head in S. destruct S as (c & s' & -> & H). simpl.
    unfold is_digit, MINUS in H.
    rewrite orb_true_iff, andb_true_iff, N.eqb_eq, !N.leb_le in H.
    unfold is_json_ws, RBRACKET, RBRACE.
    rewrite !andb_true_iff, !negb_true_iff, !orb_false_iff, !N.eqb_neq. lia.
  - rewrite serialize_array. destruct (List.map _ elems); reflexivity.
  - rewrite serialize_object. destruct (List.map _ (List.filter holds_value props)); reflexivity.
Qed.

Lemma read_element (e : value) (indent rest : jsstring) (fuel : nat) :
  reads_as_revived e -> blank indent = true -> ends_number rest = true ->
  (reading_fuel e <= fuel)%nat ->
  parse_value fuel (element_text indent e ++ rest) = Ok (revive_element e) rest.
Proof.
  intros R B E F.
  destruct (is_not_undefined e) eqn:D.
  - destruct (serialize_holds indent e D) as [t S]. rewrite S.
    rewrite (R indent t rest fuel B S E F). destruct e; try reflexivity; discriminate.
  - destruct e; try discriminate. destruct fuel; [simpl in F; lia|reflexivity].
Qed.

(** The elements of an array, read after the opening bracket. *)
Lemma read_elements (elems : list value) :
  Forall reads_as_revived elems ->
  forall indent stepback rest acc fuel,
    blank indent = true -> blank stepback = true -> elems <> [] ->
    (list_sum (List.map (fun e => S (reading_fuel e)) elems) <= fuel)%nat ->
    parse_elements fuel acc
      (join (COMMA :: LF :: indent) (List.map (element_text indent) elems)
         ++ LF :: stepback ++ RBRACKET :: rest)
    = Ok (VArray (acc ++ List.map revive_element elems)) rest.
Proof.
  induction 1 as [|e es Re _ IH]; intros indent stepback rest acc fuel Bi Bs NE F;
    [congruence|].
  simpl in F. destruct fuel as [|fuel]; [lia|].
  rewrite parse_elements_step. cbn [List.map]. rewrite join_cons, <- app_assoc.
  destruct es as [|e2 es'].
  - cbn [List.map app].
    rewrite (read_element e indent _ fuel Re Bi) by (reflexivity || lia).
    rewrite skip_ws_line by exact Bs. reflexivity.
  - cbn [List.map]. rewrite <- app_assoc. cbn [app].
    rewrite (read_element e indent _ fuel Re Bi) by (reflexivity || lia).
    cbn [skip_ws]. change (is_json_ws COMMA) with false. cbn iota.
    change (COMMA =? COMMA) with true. cbn iota.
    rewrite parse_elements_line by exact Bi.
    rewrite (IH indent stepback rest (acc ++ [revive_element e]) fuel Bi Bs)
      by (discriminate || lia).
    rewrite <- app_assoc. reflexivity.
Qed.

(** The members of an object, read after the opening brace. *)
Lemma read_members (ps : list (jsstring * value)) :
  Forall (fun p => reads_as_revived (snd p)) ps ->
  Forall (fun p => holds_value p = true) ps ->
  forall indent stepback rest acc fuel,
    blank indent = true -> blank stepback = true -> ps <> [] ->
    NoDup (List.map fst acc ++ List.map fst ps) ->
    (list_sum (List.map (fun p => S (reading_fuel (snd p))) ps) <= fuel)%nat ->
    parse_members fuel acc
      (join (COMMA :: LF :: indent) (List.map (member_text indent) ps)
         ++ LF :: stepback ++ RBRACE :: rest)
    = Ok (VObject (acc ++ List.map revive_member ps)) rest.
Proof.
  induction 1 as [|[k v] ps Rv _ IH]; intros Hd indent stepback rest acc fuel Bi Bs NE U F;
    [congruence|].
  inversion Hd as [|? ? Dv Hd']; subst.
  simpl in F, U. destruct fuel as [|fuel]; [lia|].
  cbn [List.map snd fst]. rewrite join_cons, <- !app_assoc. cbn [app].
  rewrite parse_members_step.
  assert (Fresh : ~ In k (List.map fst acc)).
  { apply NoDup_remove_2 in U. rewrite in_app_iff in U. tauto. }
  assert (Rv' : revive_element v = revive v).
  { destruct v; try reflexivity; discriminate. }
  cbn [snd] in Rv.
  destruct ps as [|p2 ps'].
  - cbn [List.map app].
    rewrite (read_element v indent _ fuel Rv Bi) by (reflexivity || lia).
    rewrite skip_ws_line by exact Bs.
    cbn [skip_ws]. change (is_json_ws RBRACE) with false. cbn iota.
    change (RBRACE =? COMMA) with false. change (RBRACE =? RBRACE) with true.
    cbn iota. rewrite define_property_fresh by exact Fresh.
    rewrite Rv'. reflexivity.
  - cbn [List.map app]. rewrite <- app_assoc.
    rewrite (read_element v indent _ fuel Rv Bi) by (reflexivity || lia).
    cbn [skip_ws]. change (is_json_ws COMMA) with false. cbn iota.
    change (COMMA =? COMMA) with true. cbn iota.
    rewrite parse_members_line by exact Bi.
    rewrite define_property_fresh by exact Fresh.
    rewrite (IH Hd' indent stepback rest (acc ++ [(k, revive_element v)]) fuel Bi Bs).
    + rewrite <- app_assoc, Rv'. reflexivity.
    + discriminate.
    + rewrite map_app, <- app_assoc. exact U.
    + lia.
Qed.

End ReadValues.

Lemma starts_value_app (t s : jsstring) :
  starts_value t = true -> starts_value (t ++ s) = true.
Proof. destruct t; [discriminate|exact (fun H => H)]. Qed.

Lemma starts_value_inv (X : jsstring) :
  starts_value X = true ->
  exists c r, X = c :: r /\ is_json_ws c = false /\
              (c =? RBRACKET) = false /\ (c =? RBRACE) = false.
Proof.
  destruct X as [|c r]; simpl; [discriminate|].
  rewrite !andb_true_iff, !negb_true_iff. intros [[H1 H2] H3]. eauto 6.
Qed.

(** The text of a non-empty array or object, with what follows it, split at
    its first item. *)
Lemma bracket_text (opening closing : code_unit) (ind stepback sep : jsstring)
  (items : list jsstring) (rest : jsstring) :
  (opening :: LF :: ind ++ join sep items ++ LF :: stepback ++ [closing]) ++ rest =
  opening :: (LF :: ind) ++ (join sep items ++ LF :: stepback ++ closing :: rest).
Proof. cbn [app]. rewrite <- !app_assoc. cbn [app]. rewrite <- !app_assoc. reflexivity. Qed.

Lemma blank_deeper (indent : jsstring) :
  blank indent = true -> blank (indent ++ gap) = true.
Proof. intros B. apply blank_app; [exact B|reflexivity]. Qed.

Lemma blank_line (indent : jsstring) :
  blank indent = true -> blank (LF :: indent) = true.
Proof. intros B. exact B. Qed.

Section RoundTrip.
Context {host : HostNumbers}.

Lemma reads_back_scan (x : float) (rest : jsstring) :
  reads_back x = true -> ends_number rest = true ->
  scan_number (Number_toString x ++ rest) = Some (Number_toString x, rest).
Proof.
  unfold reads_back. intros R E.
  destruct (scan_number (Number_toString x)) as [[l [|c r]]|] eqn:S; try discriminate.
  apply andb_true_iff in R. destruct R as [R _]. apply jsstring_eqb_eq in R. subst l.
  rewrite (scan_number_app _ _ _ _ S E). reflexivity.
Qed.

(** The reader returns [revive v] on the text the export helper writes for
    [v], provided the objects of [v] have distinct keys and the host's
    number conversions agree on the finite numbers of [v]. *)
Lemma read_serialized (v : value) :
  well_formed v = true ->
  forallb reads_back (numbers_of v) = true ->
  reads_as_revived v.
Proof.
  induction v as [| |b|x|s|elems IH|props IH] using value_induction;
    intros W N indent text rest fuel B S E F.
  - discriminate.
  - inversion S; subst. destruct fuel; [simpl in F; lia|reflexivity].
  - inversion S; subst. destruct fuel; [simpl in F; lia|]. destruct b; reflexivity.
  - cbn [serialize] in S. cbn [numbers_of] in N. cbn [revive].
    destruct fuel; [simpl in F; lia|].
    destruct (PrimFloat.is_finite x); inversion S; subst; [|reflexivity].
    cbn [forallb] in N. rewrite andb_true_r in N.
    pose proof (reads_back_scan x rest N E) as Sc.
    destruct (scan_number_head _ _ _ Sc) as (c & s' & Hs & Hc).
    rewrite Hs in *. rewrite (parse_value_number fuel c s' Hc), Sc. reflexivity.
  - inversion S; subst. destruct fuel; [simpl in F; lia|].
    unfold QuoteJSONString. cbn [app]. rewrite parse_value_string.
    rewrite <- app_assoc. cbn [app]. rewrite parse_chars_quote_chars. reflexivity.
  - rewrite serialize_array in S. inversion S; subst; clear S.
    cbn [reading_fuel] in F. destruct fuel as [|fuel]; [lia|].
    cbn [well_formed] in W. cbn [numbers_of] in N. rewrite forallb_flat_map in N.
    rewrite forallb_forall in W, N.
    assert (R : Forall reads_as_revived elems).
    { rewrite Forall_forall in *. intros e He. apply IH; auto. }
    destruct elems as [|e es]; [reflexivity|].
    pose proof (element_text_starts (indent ++ gap) e (N e (or_introl eq_refl))) as St.
    pose proof (read_elements (e :: es) R (indent ++ gap) indent rest [] fuel
                  (blank_deeper _ B) B ltac:(discriminate) ltac:(lia)) as Re.
    cbn [List.map] in *. rewrite bracket_text, parse_value_array.
    rewrite skip_ws_blank by (apply blank_line, blank_deeper, B).
    remember (join _ _ ++ _) as X eqn:EX in *.
    assert (SX : starts_value X = true).
    { subst X. rewrite join_cons, <- app_assoc. apply starts_value_app, St. }
    destruct (starts_value_inv X SX) as (c & r & -> & Hw & Hc & _).
    cbn [skip_ws]. rewrite Hw, Hc. exact Re.
  - rewrite serialize_object in S. inversion S; subst; clear S.
    rewrite revive_object.
    cbn [reading_fuel] in F. destruct fuel as [|fuel]; [lia|].
    cbn [well_formed] in W. apply andb_true_iff in W. destruct W as [U W].
    cbn [numbers_of] in N. rewrite forallb_flat_map in N.
    rewrite forallb_forall in W, N.
    assert (R : Forall (fun p => reads_as_revived (snd p)) (List.filter holds_value props)).
    { rewrite Forall_forall in *. intros p Hp. apply filter_In in Hp.
      destruct Hp as [Hp _]. apply IH; auto. }
    assert (D : Forall (fun p => holds_value p = true) (List.filter holds_value props)).
    { rewrite Forall_forall. intros p Hp. apply filter_In in Hp. tauto. }
    assert (K : NoDup (List.map fst (List.filter holds_value props))).
    { apply keys_unique_NoDup in U. clear -U.
      induction props as [|[k w] props IHp]; [constructor|].
      inversion U; subst. cbn [List.filter]. destruct (holds_value (k, w)); auto.
      cbn [List.map fst]. constructor; auto.
      intros Hin. apply H1. apply in_map_iff in Hin. destruct Hin as (p & <- & Hp).
      apply filter_In in Hp. apply in_map. tauto. }
    assert (Fu : (list_sum (List.map (fun p => S (reading_fuel (snd p)))
                              (List.filter holds_value props)) <= fuel)%nat).
    { pose proof (list_sum_filter _ (fun p => S (reading_fuel (snd p))) holds_value props).
      lia. }
    destruct (List.filter holds_value props) as [|[k w] ps]; [reflexivity|].
    pose proof (read_members ((k, w) :: ps) R D (indent ++ gap) indent rest [] fuel
                  (blank_deeper _ B) B ltac:(discriminate) K Fu) as Rm.
    cbn [List.map] in *. rewrite bracket_text, parse_value_object.
    rewrite skip_ws_blank by (apply blank_line, blank_deeper, B).
    remember (join _ _ ++ _) as X eqn:EX in *.
    assert (SX : starts_value X = true).
    { subst X. rewrite join_cons, <- app_assoc. reflexivity. }
    destruct (starts_value_inv X SX) as (c & r & -> & Hw & _ & Hc).
    cbn [skip_ws]. rewrite Hw, Hc. exact Rm.
Qed.

(** [JSON.parse(JSON.stringify(v, null, 2))] is [revive v]. *)
Theorem JSON_parse_stringify (v : value) (text : jsstring) :
  well_formed v = true ->
  forallb reads_back (numbers_of v) = true ->
  JSON_stringify v = Some text ->
  JSON_parse text = Some (revive v).
Proof.
  intros W N S. unfold JSON_parse.
  pose proof (read_serialized v W N [] text [] (reading_fuel v) eq_refl S eq_refl
                (Nat.le_refl _)) as R.
  rewrite app_nil_r in R. rewrite (value_fuel_irrelevant _ _ _ _ R). reflexivity.
Qed.

End RoundTrip.

(** ** Numbers that are equal pass the same guards *)

Lemma eqb_same_guards (x' x : float) :
  PrimFloat.eqb x' x = true -> PrimFloat.is_finite x = true ->
  PrimFloat.is_finite x' = true /\ PrimFloat.ltb 0%float x' = PrimFloat.ltb 0%float x.
Proof.
  unfold PrimFloat.is_finite, PrimFloat.is_nan, PrimFloat.is_infinity.
  rewrite !eqb_spec, !ltb_spec, !abs_spec.
  change (Prim2SF 0%float) with (S754_zero false).
  change (Prim2SF infinity) with (S754_infinity false).
  generalize (Prim2SF x) (Prim2SF x'). intros a a' H Fin.
  destruct a as [sa|sa| |sa ma ea];
    try (destruct sa; simpl in Fin; discriminate); try (simpl in Fin; discriminate).
  - destruct a' as [sa'|sa'| |sa' ma' ea'];
      try (destruct sa, sa'; simpl in H; discriminate);
      try (destruct sa; simpl in H; discriminate).
    split; reflexivity.
  - destruct a' as [sa'|sa'| |sa' ma' ea'];
      try (destruct sa, sa'; simpl in H; discriminate);
      try (destruct sa; simpl in H; discriminate).
    assert (Same : S754_finite sa' ma' ea' = S754_finite sa ma ea).
    { unfold SFeqb, SFcompare in H.
      destruct sa', sa; try discriminate;
        destruct (Z.compare ea' ea) eqn:Ce; try discriminate;
        apply Z.compare_eq in Ce; subst;
        destruct (Pos.compare_cont Eq ma' ma) eqn:Cm; try discriminate;
        apply Pos.compare_eq in Cm; subst; reflexivity. }
    rewrite Same. split; [exact Fin|reflexivity].
Qed.

(* ================================================================== *)
(** * What survives the round trip *)
(* ================================================================== *)

Lemma lookup_filter_None (k : jsstring) (keep : jsstring * value -> bool)
  (props : list (jsstring * value)) :
  lookup k props = None -> lookup k (List.filter keep props) = None.
Proof.
  induction props as [|[k' v'] props IH]; simpl; [reflexivity|].
  destruct (jsstring_eqb k k') eqn:E; [discriminate|].
  intros H. destruct (keep (k', v')); simpl; [rewrite E|]; auto.
Qed.

Lemma lookup_In (k : jsstring) (v : value) (props : list (jsstring * value)) :
  lookup k props = Some v -> In (k, v) props.
Proof.
  induction props as [|[k' v'] props IH]; simpl; [discriminate|].
  destruct (jsstring_eqb k k') eqn:E.
  - apply jsstring_eqb_eq in E. intros H; inversion H; subst. auto.
  - auto.
Qed.

Section Survival.
Context {host : HostNumbers}.

(** Reading a property of the revived value gives the revived property. *)
Lemma get_revive (k : jsstring) (v : value) :
  well_formed v = true -> get k (revive v) = revive (get k v).
Proof.
  destruct v as [| |b|x|s|elems|props]; intros W; try reflexivity.
  - cbn [revive]. destruct (PrimFloat.is_finite x); reflexivity.
  - rewrite revive_object. cbn [well_formed] in W.
    apply andb_true_iff in W. destruct W as [U _]. cbn [get].
    induction props as [|[k' v'] props IH]; [reflexivity|].
    cbn [keys_unique] in U. destruct (lookup k' props) eqn:L; [discriminate|].
    specialize (IH U). cbn [lookup List.filter].
    change (holds_value (k', v')) with (is_not_undefined v').
    destruct (jsstring_eqb k k') eqn:E.
    + apply jsstring_eqb_eq in E. subst k'.
      destruct (is_not_undefined v') eqn:D.
      * cbn [List.map lookup fst snd]. rewrite jsstring_eqb_refl. reflexivity.
      * destruct v'; try discriminate.
        assert (G : lookup k (List.map (fun p => (fst p, revive (snd p)))
                                (List.filter holds_value props)) = None).
        { apply lookup_None. rewrite map_map. cbn [fst].
          apply lookup_None, lookup_filter_None, L. }
        rewrite G. reflexivity.
    + destruct (is_not_undefined v'); [cbn [List.map lookup fst snd]; rewrite E|];
        exact IH.
Qed.

(** A finite number read as a property is one of the numbers of the value. *)
Lemma numbers_of_get (k : jsstring) (v : value) (x : float) :
  get k v = VNumber x -> PrimFloat.is_finite x = true -> In x (numbers_of v).
Proof.
  destruct v as [| |b|y|s|elems|props]; try discriminate.
  cbn [get numbers_of]. destruct (lookup k props) as [w|] eqn:L; [|discriminate].
  intros -> Fin. apply lookup_In in L. apply in_flat_map.
  exists (k, VNumber x). split; [exact L|]. cbn [snd numbers_of]. rewrite Fin.
  left; reflexivity.
Qed.

Lemma revive_string (u : value) : a_string u -> revive u = u.
Proof. intros [s ->]. reflexivity. Qed.

Lemma revive_boolean (u : value) : a_boolean u -> revive u = u.
Proof. intros [b ->]. reflexivity. Qed.

Lemma revive_finite (u : value) :
  finite_number u ->
  (forall x, u = VNumber x -> reads_back x = true) ->
  finite_number (revive u) /\ strict_equal (revive u) u = true /\
  (positive_number u -> positive_number (revive u)).
Proof.
  intros (x & -> & Fin) R. specialize (R x eq_refl).
  cbn [revive]. rewrite Fin. unfold reads_back in R.
  destruct (scan_number (Number_toString x)) as [[l [|c r]]|]; try discriminate.
  apply andb_true_iff in R. destruct R as [_ R].
  destruct (eqb_same_guards _ _ R Fin) as [Fin' Pos].
  split; [|split].
  - eexists; split; [reflexivity|exact Fin'].
  - exact R.
  - intros (y & Hy & _ & P). inversion Hy; subst y.
    eexists; split; [reflexivity|]. split; [exact Fin'|]. rewrite Pos. exact P.
Qed.

Lemma positive_finite (u : value) : positive_number u -> finite_number u.
Proof. intros (x & -> & F & _). exists x; auto. Qed.

Section Fields.
Variable v : value.
Hypothesis W : well_formed v = true.
Hypothesis N : forallb reads_back (numbers_of v) = true.

Lemma field_reads_back (k : jsstring) (x : float) :
  PrimFloat.is_finite x = true -> get k v = VNumber x -> reads_back x = true.
Proof.
  intros Fin G. rewrite forallb_forall in N. apply N.
  eapply numbers_of_get; eassumption.
Qed.

Lemma string_field_survives (k : jsstring) :
  a_string (get k v) ->
  a_string (get k (revive v)) /\
  strict_equal (get k (revive v)) (get k v) = true.
Proof.
  intros H. rewrite (get_revive k v W), (revive_string _ H).
  split; [exact H|]. destruct H as [s ->]. apply jsstring_eqb_refl.
Qed.

Lemma boolean_field_survives (k : jsstring) :
  a_boolean (get k v) ->
  a_boolean (get k (revive v)) /\
  strict_equal (get k (revive v)) (get k v) = true.
Proof.
  intros H. rewrite (get_revive k v W), (revive_boolean _ H).
  split; [exact H|]. destruct H as [b ->]. destruct b; reflexivity.
Qed.

Lemma finite_field_survives (k : jsstring) :
  finite_number (get k v) ->
  finite_number (get k (revive v)) /\
  strict_equal (get k (revive v)) (get k v) = true.
Proof.
  intros H. rewrite (get_revive k v W).
  destruct (revive_finite (get k v) H) as (A & B & _); [|auto].
  intros x Hx. destruct H as (y & Hy & Fin). rewrite Hx in Hy. inversion Hy; subst y.
  eapply field_reads_back; eassumption.
Qed.

Lemma positive_field_survives (k : jsstring) :
  positive_number (get k v) ->
  positive_number (get k (revive v)) /\
  strict_equal (get k (revive v)) (get k v) = true.
Proof.
  intros H. rewrite (get_revive k v W).
  destruct (revive_finite (get k v) (positive_finite _ H)) as (_ & B & C); [|auto].
  intros x Hx. destruct H as (y & Hy & Fin & _). rewrite Hx in Hy. inversion Hy; subst y.
  eapply field_reads_back; eassumption.
Qed.

(** Valid settings are still valid once written and read, and equal field
    for field. *)
Lemma settings_survive :
  valid_settings v ->
  valid_settings (revive v) /\ same_fields settings_fields (revive v) v = true.
Proof.
  intros (A1 & A2 & A3 & A4 & A5 & A6).
  destruct (positive_field_survives _ A1) as [B1 C1].
  destruct (positive_field_survives _ A2) as [B2 C2].
  destruct (string_field_survives _ A3) as [B3 C3].
  destruct (boolean_field_survives _ A4) as [B4 C4].
  destruct (positive_field_survives _ A5) as [B5 C5].
  destruct (string_field_survives _ A6) as [B6 C6].
  split; [repeat split; assumption|].
  unfold same_fields, settings_fields. cbn [forallb].
  rewrite C1, C2, C3, C4, C5, C6. reflexivity.
Qed.

(** So are valid posters. *)
Lemma poster_survives :
  valid_poster v ->
  valid_poster (revive v) /\ same_fields poster_fields (revive v) v = true.
Proof.
  intros (A1 & A2 & A3 & A4 & A5 & A6 & A7 & A8).
  destruct (string_field_survives _ A1) as [B1 C1].
  destruct (string_field_survives _ A2) as [B2 C2].
  destruct (string_field_survives _ A3) as [B3 C3].
  destruct (finite_field_survives _ A4) as [B4 C4].
  destruct (finite_field_survives _ A5) as [B5 C5].
  destruct (positive_field_survives _ A6) as [B6 C6].
  destruct (positive_field_survives _ A7) as [B7 C7].
  assert (I : get (js "imageSrc") v = VUndefined \/ a_string (get (js "imageSrc") v)).
  { destruct A8 as [H|[H|H]]; auto. left.
    destruct v; try reflexivity. simpl in *.
    destruct (lookup (js "imageSrc") props); [discriminate|reflexivity]. }
  assert (B8 : (get (js "imageSrc") (revive v) = VUndefined \/
                a_string (get (js "imageSrc") (revive v))) /\
               strict_equal (get (js "imageSrc") (revive v)) (get (js "imageSrc") v) = true).
  { destruct I as [H|H].
    - rewrite (get_revive _ v W), H. split; [left|]; reflexivity.
    - destruct (string_field_survives _ H). split; [right|]; assumption. }
  destruct B8 as [B8 C8].
  split; [repeat split; try assumption; tauto|].
  unfold same_fields, poster_fields. cbn [forallb].
  rewrite C1, C2, C3, C4, C5, C6, C7, C8. reflexivity.
Qed.

End Fields.
End Survival.

(* ================================================================== *)
(** * Export, then import *)
(* ================================================================== *)

Lemma trim_braces (mid : jsstring) :
  trim (LBRACE :: mid ++ [RBRACE]) = LBRACE :: mid ++ [RBRACE].
Proof.
  unfold trim, trim_end. cbn [trim_start]. change (is_trim_space LBRACE) with false.
  cbn iota. set (t := LBRACE :: mid ++ [RBRACE]).
  assert (R : rev t = RBRACE :: rev mid ++ [LBRACE]).
  { unfold t. cbn [rev]. rewrite rev_app_distr. reflexivity. }
  rewrite R. cbn [trim_start]. change (is_trim_space RBRACE) with false. cbn iota.
  rewrite <- R. apply rev_involutive.
Qed.

Lemma braces_text (ind items : jsstring) :
  LBRACE :: LF :: ind ++ items ++ LF :: [] ++ [RBRACE] =
  LBRACE :: (LF :: ind ++ items ++ [LF]) ++ [RBRACE].
Proof. cbn [app]. rewrite <- !app_assoc. reflexivity. Qed.

Lemma get_settings_of_document (a b : value) :
  get (js "settings") (VObject [(js "settings", a); (js "posters", b)]) = a.
Proof. reflexivity. Qed.

Lemma get_posters_of_document (a b : value) :
  get (js "posters") (VObject [(js "settings", a); (js "posters", b)]) = b.
Proof. reflexivity. Qed.

Section ExportImport.
Context {host : HostNumbers}.

Lemma revive_document (s : value) (ps : list value) :
  is_not_undefined s = true ->
  revive (wall_document {| settings := s; posters := ps |}) =
  VObject [(js "settings", revive s);
           (js "posters",
            VArray (List.map (fun e => match e with
                                       | VUndefined => VNull
                                       | _ => revive e
                                       end) ps))].
Proof. destruct s; try discriminate; reflexivity. Qed.

(** The exported text is an object text: it starts with a brace and ends
    with one. *)
Lemma document_text (s : value) (ps : list value) :
  is_not_undefined s = true ->
  exists mid,
    JSON_stringify (wall_document {| settings := s; posters := ps |})
    = Some (LBRACE :: mid ++ [RBRACE]).
Proof.
  intros D. unfold JSON_stringify, wall_document. cbn [settings posters].
  rewrite serialize_object. cbn [List.filter].
  change (holds_value (js "settings", s)) with (is_not_undefined s). rewrite D.
  change (holds_value (js "posters", VArray ps)) with true. cbn iota.
  cbn [List.map]. rewrite braces_text. eexists. reflexivity.
Qed.

Lemma posters_survive (ps : list value) :
  forallb isPoster ps = true ->
  forallb well_formed ps = true ->
  forallb reads_back (List.flat_map numbers_of ps) = true ->
  let ps' := List.map (fun e => match e with
                                | VUndefined => VNull
                                | _ => revive e
                                end) ps in
  forallb isPoster ps' = true /\ same_posters ps' ps = true.
Proof.
  induction ps as [|p ps IH]; intros V W N; [split; reflexivity|].
  cbn [forallb List.flat_map] in V, W, N. rewrite forallb_app in N.
  apply andb_true_iff in V, W, N. destruct V as [Vp V], W as [Wp W], N as [Np N].
  destruct (IH V W N) as [IH1 IH2].
  destruct (poster_survives p Wp Np (proj1 (isPoster_spec p) Vp)) as [Vp' Sp].
  apply isPoster_spec in Vp'.
  assert (E : match p with VUndefined => VNull | _ => revive p end = revive p).
  { destruct p; try reflexivity; discriminate. }
  cbn [List.map forallb same_posters]. rewrite E, Vp', Sp. auto.
Qed.

(** C5. A document whose settings and posters pass the guards, written by
    the export helper as JSON text with two-space indentation, is accepted
    by [parseWallData], and the document returned equals the original field
    for field, posters in the same order. The objects of the document have
    distinct keys, as every JavaScript object has, and the host's number
    conversions agree on the finite numbers of the document, as ECMA-262
    requires of them. *)
Theorem export_then_import_roundtrip (d : WallData) :
  isSettings (settings d) = true ->
  forallb isPoster (posters d) = true ->
  well_formed (wall_document d) = true ->
  forallb reads_back (numbers_of (wall_document d)) = true ->
  exists d',
    parseWallData (downloadJsonFile_text d) = {| data := Some d'; error := None |} /\
    same_document d' d = true.
Proof.
  destruct d as [s ps]. cbn [settings posters]. intros S Ps W N.
  assert (D : is_not_undefined s = true) by (destruct s; try reflexivity; discriminate).
  assert (Ws : well_formed s = true /\ forallb well_formed ps = true).
  { unfold wall_document in W. cbn [well_formed forallb snd settings posters] in W.
    rewrite !andb_true_iff in W. tauto. }
  assert (Ns : forallb reads_back (numbers_of s) = true /\
               forallb reads_back (List.flat_map numbers_of ps) = true).
  { unfold wall_document in N. cbn [numbers_of List.flat_map snd settings posters] in N.
    rewrite !forallb_app in N. rewrite !andb_true_iff in N. tauto. }
  destruct Ws as [Ws Wps], Ns as [Ns Nps].
  destruct (settings_survive s Ws Ns (proj1 (isSettings_spec s) S)) as [S' Eq].
  apply isSettings_spec in S'.
  destruct (posters_survive ps Ps Wps Nps) as [Ps' Eqs].
  destruct (document_text s ps D) as [mid T].
  assert (P : JSON_parse (trim (downloadJsonFile_text {| settings := s; posters := ps |}))
              = Some (revive (wall_document {| settings := s; posters := ps |}))).
  { unfold downloadJsonFile_text. rewrite T, trim_braces.
    apply JSON_parse_stringify; assumption. }
  rewrite (revive_document s ps D) in P.
  run_of_parsed (downloadJsonFile_text {| settings := s; posters := ps |}) P.
  - discriminate.
  - rewrite get_settings_of_document in *. congruence.
  - exfalso. eapply A'. apply get_posters_of_document.
  - rewrite get_posters_of_document in A'. inversion A'; subst es. congruence.
  - rewrite get_posters_of_document in A'. inversion A'; subst es.
    rewrite get_settings_of_document.
    eexists. split; [reflexivity|].
    unfold same_document. cbn [settings posters]. rewrite Eq, Eqs. reflexivity.
Qed.

End ExportImport.

(* ================================================================== *)
(** * Concrete documents *)
(* ================================================================== *)

(** The scenarios of the specification. *)

Example empty_object_scenario :
  parseWallData (js "{}") = failure invalid_settings.
Proof. reflexivity. Qed.

Example one_poster_scenario :
  exists s p,
    parseWallData scenario_text
    = {| data := Some {| settings := s; posters := [p] |}; error := None |} /\
    get (js "imageSrc") p = VUndefined /\ has_property (js "imageSrc") p = false.
Proof. do 2 eexists. split; [vm_compute; reflexivity|]. split; reflexivity. Qed.

Example blank_text_scenario :
  parseWallData (js "   ") = failure empty.
Proof. reflexivity. Qed.

Example primitive_roots_scenario :
  List.map parseWallData [js "null"; js "true"; js "42"; json_text "'wall'"]
  = List.repeat (failure invalid_root) 4.
Proof. reflexivity. Qed.

(** Placement is not range-checked: the posters of the gallery, placed at
    zero, at minus zero, at a negative ordinate and beyond the wall, pass
    the guard. *)
Example gallery_accepted : forallb isPoster gallery = true.
Proof. reflexivity. Qed.

(** The reference conversions agree on a sample of finite numbers: integers,
    fractions, both zeros, and numbers that [Number::toString] writes with
    an exponent. *)
Example reference_conversions_read_back :
  forallb reads_back
    [0; -0; 1; -1; 1400; 0.5; -42.5; 1 / 10; 1 / 3; 2 / 3; 123456789;
     9007199254740992; 1e21; 1e22; 1 / 1e7; 15 / 1e8]%float
  = true.
Proof. vm_compute. reflexivity. Qed.

(** C2, on an object whose settings and posters are both malformed: two
    reasons apply, and the first of them is reported. *)
Lemma reported_reason_first_applicable_witness :
  error (parseWallData doubly_broken_text) = Some invalid_settings /\
  parseWallData doubly_broken_text = failure invalid_settings /\
  first_applicable invalid_settings doubly_broken_text /\
  applies invalid_posters doubly_broken_text.
Proof.
  destruct reported_reason_first_applicable_but_for_arrays as (_ & _ & H & S).
  destruct (H doubly_broken_text) as [F _].
  { intros elems X. vm_compute in X. discriminate X. }
  split; [reflexivity|].
  split.
  { eapply (S doubly_broken_text); [reflexivity|].
    intros V. apply isSettings_spec in V. vm_compute in V. discriminate V. }
  split; [apply F; reflexivity|].
  eexists. split; [reflexivity|]. left.
  intros elems X. vm_compute in X. discriminate X.
Defined.

(** C3, on the same object. *)
Lemma invalid_settings_exactly_witness :
  exists props,
    JSON_parse (trim doubly_broken_text) = Some (VObject props) /\
    (error (parseWallData doubly_broken_text) = Some invalid_settings <->
     ~ valid_settings (get (js "settings") (VObject props))) /\
    (~ valid_settings (get (js "settings") (VObject props)) ->
     data (parseWallData doubly_broken_text) = None).
Proof.
  eexists. split; [reflexivity|].
  apply (invalid_settings_exactly doubly_broken_text). reflexivity.
Defined.

(** C7, on a wall without posters. *)
Lemma success_returns_the_parsed_fields_witness :
  exists root,
    JSON_parse (trim bare_wall_text) = Some root /\
    parseWallData bare_wall_text
    = {| data := Some {| settings := get (js "settings") root; posters := [] |};
         error := None |} /\
    isSettings (get (js "settings") root) = true.
Proof.
  destruct (success_returns_the_parsed_fields bare_wall_text) as [_ H].
  eexists. split; [reflexivity|]. split; [|reflexivity].
  apply H; reflexivity.
Defined.

(** C8: settings with empty color strings are accepted, against the
    invariant as the specification states it. *)
Lemma blank_colors_accepted :
  isSettings blank_color_settings = true /\
  ~ wall_settings_invariant blank_color_settings.
Proof.
  split; [reflexivity|].
  intros (_ & _ & _ & (c & s & H) & _). discriminate H.
Qed.

Lemma accepted_settings_invariant_witness :
  positive_number (get (js "wallWidth") blank_color_settings) /\
  positive_number (get (js "wallHeight") blank_color_settings) /\
  positive_number (get (js "gridStep") blank_color_settings) /\
  a_string (get (js "background") blank_color_settings) /\
  a_string (get (js "gridColor") blank_color_settings).
Proof. exact (accepted_settings_invariant blank_color_settings eq_refl). Defined.

(** C9: a document with two posters of the same identifier is accepted. *)
Lemma twin_identifiers_accepted :
  exists d,
    data (parseWallData twin_posters_text) = Some d /\ ~ NoDup (poster_ids d).
Proof.
  eexists. split; [reflexivity|].
  intros H. inversion H as [|x l Hin _]; subst. apply Hin. left. reflexivity.
Qed.

Lemma accepted_posters_have_string_ids_witness :
  exists d,
    data (parseWallData twin_posters_text) = Some d /\ Forall a_string (poster_ids d).
Proof.
  eexists. split; [reflexivity|].
  apply (accepted_posters_have_string_ids twin_posters_text). reflexivity.
Defined.

(** C10, on the gallery: one load, for the one poster with an image. *)
Lemma loads_only_for_posters_with_image_witness :
  Forall image_field_typed gallery /\
  loadPosterImages gallery = List.map load_of (List.filter has_image gallery) /\
  List.length (loadPosterImages gallery) = 1%nat.
Proof.
  assert (V : Forall image_field_typed gallery).
  { unfold gallery.
    repeat (apply Forall_cons;
            [apply valid_poster_image_typed, isPoster_spec; reflexivity|]).
    apply Forall_nil. }
  split; [exact V|].
  destruct (loads_only_for_posters_with_image unit gallery V) as (L & _ & _).
  split; [exact L|reflexivity].
Defined.

(** C5, on the sample document, with the reference number conversions. *)
Lemma export_then_import_roundtrip_witness :
  exists d',
    parseWallData (downloadJsonFile_text sample_document)
    = {| data := Some d'; error := None |} /\
    same_document d' sample_document = true.
Proof.
  apply export_then_import_roundtrip; vm_compute; reflexivity.
Defined.

(** What the round trip does not keep: the sign of a zero and the presence
    of a property holding [undefined]. The fourth poster of the gallery is
    placed at minus zero and holds [undefined] as image; it comes back
    placed at zero and without the image property, and both fields still
    compare equal with [===]. *)
Example round_trip_of_minus_zero_and_undefined :
  exists d' p,
    data (parseWallData (downloadJsonFile_text sample_document)) = Some d' /\
    List.nth_error (posters d') 3 = Some p /\
    get (js "x") p = VNumber 0 /\
    has_property (js "imageSrc") p = false /\
    same_fields poster_fields p
      (poster_object (VString (js "p4")) (VString (js "s9")) (VNumber (-0))
         (VNumber 0.5) (VNumber 297) (VNumber 420) (VString (js "D"))
         (Some VUndefined)) = true.
Proof.
  do 2 eexists.
  split; [vm_compute; reflexivity|].
  split; [vm_compute; reflexivity|].
  split; [vm_compute; reflexivity|].
  split; vm_compute; reflexivity.
Qed.

(* ================================================================== *)
(** * White space around the text *)
(* ================================================================== *)

Lemma trim_start_blank (s : jsstring) :
  forallb is_trim_space s = true -> trim_start s = [].
Proof.
  induction s as [|c s IH]; [reflexivity|]. cbn [forallb trim_start].
  intros H. apply andb_true_iff in H. destruct H as [Hc Hs].
  rewrite Hc. exact (IH Hs).
Qed.

(** What [trim_start] leaves starts with a character that is no white
    space. *)
Lemma trim_start_head (s : jsstring) (c : code_unit) (r : jsstring) :
  trim_start s = c :: r -> is_trim_space c = false.
Proof.
  induction s as [|a s IH]; [discriminate|]. cbn [trim_start].
  destruct (is_trim_space a) eqn:A; [exact IH|].
  intros H. inversion H; subst. exact A.
Qed.

Lemma trim_start_nil (s : jsstring) :
  trim_start s = [] -> forallb is_trim_space s = true.
Proof.
  induction s as [|a s IH]; [reflexivity|]. cbn [trim_start forallb].
  destruct (is_trim_space a); [exact IH|discriminate].
Qed.

Lemma forallb_rev (A : Type) (f : A -> bool) (l : list A) :
  forallb f (rev l) = forallb f l.
Proof.
  induction l as [|a l IH]; [reflexivity|]. cbn [rev forallb].
  rewrite forallb_app, IH. cbn [forallb]. rewrite andb_true_r. apply andb_comm.
Qed.

Lemma trim_start_app (s t : jsstring) :
  trim_start (s ++ t)
  = match trim_start s with
    | [] => trim_start t
    | _ :: _ => trim_start s ++ t
    end.
Proof.
  induction s as [|a s IH]; [reflexivity|].
  cbn [app trim_start]. destruct (is_trim_space a); [exact IH|reflexivity].
Qed.

Lemma trim_end_blank (s t : jsstring) :
  forallb is_trim_space t = true -> trim_end (s ++ t) = trim_end s.
Proof.
  intros B. unfold trim_end. rewrite rev_app_distr, trim_start_app.
  rewrite trim_start_blank by (rewrite forallb_rev; exact B). reflexivity.
Qed.

(** The text trims to the empty string exactly when it is white space
    throughout. *)
Lemma trim_nil (s : jsstring) :
  trim s = [] <-> forallb is_trim_space s = true.
Proof.
  unfold trim, trim_end. split.
  - intros H. apply (f_equal (@rev _)) in H. rewrite rev_involutive in H.
    cbn [rev] in H. apply trim_start_nil in H. rewrite forallb_rev in H.
    destruct (trim_start s) as [|c r] eqn:T; [exact (trim_start_nil _ T)|].
    apply trim_start_head in T. cbn [forallb] in H. rewrite T in H. discriminate.
  - intros H. rewrite (trim_start_blank _ H). reflexivity.
Qed.

Lemma trim_surrounded (before text after : jsstring) :
  forallb is_trim_space before = true ->
  forallb is_trim_space after = true ->
  trim (before ++ text ++ after) = trim text.
Proof.
  intros B A. unfold trim. rewrite trim_start_app, (trim_start_blank _ B).
  rewrite trim_start_app. destruct (trim_start text) as [|c r] eqn:T.
  - rewrite (trim_start_blank _ A). reflexivity.
  - apply trim_end_blank, A.
Qed.

Section ValidatorEdges.
Context {host : HostNumbers}.

(** X1. [parseWallData] reports [empty] exactly for the texts made of white
    space and line terminators only, the empty text among them. *)
Theorem empty_exactly_for_white_space (text : jsstring) :
  parseWallData text = failure empty <-> forallb is_trim_space text = true.
Proof.
  rewrite <- trim_nil.
  destruct (parseWallData_run text); unfold failure;
    split; intros; try reflexivity; try assumption;
    try discriminate; try contradiction.
Qed.

(** X2. White space and line terminators before and after the text change
    nothing in the result: the validator sees the trimmed text only. *)
Theorem surrounding_white_space_ignored (before text after : jsstring) :
  forallb is_trim_space before = true ->
  forallb is_trim_space after = true ->
  parseWallData (before ++ text ++ after) = parseWallData text.
Proof.
  intros B A. unfold parseWallData. rewrite (trim_surrounded _ text _ B A).
  reflexivity.
Qed.

(** X3. How the kind of the root decides the first stages: a root that is
    [null], a boolean, a number or a string is reported as [invalid-root];
    every array root is reported as [invalid-settings]; an object root is
    never reported as [invalid-root]. *)
Theorem root_kind_decides (text : jsstring) (root : value) :
  JSON_parse (trim text) = Some root ->
  match root with
  | VArray _ => parseWallData text = failure invalid_settings
  | VObject _ => error (parseWallData text) <> Some invalid_root
  | _ => parseWallData text = failure invalid_root
  end.
Proof.
  intros P.
  destruct root; run_of_parsed text P; try discriminate; try reflexivity.
Qed.

(** X4. For an object root with valid settings, the reason is
    [invalid-posters] exactly when the [posters] property is not an array
    or one of its elements is not a valid poster; no document is returned
    then, and otherwise the document is returned without error. *)
Theorem invalid_posters_exactly (text : jsstring) (root : value) :
  JSON_parse (trim text) = Some root ->
  isRecord root = true ->
  valid_settings (get (js "settings") root) ->
  (error (parseWallData text) = Some invalid_posters <->
   (forall elems, get (js "posters") root <> VArray elems) \/
   (exists elems p,
       get (js "posters") root = VArray elems /\ In p elems /\ ~ valid_poster p)) /\
  (error (parseWallData text) = Some invalid_posters \/
   error (parseWallData text) = None /\ data (parseWallData text) <> None).
Proof.
  intros P R S. apply isSettings_spec in S.
  run_of_parsed text P; try congruence; unfold failure; cbn [error data].
  - split; [|left; reflexivity]. split; [intros _; left; assumption|reflexivity].
  - split; [|left; reflexivity]. split; [|reflexivity]. intros _. right.
    assert (X : existsb (fun p => negb (isPoster p)) es = true).
    { clear - F'. induction es as [|p es IH]; [discriminate|].
      cbn [forallb existsb] in *. destruct (isPoster p); [exact (IH F')|reflexivity]. }
    apply existsb_exists in X. destruct X as (p & I & V).
    exists es, p. split; [assumption|]. split; [assumption|].
    intros H. apply isPoster_spec in H. rewrite H in V. discriminate.
  - split; [|right; split; [reflexivity|discriminate]].
    split; [discriminate|]. intros [H|(elems & p & A & I & V)].
    + exfalso. exact (H _ A').
    + exfalso. rewrite A' in A. inversion A; subst elems.
      rewrite forallb_forall in F'. apply V, isPoster_spec, F', I.
Qed.

Lemma valid_settings_of_object (k : jsstring) (root : value) :
  valid_settings (get k root) -> isRecord root = true.
Proof.
  intros ((x & H & _) & _).
  destruct root; try reflexivity; discriminate.
Qed.

(** X18. A text is accepted exactly when it is, white space around it
    apart, the JSON text of a value whose [settings] property holds valid
    settings and whose [posters] property holds an array of valid posters;
    nothing else about the value matters. *)
Theorem accepted_exactly (text : jsstring) :
  error (parseWallData text) = None <->
  exists root elems,
    JSON_parse (trim text) = Some root /\
    valid_settings (get (js "settings") root) /\
    get (js "posters") root = VArray elems /\
    Forall valid_poster elems.
Proof.
  split.
  - intros H.
    destruct (parseWallData_run text) as [E|T P|root T P R|root T P R S
                                          |root T P R S A|root es T P R S A F
                                          |root es T P R S A F];
      try discriminate H.
    exists root, es. split; [exact P|]. split; [apply isSettings_spec, S|].
    split; [exact A|]. apply Forall_forall. intros p I.
    rewrite forallb_forall in F. apply isPoster_spec, F, I.
  - intros (root & elems & P & S & A & V).
    pose proof (valid_settings_of_object _ _ S) as R. apply isSettings_spec in S.
    assert (F : forallb isPoster elems = true).
    { apply forallb_forall. intros p I. rewrite Forall_forall in V.
      apply isPoster_spec, V, I. }
    run_of_parsed text P; congruence || reflexivity.
Qed.

End ValidatorEdges.

(* ================================================================== *)
(** * Properties the guards do not read *)
(* ================================================================== *)

Lemma lookup_define_other (k k' : jsstring) (v : value)
  (props : list (jsstring * value)) :
  jsstring_eqb k k' = false ->
  lookup k (define_property props k' v) = lookup k props.
Proof.
  intros D. induction props as [|[a w] props IH]; cbn [define_property lookup].
  - rewrite D. reflexivity.
  - destruct (jsstring_eqb k' a) eqn:E.
    + apply jsstring_eqb_eq in E. subst a. cbn [lookup]. rewrite D. reflexivity.
    + cbn [lookup]. rewrite IH. reflexivity.
Qed.

Lemma lookup_define_same (k : jsstring) (v : value)
  (props : list (jsstring * value)) :
  lookup k (define_property props k v) = Some v.
Proof.
  induction props as [|[a w] props IH]; cbn [define_property lookup].
  - rewrite jsstring_eqb_refl. reflexivity.
  - destruct (jsstring_eqb k a) eqn:E; cbn [lookup]; rewrite E; [reflexivity|exact IH].
Qed.

Lemma get_define_other (k k' : jsstring) (v : value)
  (props : list (jsstring * value)) :
  jsstring_eqb k k' = false ->
  get k (VObject (define_property props k' v)) = get k (VObject props).
Proof. intros D. cbn [get]. rewrite (lookup_define_other _ _ _ _ D). reflexivity. Qed.

Lemma has_define_other (k k' : jsstring) (v : value)
  (props : list (jsstring * value)) :
  jsstring_eqb k k' = false ->
  has_property k (VObject (define_property props k' v)) = has_property k (VObject props).
Proof.
  intros D. cbn [has_property]. rewrite (lookup_define_other _ _ _ _ D). reflexivity.
Qed.

Lemma get_define_same (k : jsstring) (v : value) (props : list (jsstring * value)) :
  get k (VObject (define_property props k v)) = v.
Proof. cbn [get]. rewrite lookup_define_same. reflexivity. Qed.

Lemma not_field (k : jsstring) (fields : list jsstring) (f : jsstring) :
  existsb (jsstring_eqb k) fields = false -> In f fields -> jsstring_eqb f k = false.
Proof.
  intros N I. destruct (jsstring_eqb f k) eqn:E; [|reflexivity].
  apply jsstring_eqb_eq in E. subst f.
  assert (X : existsb (jsstring_eqb k) fields = true).
  { apply existsb_exists. exists k. split; [exact I|apply jsstring_eqb_refl]. }
  congruence.
Qed.

(** X5. The guards read the fields of their type and nothing else: setting
    any other property of an object, to any value, changes neither the
    verdict of [isSettings] nor that of [isPoster]; unknown fields of an
    imported document are tolerated. *)
Theorem unknown_fields_tolerated (props : list (jsstring * value))
  (k : jsstring) (v : value) :
  (existsb (jsstring_eqb k) settings_fields = false ->
   isSettings (VObject (define_property props k v)) = isSettings (VObject props)) /\
  (existsb (jsstring_eqb k) poster_fields = false ->
   isPoster (VObject (define_property props k v)) = isPoster (VObject props)).
Proof.
  split; intros N.
  - assert (G : forall f, In f settings_fields ->
                          get f (VObject (define_property props k v))
                          = get f (VObject props)).
    { intros f I. apply get_define_other. eapply not_field; eassumption. }
    unfold isSettings. change (isRecord (VObject _)) with true. cbn [negb].
    rewrite !G by (unfold settings_fields; cbn [In]; tauto). reflexivity.
  - assert (D : forall f, In f poster_fields -> jsstring_eqb f k = false).
    { intros f I. eapply not_field; eassumption. }
    unfold isPoster. change (isRecord (VObject _)) with true. cbn [negb].
    rewrite !get_define_other, !has_define_other
      by (apply D; unfold poster_fields; cbn [In]; tauto).
    reflexivity.
Qed.

(* ================================================================== *)
(** * What the reader builds *)
(* ================================================================== *)

Lemma jsstring_eqb_sym (a b : jsstring) : jsstring_eqb a b = jsstring_eqb b a.
Proof.
  destruct (jsstring_eqb a b) eqn:E.
  - apply jsstring_eqb_eq in E. subst. symmetry. apply jsstring_eqb_refl.
  - destruct (jsstring_eqb b a) eqn:E'; [|reflexivity].
    apply jsstring_eqb_eq in E'. subst. rewrite jsstring_eqb_refl in E. discriminate.
Qed.

Lemma define_property_unique (acc : list (jsstring * value)) (k : jsstring) (v : value) :
  keys_unique acc = true -> keys_unique (define_property acc k v) = true.
Proof.
  induction acc as [|[a w] acc IH]; [reflexivity|].
  cbn [keys_unique define_property].
  destruct (lookup a acc) eqn:L; [discriminate|]. intros U.
  destruct (jsstring_eqb k a) eqn:E; cbn [keys_unique].
  - rewrite L. exact U.
  - rewrite lookup_define_other, L by (rewrite jsstring_eqb_sym; exact E).
    exact (IH U).
Qed.

Lemma define_property_forallb (keep : value -> bool) (acc : list (jsstring * value))
  (k : jsstring) (v : value) :
  forallb (fun p => keep (snd p)) acc = true -> keep v = true ->
  forallb (fun p => keep (snd p)) (define_property acc k v) = true.
Proof.
  intros A V. induction acc as [|[a w] acc IH]; cbn [define_property forallb snd].
  - rewrite V. reflexivity.
  - cbn [forallb snd] in A. apply andb_true_iff in A. destruct A as [Hw A].
    destruct (jsstring_eqb k a); cbn [forallb snd].
    + rewrite V, A. reflexivity.
    + rewrite Hw, (IH A). reflexivity.
Qed.

Lemma define_property_well_formed (acc : list (jsstring * value)) (k : jsstring)
  (v : value) :
  well_formed (VObject acc) = true -> well_formed v = true ->
  well_formed (VObject (define_property acc k v)) = true.
Proof.
  cbn [well_formed]. rewrite !andb_true_iff. intros [U A] V. split.
  - apply define_property_unique, U.
  - apply (define_property_forallb well_formed); assumption.
Qed.

Lemma well_formed_get (k : jsstring) (v : value) :
  well_formed v = true -> well_formed (get k v) = true.
Proof.
  destruct v as [| |b|x|s|elems|props]; try reflexivity.
  cbn [well_formed get]. intros W. apply andb_true_iff in W. destruct W as [_ W].
  destruct (lookup k props) as [w|] eqn:L; [|reflexivity].
  apply lookup_In in L. rewrite forallb_forall in W. exact (W _ L).
Qed.

Section ReaderBuilds.
Context {host : HostNumbers}.

Ltac reader_cases H :=
  repeat match type of H with
         | match ?x with _ => _ end = _ => destruct x eqn:?; try discriminate H
         | (if ?b then _ else _) = _ => destruct b eqn:?; try discriminate H
         end.

(** The objects the reader builds have distinct keys, at every depth. *)
Lemma reader_well_formed (fuel : nat) :
  (forall s v r, parse_value fuel s = Ok v r -> well_formed v = true) /\
  (forall acc s v r, parse_elements fuel acc s = Ok v r ->
                     forallb well_formed acc = true -> well_formed v = true) /\
  (forall acc s v r, parse_members fuel acc s = Ok v r ->
                     well_formed (VObject acc) = true -> well_formed v = true).
Proof.
  induction fuel as [|fuel (IHv & IHe & IHm)];
    [repeat split; intros; discriminate|].
  repeat split.
  - intros s v r H. simpl in H. reader_cases H;
      first [ apply IHe in H; [exact H|reflexivity]
            | apply IHm in H; [exact H|reflexivity]
            | apply expect_split in H; destruct H as [_ ->]; reflexivity
            | inversion H; subst; reflexivity ].
  - intros acc s v r H A. simpl in H.
    destruct (parse_value fuel s) as [v0 r0| |] eqn:V; try discriminate.
    apply IHv in V.
    assert (A' : forallb well_formed (acc ++ [v0]) = true).
    { rewrite forallb_app, A. cbn [forallb]. rewrite V. reflexivity. }
    reader_cases H;
      first [ apply IHe in H; [exact H|exact A']
            | inversion H; subst; exact A' ].
  - intros acc s v r H A. simpl in H.
    destruct (skip_ws s) as [|q r0] eqn:W; [discriminate|].
    destruct (q =? QUOTE); [|discriminate].
    destruct (parse_chars r0) as [k r1| |] eqn:K; try discriminate.
    destruct (skip_ws r1) as [|c1 r2] eqn:W1; [discriminate|].
    destruct (c1 =? COLON); [|discriminate].
    destruct (parse_value fuel r2) as [v0 r3| |] eqn:V; try discriminate.
    apply IHv in V.
    pose proof (define_property_well_formed acc k v0 A V) as A'.
    reader_cases H;
      first [ apply IHm in H; [exact H|exact A']
            | inversion H; subst; exact A' ].
Qed.

Lemma JSON_parse_well_formed (text : jsstring) (v : value) :
  JSON_parse text = Some v -> well_formed v = true.
Proof.
  unfold JSON_parse.
  destruct (parse_value (2 * List.length text + 1) text) as [w rest| |] eqn:P;
    try discriminate.
  destruct (skip_ws rest); [|discriminate].
  intros H. inversion H; subst w.
  exact (proj1 (reader_well_formed _) _ _ _ P).
Qed.

End ReaderBuilds.

(* ================================================================== *)
(** * The verdict of the guards survives the round trip *)
(* ================================================================== *)

Lemma has_and_defined (k : jsstring) (v : value) :
  has_property k v && is_not_undefined (get k v) = is_not_undefined (get k v).
Proof.
  destruct v; try reflexivity. cbn [has_property get].
  destruct (lookup k props); reflexivity.
Qed.

Section GuardsSurvive.
Context {host : HostNumbers}.

Lemma isRecord_revive (u : value) : isRecord (revive u) = isRecord u.
Proof.
  destruct u; try reflexivity. cbn [revive].
  destruct (PrimFloat.is_finite x); reflexivity.
Qed.

Lemma typeof_revive_string (u : value) : isString (revive u) = isString u.
Proof.
  destruct u; try reflexivity. cbn [revive].
  destruct (PrimFloat.is_finite x); reflexivity.
Qed.

Lemma typeof_revive_boolean (u : value) : isBoolean (revive u) = isBoolean u.
Proof.
  destruct u; try reflexivity. cbn [revive].
  destruct (PrimFloat.is_finite x); reflexivity.
Qed.

Lemma defined_revive (u : value) :
  is_not_undefined (revive u) = is_not_undefined u.
Proof.
  destruct u; try reflexivity. cbn [revive].
  destruct (PrimFloat.is_finite x); reflexivity.
Qed.

(** A number passes the same numeric guards before and after. *)
Lemma number_guards_revive (u : value) :
  (forall x, u = VNumber x -> PrimFloat.is_finite x = true -> reads_back x = true) ->
  isNumber (revive u) = isNumber u /\
  isPositiveNumber (revive u) = isPositiveNumber u.
Proof.
  intros R. destruct u as [| |b|x|s|elems|props]; try (split; reflexivity).
  unfold isPositiveNumber. cbn [revive isNumber].
  destruct (PrimFloat.is_finite x) eqn:Fin; [|split; reflexivity].
  specialize (R x eq_refl Fin). unfold reads_back in R.
  destruct (scan_number (Number_toString x)) as [[l [|c r]]|]; try discriminate.
  apply andb_true_iff in R. destruct R as [_ R].
  destruct (eqb_same_guards _ _ R Fin) as [Fin' Pos].
  cbn [isNumber]. rewrite Fin', Pos. split; reflexivity.
Qed.

Section OneObject.
Variable v : value.
Hypothesis W : well_formed v = true.
Hypothesis N : forallb reads_back (numbers_of v) = true.

Lemma string_guard_survives (k : jsstring) :
  isString (get k (revive v)) = isString (get k v).
Proof. rewrite (get_revive k v W). apply typeof_revive_string. Qed.

Lemma boolean_guard_survives (k : jsstring) :
  isBoolean (get k (revive v)) = isBoolean (get k v).
Proof. rewrite (get_revive k v W). apply typeof_revive_boolean. Qed.

Lemma number_guards_survive (k : jsstring) :
  isNumber (get k (revive v)) = isNumber (get k v) /\
  isPositiveNumber (get k (revive v)) = isPositiveNumber (get k v).
Proof.
  rewrite (get_revive k v W). apply number_guards_revive.
  intros x G Fin. exact (field_reads_back v N k x Fin G).
Qed.

Lemma isSettings_revive : isSettings (revive v) = isSettings v.
Proof.
  unfold isSettings. rewrite isRecord_revive.
  rewrite !string_guard_survives, boolean_guard_survives.
  rewrite !(proj2 (number_guards_survive _)). reflexivity.
Qed.

Lemma isPoster_revive : isPoster (revive v) = isPoster v.
Proof.
  unfold isPoster. rewrite isRecord_revive, !has_and_defined.
  rewrite !string_guard_survives.
  rewrite !(proj2 (number_guards_survive _)), !(proj1 (number_guards_survive _)).
  rewrite (get_revive (js "imageSrc") v W), defined_revive. reflexivity.
Qed.

End OneObject.

Lemma posters_verdict_survives (ps : list value) :
  forallb well_formed ps = true ->
  forallb reads_back (List.flat_map numbers_of ps) = true ->
  forallb isPoster (List.map (fun e => match e with
                                       | VUndefined => VNull
                                       | _ => revive e
                                       end) ps)
  = forallb isPoster ps.
Proof.
  induction ps as [|p ps IH]; intros W N; [reflexivity|].
  cbn [forallb List.flat_map] in W, N. rewrite forallb_app in N.
  apply andb_true_iff in W, N. destruct W as [Wp W], N as [Np N].
  cbn [List.map forallb]. rewrite (IH W N). f_equal.
  destruct p; try (apply isPoster_revive; assumption). reflexivity.
Qed.

Lemma export_is_object_text (d : WallData) :
  exists mid, JSON_stringify (wall_document d) = Some (LBRACE :: mid ++ [RBRACE]).
Proof.
  destruct d as [s ps]. unfold JSON_stringify, wall_document. cbn [settings posters].
  rewrite serialize_object. cbn [List.filter].
  change (holds_value (js "settings", s)) with (is_not_undefined s).
  change (holds_value (js "posters", VArray ps)) with true.
  destruct (is_not_undefined s); cbn iota; cbn [List.map];
    rewrite braces_text; eexists; reflexivity.
Qed.

(** Importing what was exported gives the verdict of the guards on the
    document in memory. *)
Lemma import_of_export (d : WallData) :
  well_formed (wall_document d) = true ->
  forallb reads_back (numbers_of (wall_document d)) = true ->
  parseWallData (downloadJsonFile_text d)
  = if negb (isSettings (settings d)) then failure invalid_settings
    else if negb (forallb isPoster (posters d)) then failure invalid_posters
    else {| data := Some {| settings := revive (settings d);
                            posters := List.map revive (posters d) |};
            error := None |}.
Proof.
  intros W N. pose proof W as Wd. pose proof N as Nd.
  destruct d as [s ps]. cbn [settings posters].
  unfold wall_document in W, N. cbn [settings posters] in W, N.
  cbn [well_formed forallb snd] in W. cbn [numbers_of List.flat_map snd] in N.
  rewrite !forallb_app in N. rewrite andb_true_r in W. rewrite !andb_true_iff in W, N.
  destruct W as (_ & Ws & Wps), N as (Ns & Nps & _).
  destruct (export_is_object_text {| settings := s; posters := ps |}) as [mid T].
  assert (P : JSON_parse (trim (downloadJsonFile_text {| settings := s; posters := ps |}))
              = Some (revive (wall_document {| settings := s; posters := ps |}))).
  { unfold downloadJsonFile_text. rewrite T, trim_braces.
    apply JSON_parse_stringify; assumption. }
  assert (Gs : get (js "settings") (revive (wall_document {| settings := s; posters := ps |}))
               = revive s).
  { rewrite (get_revive _ _ Wd). reflexivity. }
  assert (Gp : get (js "posters") (revive (wall_document {| settings := s; posters := ps |}))
               = VArray (List.map (fun e => match e with
                                            | VUndefined => VNull
                                            | _ => revive e
                                            end) ps)).
  { rewrite (get_revive _ _ Wd). reflexivity. }
  assert (Rr : isRecord (revive (wall_document {| settings := s; posters := ps |}))
               = true) by (rewrite isRecord_revive; reflexivity).
  remember (revive (wall_document {| settings := s; posters := ps |})) as root.
  run_of_parsed (downloadJsonFile_text {| settings := s; posters := ps |}) P.
  - congruence.
  - rewrite Gs, (isSettings_revive s Ws Ns) in S'. rewrite S'. reflexivity.
  - exfalso. exact (A' _ Gp).
  - rewrite Gs, (isSettings_revive s Ws Ns) in S'. rewrite S'. cbn [negb].
    rewrite Gp in A'. inversion A'; subst es.
    rewrite (posters_verdict_survives ps Wps Nps) in F'. rewrite F'. reflexivity.
  - rewrite Gs in *. rewrite (isSettings_revive s Ws Ns) in S'. rewrite S'. cbn [negb].
    rewrite Gp in A'. inversion A'; subst es.
    rewrite (posters_verdict_survives ps Wps Nps) in F'. rewrite F'. cbn [negb].
    do 3 f_equal. apply map_ext_in. intros p I.
    rewrite forallb_forall in F'. specialize (F' p I).
    destruct p; try reflexivity; discriminate.
Qed.

(** X6. Importing an exported wall gives the verdict of the guards on the
    document in memory: the import succeeds exactly when the settings and
    every poster pass their guard; otherwise it reports [invalid-settings]
    if the settings fail and [invalid-posters] if only a poster fails. An
    exported file is never found empty, unparsable or of the wrong root. *)
Theorem export_reimports_iff_valid (d : WallData) :
  well_formed (wall_document d) = true ->
  forallb reads_back (numbers_of (wall_document d)) = true ->
  let result := parseWallData (downloadJsonFile_text d) in
  (error result = None <->
   isSettings (settings d) = true /\ forallb isPoster (posters d) = true) /\
  (error result = Some invalid_settings <-> isSettings (settings d) = false) /\
  (error result = Some invalid_posters <->
   isSettings (settings d) = true /\ forallb isPoster (posters d) = false) /\
  error result <> Some empty /\
  error result <> Some invalid_json /\
  error result <> Some invalid_root.
Proof.
  intros W N result. subst result. rewrite (import_of_export d W N).
  destruct (isSettings (settings d)), (forallb isPoster (posters d));
    unfold failure; cbn [negb error];
    repeat match goal with
           | |- _ /\ _ => split
           | |- _ <-> _ => split
           end;
    try discriminate; try reflexivity; try tauto;
    intros [? ?]; discriminate.
Qed.

(** X7. A document that the import accepted can be exported and imported
    again: the second import accepts it too and returns a document equal to
    the first field for field, posters in the same order. *)
Theorem accepted_document_reimports (text : jsstring) (d : WallData) :
  data (parseWallData text) = Some d ->
  forallb reads_back (numbers_of (wall_document d)) = true ->
  exists d',
    parseWallData (downloadJsonFile_text d) = {| data := Some d'; error := None |} /\
    same_document d' d = true.
Proof.
  intros D N.
  destruct (parseWallData_run text) as [E|T P|root T P R|root T P R S
                                        |root T P R S A|root es T P R S A F
                                        |root es T P R S A F];
    simpl in D; try discriminate.
  inversion D; subst d; clear D.
  apply JSON_parse_well_formed in P.
  pose proof (well_formed_get (js "settings") root P) as Ws.
  pose proof (well_formed_get (js "posters") root P) as Wps.
  rewrite A in Wps. cbn [well_formed] in Wps.
  assert (W : well_formed (wall_document
                {| settings := get (js "settings") root; posters := es |}) = true).
  { unfold wall_document. cbn [well_formed forallb snd settings posters keys_unique].
    rewrite Ws, Wps. reflexivity. }
  rewrite (import_of_export _ W N). cbn [settings posters]. rewrite S, F. cbn [negb].
  eexists. split; [reflexivity|].
  unfold wall_document in N. cbn [numbers_of List.flat_map snd settings posters] in N.
  rewrite !forallb_app in N. rewrite !andb_true_iff in N. destruct N as (Ns & Nps & _).
  destruct (settings_survive _ Ws Ns (proj1 (isSettings_spec _) S)) as [_ Eq].
  destruct (posters_survive es F Wps Nps) as [_ Eqs].
  unfold same_document. cbn [settings posters]. rewrite Eq.
  replace (List.map revive es)
    with (List.map (fun e => match e with VUndefined => VNull | _ => revive e end) es).
  - exact Eqs.
  - apply map_ext_in. intros p I. rewrite forallb_forall in F. specialize (F p I).
    destruct p; try reflexivity; discriminate.
Qed.

End GuardsSurvive.

(* ================================================================== *)
(** * Reading back text written without gap *)
(* ================================================================== *)

Section ReadPlain.
Context {host : HostNumbers}.

Local Abbreviation plain_element_text :=
  (fun e : value => match serialize_plain e with
                    | Some t => t
                    | None => js "null"
                    end).

Local Abbreviation revive_element :=
  (fun e : value => match e with
                    | VUndefined => VNull
                    | _ => revive e
                    end).

Local Abbreviation plain_member_text :=
  (fun p : jsstring * value =>
     QuoteJSONString (fst p) ++ COLON :: plain_element_text (snd p)).

Local Abbreviation revive_member :=
  (fun p : jsstring * value => (fst p, revive (snd p))).

Lemma serialize_plain_array (elems : list value) :
  serialize_plain (VArray elems) =
  Some (LBRACKET :: join [COMMA] (List.map plain_element_text elems) ++ [RBRACKET]).
Proof. reflexivity. Qed.

Lemma serialize_plain_members (props : list (jsstring * value)) :
  List.flat_map (fun p => match serialize_plain (snd p) with
                          | Some t => [QuoteJSONString (fst p) ++ COLON :: t]
                          | None => []
                          end) props =
  List.map plain_member_text (List.filter holds_value props).
Proof.
  induction props as [|[k v] props IH]; [reflexivity|].
  cbn [List.flat_map List.filter holds_value snd fst]. rewrite IH.
  destruct v; reflexivity.
Qed.

Lemma serialize_plain_object (props : list (jsstring * value)) :
  serialize_plain (VObject props) =
  Some (LBRACE :: join [COMMA]
                    (List.map plain_member_text (List.filter holds_value props))
          ++ [RBRACE]).
Proof. cbn [serialize_plain]. rewrite serialize_plain_members. reflexivity. Qed.

Lemma plain_text_starts (e : value) :
  forallb reads_back (numbers_of e) = true ->
  starts_value (plain_element_text e) = true.
Proof.
  destruct e as [| |[|]|x|s|elems|props]; intros N; try reflexivity.
  cbn [serialize_plain]. cbn [numbers_of] in N.
  destruct (PrimFloat.is_finite x); [|reflexivity].
  cbn [forallb] in N. rewrite andb_true_r in N. unfold reads_back in N.
  destruct (scan_number (Number_toString x)) as [[l r]|] eqn:S; [|discriminate].
  apply scan_number_head in S. destruct S as (c & s' & -> & H). simpl.
  unfold is_digit, MINUS in H.
  rewrite orb_true_iff, andb_true_iff, N.eqb_eq, !N.leb_le in H.
  unfold is_json_ws, RBRACKET, RBRACE.
  rewrite !andb_true_iff, !negb_true_iff, !orb_false_iff, !N.eqb_neq. lia.
Qed.

Lemma plain_holds (e : value) :
  is_not_undefined e = true -> exists t, serialize_plain e = Some t.
Proof. destruct e; simpl; try discriminate; eauto. Qed.

Lemma read_plain_element (e : value) (rest : jsstring) (fuel : nat) :
  reads_plain e -> ends_number rest = true ->
  (reading_fuel e <= fuel)%nat ->
  parse_value fuel (plain_element_text e ++ rest) = Ok (revive_element e) rest.
Proof.
  intros R E F.
  destruct (is_not_undefined e) eqn:D.
  - destruct (plain_holds e D) as [t S]. rewrite S.
    rewrite (R t rest fuel S E F). destruct e; try reflexivity; discriminate.
  - destruct e; try discriminate. destruct fuel; [simpl in F; lia|reflexivity].
Qed.

Lemma read_plain_elements (elems : list value) :
  Forall reads_plain elems ->
  forall rest acc fuel,
    elems <> [] ->
    (list_sum (List.map (fun e => S (reading_fuel e)) elems) <= fuel)%nat ->
    parse_elements fuel acc
      (join [COMMA] (List.map plain_element_text elems) ++ RBRACKET :: rest)
    = Ok (VArray (acc ++ List.map revive_element elems)) rest.
Proof.
  induction 1 as [|e es Re _ IH]; intros rest acc fuel NE F; [congruence|].
  simpl in F. destruct fuel as [|fuel]; [lia|].
  rewrite parse_elements_step. cbn [List.map]. rewrite join_cons, <- app_assoc.
  destruct es as [|e2 es'].
  - cbn [List.map app].
    rewrite (read_plain_element e _ fuel Re) by (reflexivity || lia).
    reflexivity.
  - cbn [List.map]. rewrite <- app_assoc. cbn [app].
    rewrite (read_plain_element e _ fuel Re) by (reflexivity || lia).
    cbn [skip_ws]. change (is_json_ws COMMA) with false. cbn iota.
    change (COMMA =? COMMA) with true. cbn iota.
    rewrite (IH rest (acc ++ [revive_element e]) fuel) by (discriminate || lia).
    rewrite <- app_assoc. reflexivity.
Qed.

Lemma parse_members_plain_step (fuel : nat) (acc : list (jsstring * value))
  (k r : jsstring) :
  parse_members (S fuel) acc (QuoteJSONString k ++ COLON :: r) =
  match parse_value fuel r with
  | Ok v r3 =>
      match skip_ws r3 with
      | [] => SyntaxError
      | c3 :: r4 =>
          if c3 =? COMMA then parse_members fuel (define_property acc k v) r4
          else if c3 =? RBRACE then Ok (VObject (define_property acc k v)) r4
          else SyntaxError
      end
  | SyntaxError => SyntaxError
  | OutOfFuel => OutOfFuel
  end.
Proof.
  unfold QuoteJSONString. cbn [parse_members app skip_ws].
  change (is_json_ws QUOTE) with false. cbn iota.
  change (QUOTE =? QUOTE) with true. cbn iota.
  rewrite <- app_assoc. cbn [app]. rewrite parse_chars_quote_chars.
  cbn [skip_ws]. change (is_json_ws COLON) with false. cbn iota.
  change (COLON =? COLON) with true. cbn iota. reflexivity.
Qed.

Lemma read_plain_members (ps : list (jsstring * value)) :
  Forall (fun p => reads_plain (snd p)) ps ->
  Forall (fun p => holds_value p = true) ps ->
  forall rest acc fuel,
    ps <> [] ->
    NoDup (List.map fst acc ++ List.map fst ps) ->
    (list_sum (List.map (fun p => S (reading_fuel (snd p))) ps) <= fuel)%nat ->
    parse_members fuel acc
      (join [COMMA] (List.map plain_member_text ps) ++ RBRACE :: rest)
    = Ok (VObject (acc ++ List.map revive_member ps)) rest.
Proof.
  induction 1 as [|[k v] ps Rv _ IH]; intros Hd rest acc fuel NE U F; [congruence|].
  inversion Hd as [|? ? Dv Hd']; subst.
  simpl in F, U. destruct fuel as [|fuel]; [lia|].
  cbn [List.map snd fst]. rewrite join_cons, <- !app_assoc. cbn [app].
  rewrite parse_members_plain_step.
  assert (Fresh : ~ In k (List.map fst acc)).
  { apply NoDup_remove_2 in U. rewrite in_app_iff in U. tauto. }
  assert (Rv' : revive_element v = revive v).
  { destruct v; try reflexivity; discriminate. }
  cbn [snd] in Rv.
  destruct ps as [|p2 ps'].
  - cbn [List.map app].
    rewrite (read_plain_element v _ fuel Rv) by (reflexivity || lia).
    cbn [skip_ws]. change (is_json_ws RBRACE) with false. cbn iota.
    change (RBRACE =? COMMA) with false. change (RBRACE =? RBRACE) with true.
    cbn iota. rewrite define_property_fresh by exact Fresh.
    rewrite Rv'. reflexivity.
  - cbn [List.map app].
    rewrite (read_plain_element v _ fuel Rv) by (reflexivity || lia).
    cbn [app skip_ws]. change (is_json_ws COMMA) with false. cbn iota.
    change (COMMA =? COMMA) with true. cbn iota.
    rewrite define_property_fresh by exact Fresh.
    rewrite (IH Hd' rest (acc ++ [(k, revive_element v)]) fuel).
    + rewrite <- app_assoc, Rv'. reflexivity.
    + discriminate.
    + rewrite map_app, <- app_assoc. exact U.
    + lia.
Qed.

Lemma plain_bracket_text (opening closing : code_unit) (items rest : jsstring) :
  (opening :: items ++ [closing]) ++ rest = opening :: items ++ closing :: rest.
Proof. cbn [app]. rewrite <- app_assoc. reflexivity. Qed.

(** The reader returns [revive v] on the text that [JSON.stringify(v)]
    writes, under the same provisos as for the indented text. *)
Lemma read_plain (v : value) :
  well_formed v = true ->
  forallb reads_back (numbers_of v) = true ->
  reads_plain v.
Proof.
  induction v as [| |b|x|s|elems IH|props IH] using value_induction;
    intros W N text rest fuel S E F.
  - discriminate.
  - inversion S; subst. destruct fuel; [simpl in F; lia|reflexivity].
  - inversion S; subst. destruct fuel; [simpl in F; lia|]. destruct b; reflexivity.
  - cbn [serialize_plain] in S. cbn [numbers_of] in N. cbn [revive].
    destruct fuel; [simpl in F; lia|].
    destruct (PrimFloat.is_finite x); inversion S; subst; [|reflexivity].
    cbn [forallb] in N. rewrite andb_true_r in N.
    pose proof (reads_back_scan x rest N E) as Sc.
    destruct (scan_number_head _ _ _ Sc) as (c & s' & Hs & Hc).
    rewrite Hs in *. rewrite (parse_value_number fuel c s' Hc), Sc. reflexivity.
  - inversion S; subst. destruct fuel; [simpl in F; lia|].
    unfold QuoteJSONString. cbn [app]. rewrite parse_value_string.
    rewrite <- app_assoc. cbn [app]. rewrite parse_chars_quote_chars. reflexivity.
  - rewrite serialize_plain_array in S. inversion S; subst; clear S.
    cbn [reading_fuel] in F. destruct fuel as [|fuel]; [lia|].
    cbn [well_formed] in W. cbn [numbers_of] in N. rewrite forallb_flat_map in N.
    rewrite forallb_forall in W, N.
    assert (R : Forall reads_plain elems).
    { rewrite Forall_forall in *. intros e He. apply IH; auto. }
    rewrite plain_bracket_text, parse_value_array.
    destruct elems as [|e es]; [reflexivity|].
    pose proof (plain_text_starts e (N e (or_introl eq_refl))) as St.
    pose proof (read_plain_elements (e :: es) R rest [] fuel
                  ltac:(discriminate) ltac:(lia)) as Re.
    cbn [List.map] in *.
    remember (join _ _ ++ _) as X eqn:EX in *.
    assert (SX : starts_value X = true).
    { subst X. rewrite join_cons, <- app_assoc. apply starts_value_app, St. }
    destruct (starts_value_inv X SX) as (c & r & -> & Hw & Hc & _).
    cbn [skip_ws]. rewrite Hw, Hc. exact Re.
  - rewrite serialize_plain_object in S. inversion S; subst; clear S.
    rewrite revive_object.
    cbn [reading_fuel] in F. destruct fuel as [|fuel]; [lia|].
    cbn [well_formed] in W. apply andb_true_iff in W. destruct W as [U W].
    cbn [numbers_of] in N. rewrite forallb_flat_map in N.
    rewrite forallb_forall in W, N.
    assert (R : Forall (fun p => reads_plain (snd p)) (List.filter holds_value props)).
    { rewrite Forall_forall in *. intros p Hp. apply filter_In in Hp.
      destruct Hp as [Hp _]. apply IH; auto. }
    assert (D : Forall (fun p => holds_value p = true) (List.filter holds_value props)).
    { rewrite Forall_forall. intros p Hp. apply filter_In in Hp. tauto. }
    assert (K : NoDup (List.map fst (List.filter holds_value props))).
    { apply keys_unique_NoDup in U. clear -U.
      induction props as [|[k w] props IHp]; [constructor|].
      inversion U; subst. cbn [List.filter]. destruct (holds_value (k, w)); auto.
      cbn [List.map fst]. constructor; auto.
      intros Hin. apply H1. apply in_map_iff in Hin. destruct Hin as (p & <- & Hp).
      apply filter_In in Hp. apply in_map. tauto. }
    assert (Fu : (list_sum (List.map (fun p => S (reading_fuel (snd p)))
                              (List.filter holds_value props)) <= fuel)%nat).
    { pose proof (list_sum_filter _ (fun p => S (reading_fuel (snd p))) holds_value props).
      lia. }
    rewrite plain_bracket_text, parse_value_object.
    destruct (List.filter holds_value props) as [|[k w] ps]; [reflexivity|].
    pose proof (read_plain_members ((k, w) :: ps) R D rest [] fuel
                  ltac:(discriminate) K Fu) as Rm.
    cbn [List.map] in *.
    remember (join _ _ ++ _) as X eqn:EX in *.
    assert (SX : starts_value X = true).
    { subst X. rewrite join_cons, <- app_assoc. reflexivity. }
    destruct (starts_value_inv X SX) as (c & r & -> & Hw & _ & Hc).
    cbn [skip_ws]. rewrite Hw, Hc. exact Rm.
Qed.

(** [JSON.parse(JSON.stringify(v))] is [revive v]. *)
Lemma JSON_parse_stringify_plain (v : value) (text : jsstring) :
  well_formed v = true ->
  forallb reads_back (numbers_of v) = true ->
  serialize_plain v = Some text ->
  JSON_parse text = Some (revive v).
Proof.
  intros W N S. unfold JSON_parse.
  pose proof (read_plain v W N text [] (reading_fuel v) S eq_refl (Nat.le_refl _)) as R.
  rewrite app_nil_r in R. rewrite (value_fuel_irrelevant _ _ _ _ R). reflexivity.
Qed.

End ReadPlain.

(* ================================================================== *)
(** * The poster templates *)
(* ================================================================== *)

Lemma isValidPosterSize_spec (v : value) :
  isValidPosterSize v = true <-> valid_size v.
Proof.
  unfold isValidPosterSize, valid_size.
  rewrite <- !isPositiveNumber_spec, <- !isString_spec.
  unfold isPositiveNumber, isString. split.
  - destruct (negb (type_tag_eqb (typeof v) TObject) || strict_equal v VNull);
      [discriminate|].
    rewrite !andb_true_iff. intros ((((((((A & B) & C) & D) & E) & F) & G) & H) & I).
    repeat split; assumption.
  - intros (A & B & C & D & E).
    apply andb_true_iff in D, E. destruct D as [D1 D2], E as [E1 E2].
    destruct v as [| |b|x|s|elems|props]; try discriminate A.
    cbn [typeof type_tag_eqb negb orb strict_equal].
    rewrite A, B, C. cbn [andb].
    destruct (get (js "width") (VObject props)); try discriminate.
    destruct (get (js "height") (VObject props)); try discriminate.
    cbn [isNumber] in D1, E1. cbn [typeof type_tag_eqb Number_isFinite greater_than_zero].
    rewrite D1, D2, E1, E2. reflexivity.
Qed.

(** X8. A template passes [isValidPosterSize] exactly when its id, label
    and color are strings and its width and height are finite numbers above
    zero; other fields are not looked at; and what passes is an object,
    never [null], an array or a primitive value. *)
Theorem template_guard_exactly (v : value) :
  (isValidPosterSize v = true <-> valid_size v) /\
  (isValidPosterSize v = true -> exists props, v = VObject props) /\
  (forall props k w,
      v = VObject props ->
      existsb (jsstring_eqb k) size_fields = false ->
      isValidPosterSize (VObject (define_property props k w)) = isValidPosterSize v).
Proof.
  split; [apply isValidPosterSize_spec|split].
  - intros H. apply isValidPosterSize_spec in H. destruct H as [[s H] _].
    destruct v; try discriminate. eauto.
  - intros props k w -> N.
    assert (G : forall f, In f size_fields ->
                          get f (VObject (define_property props k w))
                          = get f (VObject props)).
    { intros f I. apply get_define_other. eapply not_field; eassumption. }
    unfold isValidPosterSize. cbn [typeof type_tag_eqb negb orb strict_equal].
    rewrite !G by (unfold size_fields; cbn [In]; tauto). reflexivity.
Qed.

Section StoredTemplates.
Context {host : HostNumbers}.

Lemma default_sizes_valid : forallb isValidPosterSize DEFAULT_SIZES = true.
Proof. reflexivity. Qed.

Lemma loaded_sizes_valid (read : storage_read) :
  forallb isValidPosterSize (loadPosterSizesFromStorage read) = true.
Proof.
  destruct read as [| |raw]; cbn [loadPosterSizesFromStorage]; try reflexivity.
  destruct (negb (ToBoolean (VString raw))); [reflexivity|].
  destruct (JSON_parse raw) as [[| |b|x|s|elems|props]|]; try reflexivity.
  destruct (forallb isValidPosterSize elems) eqn:V; [exact V|reflexivity].
Qed.

(** X9. Whatever the storage holds, [loadPosterSizesFromStorage] returns
    valid templates only. It returns the stored list when the stored string
    is the JSON text of an array whose elements all pass the guard, the
    empty array included, and the built-in default in every other case: the
    storage throws, holds nothing or the empty string, the string is no
    JSON text, its value is no array, or one element fails the guard. *)
Theorem loaded_templates_valid (read : storage_read) :
  Forall valid_size (loadPosterSizesFromStorage read) /\
  (forall raw elems,
      read = ReadString raw ->
      JSON_parse raw = Some (VArray elems) ->
      loadPosterSizesFromStorage read
      = if forallb isValidPosterSize elems then elems else DEFAULT_SIZES) /\
  ((forall raw elems, read = ReadString raw -> JSON_parse raw <> Some (VArray elems)) ->
   loadPosterSizesFromStorage read = DEFAULT_SIZES).
Proof.
  split; [|split].
  - apply Forall_forall. intros v I. apply isValidPosterSize_spec.
    pose proof (loaded_sizes_valid read) as V. rewrite forallb_forall in V.
    exact (V v I).
  - intros raw elems -> P. cbn [loadPosterSizesFromStorage].
    destruct raw as [|c raw]; [rewrite JSON_parse_empty in P; discriminate|].
    cbn [ToBoolean negb]. rewrite P. reflexivity.
  - intros H. destruct read as [| |raw]; try reflexivity.
    cbn [loadPosterSizesFromStorage].
    destruct (negb (ToBoolean (VString raw))); [reflexivity|].
    destruct (JSON_parse raw) as [[| |b|x|s|elems|props]|] eqn:P; try reflexivity.
    exfalso. exact (H raw elems eq_refl P).
Qed.

(** The verdict of the template guard survives writing and reading. *)
Lemma isValidPosterSize_revive (v : value) :
  well_formed v = true ->
  forallb reads_back (numbers_of v) = true ->
  isValidPosterSize (revive v) = isValidPosterSize v.
Proof.
  intros W N.
  assert (T : forall u, isValidPosterSize u
                        = isRecord u &&
                          (isString (get (js "id") u) &&
                           isString (get (js "label") u) &&
                           isString (get (js "color") u) &&
                           isPositiveNumber (get (js "width") u) &&
                           isPositiveNumber (get (js "height") u))).
  { intros u. unfold isValidPosterSize, isRecord, isString, isPositiveNumber.
    destruct u; try reflexivity.
    cbn [typeof type_tag_eqb negb orb strict_equal andb].
    destruct (get (js "width") (VObject props)), (get (js "height") (VObject props));
      cbn [typeof type_tag_eqb Number_isFinite greater_than_zero isNumber andb];
      rewrite ?andb_false_r, ?andb_true_r, <- ?andb_assoc; reflexivity. }
  rewrite !T, isRecord_revive, !(string_guard_survives v W).
  rewrite !(proj2 (number_guards_survive v W N _)). reflexivity.
Qed.

Lemma size_survives (v : value) :
  well_formed v = true ->
  forallb reads_back (numbers_of v) = true ->
  valid_size v -> same_fields size_fields (revive v) v = true.
Proof.
  intros W N (A1 & A2 & A3 & A4 & A5).
  destruct (string_field_survives v W _ A1) as [_ C1].
  destruct (string_field_survives v W _ A2) as [_ C2].
  destruct (string_field_survives v W _ A3) as [_ C3].
  destruct (positive_field_survives v W N _ A4) as [_ C4].
  destruct (positive_field_survives v W N _ A5) as [_ C5].
  unfold same_fields, size_fields. cbn [forallb].
  rewrite C1, C2, C3, C4, C5. reflexivity.
Qed.

Lemma sizes_survive (sizes : list value) :
  forallb well_formed sizes = true ->
  forallb reads_back (List.flat_map numbers_of sizes) = true ->
  let sizes' := List.map (fun e => match e with
                                   | VUndefined => VNull
                                   | _ => revive e
                                   end) sizes in
  forallb isValidPosterSize sizes' = forallb isValidPosterSize sizes /\
  (forallb isValidPosterSize sizes = true -> same_sizes sizes' sizes = true).
Proof.
  induction sizes as [|p ps IH]; intros W N; [split; reflexivity|].
  cbn [forallb List.flat_map] in W, N. rewrite forallb_app in N.
  apply andb_true_iff in W, N. destruct W as [Wp W], N as [Np N].
  destruct (IH W N) as [IH1 IH2]. cbn zeta in *.
  cbn [List.map forallb same_sizes].
  assert (E : isValidPosterSize match p with VUndefined => VNull | _ => revive p end
              = isValidPosterSize p).
  { destruct p; try (apply isValidPosterSize_revive; assumption). reflexivity. }
  rewrite E, IH1. split; [reflexivity|].
  intros V. apply andb_true_iff in V. destruct V as [Vp V].
  rewrite (IH2 V), andb_true_r.
  replace (match p with VUndefined => VNull | _ => revive p end) with (revive p)
    by (destruct p; try reflexivity; discriminate).
  apply size_survives; try assumption. apply isValidPosterSize_spec, Vp.
Qed.

(** X10. The templates survive a reload of the page: the list that the
    effect stores with [JSON.stringify] is, when every template passes the
    guard, what [loadPosterSizesFromStorage] returns, equal field for field
    and in the same order; an empty list comes back empty. If a single
    template fails the guard, the whole list is replaced by the built-in
    default. *)
Theorem templates_survive_reload (posterSizes : list value) :
  forallb well_formed posterSizes = true ->
  forallb reads_back (List.flat_map numbers_of posterSizes) = true ->
  let loaded := loadPosterSizesFromStorage (ReadString (stored_sizes posterSizes)) in
  (forallb isValidPosterSize posterSizes = true ->
   same_sizes loaded posterSizes = true) /\
  (forallb isValidPosterSize posterSizes = false -> loaded = DEFAULT_SIZES).
Proof.
  intros W N loaded. subst loaded.
  assert (P : JSON_parse (stored_sizes posterSizes) = Some (revive (VArray posterSizes))).
  { apply JSON_parse_stringify_plain; [exact W|exact N|reflexivity]. }
  assert (T : negb (ToBoolean (VString (stored_sizes posterSizes))) = false).
  { reflexivity. }
  cbn [loadPosterSizesFromStorage]. rewrite T, P. cbn [revive].
  destruct (sizes_survive posterSizes W N) as [V S]. cbn zeta in V, S.
  rewrite V. split; intros H; rewrite H; [exact (S H)|reflexivity].
Qed.

Lemma forallb_map_kept (A : Type) (f : A -> bool) (g : A -> A) (l : list A) :
  (forall a, f a = true -> f (g a) = true) ->
  forallb f l = true -> forallb f (List.map g l) = true.
Proof.
  intros H. induction l as [|a l IH]; [reflexivity|].
  cbn [List.map forallb]. rewrite !andb_true_iff. intros [Ha Hl]. auto.
Qed.

(** One template with its width or height set anew. *)
Lemma updated_size_verdict (props : list (jsstring * value)) (field : jsstring)
  (x : float) :
  In field [js "width"; js "height"] ->
  valid_size (VObject props) ->
  isValidPosterSize (VObject (define_property props field (VNumber x)))
  = isPositiveNumber (VNumber x).
Proof.
  intros Fd (A1 & A2 & A3 & A4 & A5).
  destruct (isPositiveNumber (VNumber x)) eqn:Px.
  - apply isValidPosterSize_spec. unfold valid_size.
    apply isPositiveNumber_spec in Px.
    destruct Fd as [<-|[<-|[]]];
      rewrite ?get_define_same, !get_define_other by reflexivity;
      rewrite ?get_define_same; auto 6.
  - destruct (isValidPosterSize (VObject (define_property props field (VNumber x))))
      eqn:Vx; [|reflexivity].
    apply isValidPosterSize_spec in Vx. destruct Vx as (_ & _ & _ & B4 & B5).
    apply isPositiveNumber_spec in B4, B5.
    destruct Fd as [<-|[<-|[]]]; rewrite get_define_same in *; congruence.
Qed.

Lemma valid_size_object (s : value) :
  isValidPosterSize s = true -> exists props, s = VObject props /\ valid_size s.
Proof.
  intros V. apply isValidPosterSize_spec in V. pose proof V as ([t A] & _).
  destruct s; try discriminate. eauto.
Qed.

(** X11. Setting the width or the height of the templates with a given id
    to a finite number above zero keeps a list of valid templates valid;
    setting it to any other value (zero, a negative number, [NaN]) makes
    the list fail the guard as soon as a template has that id. *)
Theorem updateSize_validity (id field : jsstring) (x : float) (prev : list value) :
  In field [js "width"; js "height"] ->
  forallb isValidPosterSize prev = true ->
  forallb isValidPosterSize (updateSize id field (VNumber x) prev)
  = isPositiveNumber (VNumber x) || negb (existsb (id_is id) prev).
Proof.
  intros Fd V. induction prev as [|s prev IH]; [rewrite orb_true_r; reflexivity|].
  cbn [forallb] in V. apply andb_true_iff in V. destruct V as [Vs V].
  specialize (IH V). cbn [updateSize List.map forallb existsb].
  fold (updateSize id field (VNumber x) prev). rewrite IH.
  destruct (id_is id s) eqn:I.
  - destruct (valid_size_object s Vs) as (props & -> & Vp).
    cbn [spread orb negb]. rewrite orb_false_r.
    rewrite (updated_size_verdict props field x Fd Vp).
    destruct (isPositiveNumber (VNumber x)); reflexivity.
  - rewrite Vs. reflexivity.
Qed.

(** X22. The templates stay valid: starting from what
    [loadPosterSizesFromStorage] returns, whatever the storage held, adding
    custom templates, removing templates and typing widths and heights that
    are finite numbers above zero never produce a template that fails
    [isValidPosterSize]. The list stored after such a change is therefore
    never the cause of a fall-back to the default at the next start. *)
Theorem templates_stay_valid (read : storage_read) (sizes : list value) :
  templates_reached read sizes ->
  forallb isValidPosterSize sizes = true.
Proof.
  assert (U : forall id field x prev,
             In field [js "width"; js "height"] ->
             isPositiveNumber (VNumber x) = true ->
             forallb isValidPosterSize prev = true ->
             forallb isValidPosterSize (updateSize id field (VNumber x) prev) = true).
  { intros id field x prev Fd Px. apply forallb_map_kept.
    intros s Vs. destruct (id_is id s); [|exact Vs].
    destruct (valid_size_object s Vs) as (props & -> & Vp). cbn [spread].
    rewrite (updated_size_verdict props field x Fd Vp). exact Px. }
  induction 1 as [|sizes e R IH T]; [apply loaded_sizes_valid|].
  destruct e as [now|id value|id value|id]; cbn [change_sizes typed_size] in *.
  - unfold addCustomSize. rewrite forallb_app, IH. reflexivity.
  - apply U; [left; reflexivity|exact T|exact IH].
  - apply U; [right; left; reflexivity|exact T|exact IH].
  - unfold removeSize. rewrite forallb_forall in *. intros s I.
    apply filter_In in I. apply IH, I.
Qed.

End StoredTemplates.

(* ================================================================== *)
(** * The posters on the wall *)
(* ================================================================== *)

(** The poster built on a drop, field by field. *)
Lemma newPoster_valid (id : jsstring) (size : value) (x y : float) :
  isValidPosterSize size = true ->
  PrimFloat.is_finite x = true -> PrimFloat.is_finite y = true ->
  valid_poster (newPoster id size x y).
Proof.
  intros V Fx Fy. apply isValidPosterSize_spec in V.
  destruct V as (A1 & A2 & _ & A4 & A5). unfold valid_poster, newPoster.
  change (get (js "id") (VObject _)) with (VString id).
  change (get (js "sizeId") (VObject _)) with (get (js "id") size).
  change (get (js "label") (VObject _)) with (get (js "label") size).
  change (get (js "x") (VObject _)) with (VNumber x).
  change (get (js "y") (VObject _)) with (VNumber y).
  change (get (js "width") (VObject _)) with (get (js "width") size).
  change (get (js "height") (VObject _)) with (get (js "height") size).
  change (has_property (js "imageSrc") (VObject _)) with false.
  repeat match goal with |- _ /\ _ => split end; try assumption.
  - exists id. reflexivity.
  - exists x. auto.
  - exists y. auto.
  - left. reflexivity.
Qed.

(** What [{ ...poster, x, y }] holds. *)
Lemma placed_other (k : jsstring) (p : value) (x y : float) :
  jsstring_eqb k (js "x") = false -> jsstring_eqb k (js "y") = false ->
  get k (placed p x y) = get k p /\
  has_property k (placed p x y) = has_property k p.
Proof.
  intros Nx Ny. unfold placed.
  rewrite (get_define_other _ _ _ _ Ny), (get_define_other _ _ _ _ Nx).
  rewrite (has_define_other _ _ _ _ Ny), (has_define_other _ _ _ _ Nx).
  destruct p; split; reflexivity.
Qed.

Lemma placed_position (p : value) (x y : float) :
  get (js "x") (placed p x y) = VNumber x /\
  get (js "y") (placed p x y) = VNumber y.
Proof.
  unfold placed. split.
  - rewrite get_define_other by reflexivity. apply get_define_same.
  - apply get_define_same.
Qed.

Lemma placed_valid (p : value) (x y : float) :
  PrimFloat.is_finite x = true -> PrimFloat.is_finite y = true ->
  valid_poster p -> valid_poster (placed p x y).
Proof.
  intros Fx Fy (A1 & A2 & A3 & _ & _ & A6 & A7 & A8). unfold valid_poster.
  destruct (placed_position p x y) as [Px Py]. rewrite Px, Py.
  rewrite (proj1 (placed_other (js "id") p x y eq_refl eq_refl)).
  rewrite (proj1 (placed_other (js "sizeId") p x y eq_refl eq_refl)).
  rewrite (proj1 (placed_other (js "label") p x y eq_refl eq_refl)).
  rewrite (proj1 (placed_other (js "width") p x y eq_refl eq_refl)).
  rewrite (proj1 (placed_other (js "height") p x y eq_refl eq_refl)).
  rewrite (proj1 (placed_other (js "imageSrc") p x y eq_refl eq_refl)).
  rewrite (proj2 (placed_other (js "imageSrc") p x y eq_refl eq_refl)).
  repeat match goal with |- _ /\ _ => split end; try assumption.
  - exists x. auto.
  - exists y. auto.
Qed.

(** What [{ ...poster, imageSrc }] holds. *)
Lemma pictured_other (k : jsstring) (p : value) (src : jsstring) :
  jsstring_eqb k (js "imageSrc") = false ->
  get k (pictured p src) = get k p.
Proof.
  intros N. unfold pictured. rewrite (get_define_other _ _ _ _ N).
  destruct p; reflexivity.
Qed.

Lemma pictured_valid (p : value) (src : jsstring) :
  valid_poster p -> valid_poster (pictured p src).
Proof.
  intros (A1 & A2 & A3 & A4 & A5 & A6 & A7 & _). unfold valid_poster.
  rewrite !pictured_other by reflexivity.
  repeat match goal with |- _ /\ _ => split end; try assumption.
  right; right. unfold pictured. rewrite get_define_same. exists src. reflexivity.
Qed.

Lemma id_is_placed (id : jsstring) (p : value) (x y : float) :
  id_is id (placed p x y) = id_is id p.
Proof.
  unfold id_is. rewrite (proj1 (placed_other (js "id") p x y eq_refl eq_refl)).
  reflexivity.
Qed.

Lemma id_is_pictured (id : jsstring) (p : value) (src : jsstring) :
  id_is id (pictured p src) = id_is id p.
Proof. unfold id_is. rewrite pictured_other by reflexivity. reflexivity. Qed.

Lemma existsb_map_same (A : Type) (f : A -> bool) (g : A -> A) (l : list A) :
  (forall a, f (g a) = f a) -> existsb f (List.map g l) = existsb f l.
Proof.
  intros H. induction l as [|a l IH]; [reflexivity|].
  cbn [List.map existsb]. rewrite H, IH. reflexivity.
Qed.

Lemma find_existsb (A : Type) (f : A -> bool) (l : list A) :
  existsb f l = true -> List.find f l <> None.
Proof.
  induction l as [|a l IH]; [discriminate|]. cbn [existsb List.find].
  destruct (f a); [discriminate|exact IH].
Qed.

Lemma id_is_filter (id : jsstring) (l : list value) :
  existsb (id_is id) (List.filter (fun p => negb (id_is id p)) l) = false.
Proof.
  induction l as [|p l IH]; [reflexivity|]. cbn [List.filter].
  destruct (id_is id p) eqn:E; cbn [negb]; [exact IH|].
  cbn [existsb]. rewrite E, IH. reflexivity.
Qed.

Section EditorProperties.
Context {host : HostNumbers}.
Variable Image : Type.

Local Abbreviation editor := (editor Image).

(** X12. A drop of a valid template, at a position that snaps to finite
    coordinates, appends one poster to the wall, after the others, and that
    poster passes the import guard [isPoster]: it has the id made for it,
    lies at the snapped coordinates, takes sizeId, width, height and label
    from the template, and carries no image, so that no load would be
    started for it. Without a dragged template the drop changes nothing. *)
Theorem dropped_poster_is_valid (size : value) (id : jsstring)
  (pointerX pointerY : float) (st : editor) :
  let x := snapped_x pointerX (number_field (js "width") size) (wallSettings st) in
  let y := snapped_y pointerY (number_field (js "height") size) (wallSettings st) in
  isValidPosterSize size = true ->
  PrimFloat.is_finite x = true -> PrimFloat.is_finite y = true ->
  exists poster,
    wallPosters (handleCanvasDrop Image (Some size) id pointerX pointerY st)
    = wallPosters st ++ [poster] /\
    isPoster poster = true /\
    get (js "id") poster = VString id /\
    get (js "x") poster = VNumber x /\
    get (js "y") poster = VNumber y /\
    get (js "sizeId") poster = get (js "id") size /\
    get (js "width") poster = get (js "width") size /\
    get (js "height") poster = get (js "height") size /\
    get (js "label") poster = get (js "label") size /\
    get (js "imageSrc") poster = VUndefined /\
    loadPosterImages [poster] = [] /\
    handleCanvasDrop Image None id pointerX pointerY st = st.
Proof.
  intros x y V Fx Fy. exists (newPoster id size x y).
  split; [reflexivity|]. split; [|repeat split; reflexivity].
  apply isPoster_spec, newPoster_valid; assumption.
Qed.

(** X13. The end of a drag changes the position of the posters with the
    dragged id and nothing else: the wall keeps its length and order, a
    poster with another id is left as it is, a poster with that id gets the
    snapped x and y and keeps every other field, the image field included;
    the selection, the images and the settings are untouched; and when the
    snapped coordinates are finite, a poster that passed the import guard
    still passes it. Two posters that share the id move together. *)
Theorem drag_changes_position_only (posterId : jsstring)
  (nodeX nodeY nodeWidth nodeHeight : float) (st : editor) :
  let st' := handlePosterDragEnd Image posterId nodeX nodeY nodeWidth nodeHeight st in
  let x := snapped_x nodeX nodeWidth (wallSettings st) in
  let y := snapped_y nodeY nodeHeight (wallSettings st) in
  List.length (wallPosters st') = List.length (wallPosters st) /\
  selectedId st' = selectedId st /\
  imageMap st' = imageMap st /\
  wallSettings st' = wallSettings st /\
  forall n p,
    List.nth_error (wallPosters st) n = Some p ->
    exists p',
      List.nth_error (wallPosters st') n = Some p' /\
      (id_is posterId p = false -> p' = p) /\
      (id_is posterId p = true ->
       get (js "x") p' = VNumber x /\
       get (js "y") p' = VNumber y /\
       (forall k,
           jsstring_eqb k (js "x") = false -> jsstring_eqb k (js "y") = false ->
           get k p' = get k p /\ has_property k p' = has_property k p) /\
       (PrimFloat.is_finite x = true -> PrimFloat.is_finite y = true ->
        isPoster p = true -> isPoster p' = true)).
Proof.
  cbn zeta. unfold handlePosterDragEnd. cbn [wallPosters selectedId imageMap wallSettings].
  split; [apply length_map|]. do 3 (split; [reflexivity|]).
  intros n p H. rewrite nth_error_map, H. cbn [option_map].
  eexists. split; [reflexivity|].
  destruct (id_is posterId p); split; intros E; try discriminate; try reflexivity.
  split; [apply placed_position|]. split; [apply placed_position|].
  split; [intros k; apply placed_other|].
  intros Fx Fy V. apply isPoster_spec. apply isPoster_spec in V.
  apply placed_valid; assumption.
Qed.

Lemma image_of_filter_other (k id : jsstring) (map : list (jsstring * Image)) :
  jsstring_eqb k id = false ->
  image_of Image k (List.filter (fun entry => negb (jsstring_eqb id (fst entry))) map)
  = image_of Image k map.
Proof.
  intros N. induction map as [|[a i] map IH]; [reflexivity|].
  cbn [List.filter fst image_of].
  destruct (jsstring_eqb id a) eqn:E; cbn [negb].
  - apply jsstring_eqb_eq in E. subst a. rewrite N. exact IH.
  - cbn [image_of]. rewrite IH. reflexivity.
Qed.

Lemma image_of_filter_same (id : jsstring) (map : list (jsstring * Image)) :
  image_of Image id (List.filter (fun entry => negb (jsstring_eqb id (fst entry))) map)
  = None.
Proof.
  induction map as [|[a i] map IH]; [reflexivity|].
  cbn [List.filter fst]. destruct (jsstring_eqb id a) eqn:E; cbn [negb]; [exact IH|].
  cbn [image_of]. rewrite E. exact IH.
Qed.

Lemma without_image_spec (id k : jsstring) (map : list (jsstring * Image)) :
  image_of Image k (without_image Image id map)
  = if jsstring_eqb k id then None else image_of Image k map.
Proof.
  unfold without_image. destruct (jsstring_eqb k id) eqn:E.
  - apply jsstring_eqb_eq in E. subst k.
    destruct (image_of Image id map) eqn:I; [apply image_of_filter_same|exact I].
  - destruct (image_of Image id map); [apply image_of_filter_other, E|reflexivity].
Qed.

(** X14. Selecting a poster and removing the selection deletes from the
    wall every poster with the selected id and leaves the others in their
    order; no poster with that id is left, nothing is selected afterwards,
    the image stored for the id is dropped and the images of other ids are
    kept. The empty string is the exception: as a selected id it counts as
    no selection, and the removal does nothing. *)
Theorem remove_selected_poster (id : jsstring) (st : editor) :
  let selected := handlePosterSelect Image id st in
  let st' := handleRemoveSelected Image selected in
  match id with
  | [] => st' = selected
  | _ :: _ =>
      wallPosters st' = List.filter (fun p => negb (id_is id p)) (wallPosters st) /\
      on_wall Image id st' = false /\
      selectedId st' = None /\
      (forall k, image_of Image k (imageMap st')
                 = if jsstring_eqb k id then None else image_of Image k (imageMap st)) /\
      wallSettings st' = wallSettings st
  end.
Proof.
  destruct id as [|c id]; [reflexivity|]. cbn zeta.
  unfold handleRemoveSelected, handlePosterSelect, removePoster, on_wall.
  cbn [selectedId id_value ToBoolean negb wallPosters imageMap wallSettings strict_equal].
  rewrite jsstring_eqb_refl.
  split; [reflexivity|]. split; [apply id_is_filter|]. split; [reflexivity|].
  split; [|reflexivity]. intros k. apply without_image_spec.
Qed.

(** The handlers keep the selection on the wall. *)
Lemma selection_kept (st : editor) (e : event Image) :
  (forall id, selectedId st = Some id -> on_wall Image id st = true) ->
  arises Image e st ->
  forall id, selectedId (handle Image e st) = Some id ->
             on_wall Image id (handle Image e st) = true.
Proof.
  intros Inv A id. unfold on_wall in *.
  destruct e as [size pid px py|pid|pid src|pid image|pid nx ny nw nh| |confirmed|text|s'];
    cbn [handle].
  - destruct size as [size|]; cbn [handleCanvasDrop selectedId wallPosters];
      [|apply Inv].
    intros S. rewrite existsb_app, (Inv id S). reflexivity.
  - cbn [handlePosterSelect selectedId wallPosters]. intros S.
    inversion S; subst. exact A.
  - cbn [image_read selectedId wallPosters]. intros S.
    rewrite existsb_map_same; [exact (Inv id S)|].
    intros p. destruct (id_is pid p) eqn:E; [apply id_is_pictured|reflexivity].
  - cbn [image_loaded selectedId wallPosters]. apply Inv.
  - cbn [handlePosterDragEnd selectedId wallPosters]. intros S.
    rewrite existsb_map_same; [exact (Inv id S)|].
    intros p. destruct (id_is pid p) eqn:E; [apply id_is_placed|reflexivity].
  - unfold handleRemoveSelected.
    destruct (negb (ToBoolean (id_value (selectedId st)))); [apply Inv|].
    destruct (selectedId st) as [sel|] eqn:Sel; [|rewrite Sel; discriminate].
    cbn [removePoster selectedId id_value strict_equal]. rewrite Sel.
    cbn [id_value strict_equal]. rewrite jsstring_eqb_refl. discriminate.
  - destruct confirmed; cbn [clearWall selectedId]; [discriminate|apply Inv].
  - unfold importJSON.
    destruct (parseWallData_run text); cbn [error data failure orb state_after];
      try apply Inv.
    cbn [selectedId]. discriminate.
  - cbn [setSettings selectedId wallPosters]. apply Inv.
Qed.

(** X15. The selection never dangles: in every state the editor reaches,
    by drops, clicks on the posters of the wall, drags, image uploads and
    image loads in any order, removals, clearing, imports and changes of
    the settings, the selected
    id, when there is one, is the id of a poster on the wall, and
    [selectedPoster] finds that poster. *)
Theorem selection_stays_on_wall (s : value) (st : editor) (id : jsstring) :
  editing Image s st ->
  selectedId st = Some id ->
  on_wall Image id st = true /\
  exists poster,
    selectedPoster Image st = Some poster /\ get (js "id") poster = VString id.
Proof.
  intros E S.
  assert (Inv : forall k, selectedId st = Some k -> on_wall Image k st = true).
  { clear id S. induction E as [|st e E IH A]; [discriminate|].
    apply selection_kept; assumption. }
  split; [exact (Inv id S)|].
  pose proof (find_existsb _ _ _ (Inv id S)) as F.
  unfold selectedPoster. rewrite S. cbn [id_value]. unfold id_is in F.
  destruct (List.find _ (wallPosters st)) as [poster|] eqn:Fd; [|congruence].
  exists poster. split; [reflexivity|].
  apply find_some in Fd. destruct Fd as [_ Eq].
  destruct (get (js "id") poster); try discriminate.
  cbn [strict_equal] in Eq. apply jsstring_eqb_eq in Eq. subst. reflexivity.
Qed.

(** The handlers keep the posters of the wall valid. *)
Lemma validity_kept (st : editor) (e : event Image) :
  forallb isPoster (wallPosters st) = true ->
  sound Image e st ->
  forallb isPoster (wallPosters (handle Image e st)) = true.
Proof.
  intros Inv So.
  destruct e as [size pid px py|pid|pid src|pid image|pid nx ny nw nh| |confirmed|text|s'];
    cbn [handle].
  - destruct size as [size|]; cbn [handleCanvasDrop wallPosters]; [|exact Inv].
    destruct So as (V & Fx & Fy). rewrite forallb_app, Inv. cbn [forallb].
    rewrite (proj2 (isPoster_spec _) (newPoster_valid pid size _ _ V Fx Fy)).
    reflexivity.
  - exact Inv.
  - cbn [image_read wallPosters]. apply forallb_map_kept; [|exact Inv].
    intros p V. destruct (id_is pid p); [|exact V].
    apply isPoster_spec, pictured_valid, isPoster_spec, V.
  - exact Inv.
  - cbn [handlePosterDragEnd wallPosters]. destruct So as [Fx Fy].
    apply forallb_map_kept; [|exact Inv].
    intros p V. destruct (id_is pid p); [|exact V].
    apply isPoster_spec, placed_valid; try assumption. apply isPoster_spec, V.
  - unfold handleRemoveSelected.
    destruct (negb (ToBoolean (id_value (selectedId st)))); [exact Inv|].
    destruct (selectedId st) as [sel|]; [|exact Inv].
    cbn [removePoster wallPosters]. rewrite forallb_forall in *.
    intros p I. apply filter_In in I. apply Inv, I.
  - destruct confirmed; [reflexivity|exact Inv].
  - unfold importJSON.
    destruct (parseWallData_run text); cbn [error data failure orb state_after];
      try exact Inv.
    cbn [wallPosters posters]. assumption.
  - exact Inv.
Qed.

(** X16. As long as templates are dropped while they are valid and the
    coordinates that drops and drags snap to are finite, every poster on the wall
    passes the import guard, whatever else happens (uploads, removals,
    imports); the exported file is then accepted on import exactly when the
    settings pass their guard, and is reported as [invalid-settings]
    otherwise, never as [invalid-posters]. *)
Theorem wall_stays_importable (s : value) (st : editor) :
  sound_editing Image s st ->
  forallb isPoster (wallPosters st) = true /\
  (well_formed (wall_document {| settings := wallSettings st;
                                 posters := wallPosters st |}) = true ->
   forallb reads_back
     (numbers_of (wall_document {| settings := wallSettings st;
                                   posters := wallPosters st |})) = true ->
   error (parseWallData (exportJSON Image st))
   = if isSettings (wallSettings st) then None else Some invalid_settings).
Proof.
  intros E.
  assert (V : forallb isPoster (wallPosters st) = true).
  { induction E as [|st e E IH So]; [reflexivity|]. apply validity_kept; assumption. }
  split; [exact V|]. intros W N. unfold exportJSON.
  rewrite (import_of_export _ W N). cbn [settings posters]. rewrite V.
  destruct (isSettings (wallSettings st)); reflexivity.
Qed.

(** X17. An import that fails leaves the editor as it was and shows the
    message of the reported reason; an import that succeeds replaces the
    settings and the wall by those of the document, clears the selection
    and the images, shows no message, and starts the image loads of the
    document's posters. The fall-back message for a result without error
    and without data is never shown. *)
Theorem import_replaces_or_keeps (text : jsstring) (st : editor) :
  let outcome := importJSON Image text st in
  match error (parseWallData text) with
  | Some e =>
      state_after outcome = st /\
      alert outcome = Some (IMPORT_ERROR_MESSAGES e) /\
      loads outcome = []
  | None =>
      exists d,
        data (parseWallData text) = Some d /\
        state_after outcome
        = {| wallSettings := settings d; wallPosters := posters d;
             imageMap := []; selectedId := None |} /\
        alert outcome = None /\
        loads outcome = loadPosterImages (posters d)
  end.
Proof.
  cbn zeta. unfold importJSON.
  destruct (parseWallData_run text); cbn [error data failure orb];
    try (repeat split; reflexivity).
  eexists. repeat split; reflexivity.
Qed.

End EditorProperties.

(* ================================================================== *)
(** * The further properties on concrete data *)
(* ================================================================== *)

(** X2, on the wall without posters, behind spaces and before a line feed,
    a no-break space and a byte order mark. *)
Lemma surrounding_white_space_ignored_witness :
  parseWallData (js "  " ++ bare_wall_text ++ [LF; 160; 65279])
  = parseWallData bare_wall_text.
Proof. apply surrounding_white_space_ignored; reflexivity. Defined.

(** X3, on an array root and on a number root. *)
Lemma root_kind_decides_witness :
  parseWallData (js "[1,2]") = failure invalid_settings /\
  parseWallData (js "7") = failure invalid_root.
Proof.
  split.
  - eapply (root_kind_decides (js "[1,2]") (VArray _)). reflexivity.
  - eapply (root_kind_decides (js "7") (VNumber _)). reflexivity.
Defined.

(** X4, on valid settings with a poster of width zero. *)
Lemma invalid_posters_exactly_witness :
  exists root,
    JSON_parse (trim zero_width_text) = Some root /\
    error (parseWallData zero_width_text) = Some invalid_posters /\
    exists elems p,
      get (js "posters") root = VArray elems /\ In p elems /\ ~ valid_poster p.
Proof.
  eexists. split; [reflexivity|].
  edestruct (invalid_posters_exactly zero_width_text) as [[H _] _];
    [reflexivity|reflexivity|apply isSettings_spec; reflexivity|].
  destruct (H eq_refl) as [N|X]; [|split; [reflexivity|exact X]].
  exfalso. eapply N. reflexivity.
Defined.

(** X5, on the sample settings and the first poster of the gallery, with a
    field that neither type declares. *)
Lemma unknown_fields_tolerated_witness :
  isSettings (VObject (define_property (spread sample_settings) (js "theme") VNull))
  = isSettings sample_settings /\
  isPoster (VObject (define_property (spread (List.hd VNull gallery)) (js "theme") VNull))
  = isPoster (List.hd VNull gallery).
Proof.
  split.
  - apply (unknown_fields_tolerated (spread sample_settings)). reflexivity.
  - apply (unknown_fields_tolerated (spread (List.hd VNull gallery))). reflexivity.
Defined.

(** X6, on the sample document with a poster of width zero added. *)
Lemma export_reimports_iff_valid_witness :
  error (parseWallData (downloadJsonFile_text flawed_document)) = Some invalid_posters.
Proof.
  destruct (export_reimports_iff_valid flawed_document) as (_ & _ & [_ H] & _);
    [vm_compute; reflexivity ..|].
  apply H. split; reflexivity.
Defined.

(** X7, on the scenario of the specification. *)
Lemma accepted_document_reimports_witness :
  exists d d',
    data (parseWallData scenario_text) = Some d /\
    parseWallData (downloadJsonFile_text d) = {| data := Some d'; error := None |} /\
    same_document d' d = true.
Proof.
  edestruct (accepted_document_reimports scenario_text) as (d' & H1 & H2);
    [vm_compute; reflexivity ..|].
  eexists. exists d'. split; [|split; [exact H1|exact H2]].
  vm_compute; reflexivity.
Defined.

(** X9, on three stored strings: the text of the empty array, the text of
    an object, and the text of an array holding a number. *)
Lemma loaded_templates_valid_witness :
  loadPosterSizesFromStorage (ReadString (js "[]")) = [] /\
  loadPosterSizesFromStorage (ReadString (js "{}")) = DEFAULT_SIZES /\
  loadPosterSizesFromStorage (ReadString (js "[1]")) = DEFAULT_SIZES.
Proof.
  split; [|split].
  - destruct (loaded_templates_valid (ReadString (js "[]"))) as (_ & H & _).
    exact (H (js "[]") [] eq_refl eq_refl).
  - destruct (loaded_templates_valid (ReadString (js "{}"))) as (_ & _ & H).
    apply H. intros raw elems E. inversion E; subst raw. discriminate.
  - destruct (loaded_templates_valid (ReadString (js "[1]"))) as (_ & H & _).
    exact (H (js "[1]") [VNumber 1] eq_refl eq_refl).
Defined.

(** X10, on the built-in template with a custom one. *)
Lemma templates_survive_reload_witness :
  same_sizes (loadPosterSizesFromStorage (ReadString (stored_sizes sample_sizes)))
    sample_sizes = true.
Proof.
  destruct (templates_survive_reload sample_sizes) as [H _];
    [vm_compute; reflexivity ..|].
  apply H. reflexivity.
Defined.

(** X11, on the built-in template: a width of zero, as an emptied input
    field gives it, makes the list fail the guard, and the next reload
    falls back to the default. *)
Lemma updateSize_validity_witness :
  forallb isValidPosterSize (updateSize (js "s5") (js "width") (VNumber 0) DEFAULT_SIZES)
  = false.
Proof.
  rewrite (updateSize_validity (js "s5") (js "width") 0 DEFAULT_SIZES);
    [reflexivity|left; reflexivity|reflexivity].
Defined.

(** X22, from an empty storage: a custom template is added and the width
    of the built-in one is set to 250. *)
Lemma templates_stay_valid_witness :
  forallb isValidPosterSize
    (change_sizes (SetWidth (js "s5") 250)
       (change_sizes (AddCustom 1700000000000)
          (loadPosterSizesFromStorage ReadNull))) = true.
Proof.
  apply (templates_stay_valid ReadNull).
  repeat (apply templates_changed; [|first [exact I|reflexivity]]).
  apply templates_loaded.
Defined.

(** X12, on a drop of the custom template on the empty wall: the pointer
    at 33 and 47 snaps to 40 and 40 on the grid of 20. *)
Lemma dropped_poster_is_valid_witness :
  exists poster,
    wallPosters (handleCanvasDrop unit (Some custom_size) (js "poster-1-0.25") 33 47
                   (initial unit sample_settings)) = [poster] /\
    isPoster poster = true /\
    get (js "x") poster = VNumber 40 /\
    get (js "y") poster = VNumber 40 /\
    get (js "width") poster = VNumber 297.
Proof.
  destruct (dropped_poster_is_valid unit custom_size (js "poster-1-0.25") 33 47
              (initial unit sample_settings) eq_refl eq_refl eq_refl)
    as (poster & H1 & H2 & _ & H3 & H4 & _ & H5 & _).
  exists poster. split; [exact H1|]. split; [exact H2|].
  split; [exact H3|]. split; [exact H4|exact H5].
Defined.

(** X15, at the end of the sample session: the first poster is selected,
    and found. *)
Lemma selection_stays_on_wall_witness :
  selectedId session_end = Some (js "poster-1-0.25") /\
  on_wall unit (js "poster-1-0.25") session_end = true /\
  exists poster,
    selectedPoster unit session_end = Some poster /\
    get (js "id") poster = VString (js "poster-1-0.25").
Proof.
  split; [reflexivity|].
  apply (selection_stays_on_wall unit sample_settings); [|reflexivity].
  unfold session_end, sample_session. cbn [replay].
  repeat (apply editing_step; [|first [exact I|reflexivity]]).
  apply editing_start.
Defined.

(** X16, at the end of the sample session. *)
Lemma wall_stays_importable_witness :
  forallb isPoster (wallPosters session_end) = true /\
  error (parseWallData (exportJSON unit session_end)) = None.
Proof.
  destruct (wall_stays_importable unit sample_settings session_end) as [V H].
  - unfold session_end, sample_session. cbn [replay].
    repeat (apply sound_step;
            [|first [exact I|split; [reflexivity|split; reflexivity]
                    |split; reflexivity]]).
    apply sound_start.
  - split; [exact V|]. rewrite H; [reflexivity|vm_compute; reflexivity ..].
Defined.

(* ================================================================== *)
(** * Snapping to the grid *)
(* ================================================================== *)

Lemma SFeqb_same (s : bool) (m : positive) (e : Z) :
  SFeqb (S754_finite s m e) (S754_finite s m e) = true.
Proof.
  unfold SFeqb, SFcompare. rewrite Z.compare_refl.
  destruct s; rewrite Pos.compare_cont_refl; reflexivity.
Qed.

(** The finite numbers are the zeros and the numbers [m * 2^e]. *)
Lemma is_finite_SF (x : float) :
  PrimFloat.is_finite x
  = match Prim2SF x with
    | S754_zero _ | S754_finite _ _ _ => true
    | _ => false
    end.
Proof.
  unfold PrimFloat.is_finite, PrimFloat.is_nan, PrimFloat.is_infinity.
  rewrite !eqb_spec, abs_spec.
  change (Prim2SF infinity) with (S754_infinity false).
  destruct (Prim2SF x) as [s|s| |s m e]; try (destruct s; reflexivity);
    try reflexivity.
  rewrite SFeqb_same. reflexivity.
Qed.

Lemma is_zero_SF (x : float) :
  PrimFloat.is_zero x
  = match Prim2SF x with
    | S754_zero _ => true
    | _ => false
    end.
Proof.
  unfold PrimFloat.is_zero. rewrite eqb_spec.
  change (Prim2SF zero) with (S754_zero false).
  destruct (Prim2SF x) as [s|s| |s m e]; try (destruct s; reflexivity); reflexivity.
Qed.

(** [Math.round] returns the zeros, the infinities and [NaN] as they are. *)
Lemma Math_round_special (q : float) :
  match Prim2SF q with S754_finite _ _ _ => False | _ => True end ->
  Math_round q = q.
Proof.
  unfold Math_round. destruct (Prim2SF q); [reflexivity ..|contradiction].
Qed.

(** X19. [snapToGrid] yields a finite number only from a finite value and a
    grid step that is finite and not zero: with a step of zero, of infinite
    size or [NaN] the result is [NaN] or infinite for every value, so that
    the snapped coordinate would fail the guards [isNumber] of the import.
    A grid step that [isSettings] accepts is finite and above zero, and so
    never such a step. *)
Theorem snapToGrid_finite_only_if (value gridStep : float) :
  (isNumber (VNumber (snapToGrid value gridStep)) = true ->
   PrimFloat.is_finite value = true /\
   PrimFloat.is_finite gridStep = true /\
   PrimFloat.is_zero gridStep = false) /\
  (isPositiveNumber (VNumber gridStep) = true ->
   PrimFloat.is_finite gridStep = true /\ PrimFloat.is_zero gridStep = false).
Proof.
  split.
  - cbn [isNumber]. rewrite !is_finite_SF, is_zero_SF. unfold snapToGrid.
    rewrite mul_spec. pose proof (div_spec value gridStep) as Q.
    destruct (Prim2SF value) as [sv|sv| |sv mv ev],
             (Prim2SF gridStep) as [sg|sg| |sg mg eg];
      try (intros _; repeat split; reflexivity);
      cbn in Q; rewrite Math_round_special by (rewrite Q; exact I);
      rewrite Q; cbn; discriminate.
  - unfold isPositiveNumber. cbn [isNumber]. rewrite andb_true_iff.
    intros [F P]. split; [exact F|]. rewrite is_zero_SF. rewrite ltb_spec in P.
    change (Prim2SF 0%float) with (S754_zero false) in P.
    destruct (Prim2SF gridStep) as [s|s| |s m e]; try reflexivity.
    destruct s; discriminate P.
Qed.

(** ** The sign of a snapped coordinate *)

Lemma binary_round_aux_sign (mx ex : Z) (lx : location) :
  sign_clear (binary_round_aux prec emax false mx ex lx) = true.
Proof.
  unfold binary_round_aux.
  destruct (shr_fexp prec emax mx ex lx) as [mrs' e'].
  destruct (shr_fexp prec emax _ e' loc_Exact) as [mrs'' e''].
  destruct (shr_m mrs'') as [|m|m]; [reflexivity| |reflexivity].
  destruct (e'' <=? emax - prec)%Z; reflexivity.
Qed.

Lemma SFdiv_sign (x : spec_float) (m : positive) (e : Z) :
  sign_clear x = true ->
  sign_clear (SF64div x (S754_finite false m e)) = true.
Proof.
  unfold SF64div, SFdiv.
  destruct x as [s|s| |s mx ex]; cbn [sign_clear]; intros S;
    try (destruct s; [discriminate|reflexivity]); try reflexivity.
  destruct s; [discriminate|].
  destruct (SFdiv_core_binary prec emax (Z.pos mx) ex (Z.pos m) e) as [[mz ez] lz].
  apply binary_round_aux_sign.
Qed.

Lemma SFmul_sign (x : spec_float) (m : positive) (e : Z) :
  sign_clear x = true ->
  sign_clear (SF64mul x (S754_finite false m e)) = true.
Proof.
  unfold SF64mul, SFmul.
  destruct x as [s|s| |s mx ex]; cbn [sign_clear]; intros S;
    try (destruct s; [discriminate|reflexivity]); try reflexivity.
  destruct s; [discriminate|].
  apply binary_round_aux_sign.
Qed.

Lemma of_integer_sign (n : Z) :
  (0 <= n)%Z -> sign_clear (Prim2SF (of_integer n)) = true.
Proof.
  intros P. unfold of_integer.
  replace (n <? 0)%Z with false by (symmetry; apply Z.ltb_ge, P).
  rewrite of_uint63_spec. unfold binary_normalize.
  pose proof (Uint63.to_Z_bounded (Uint63.of_Z (Z.abs n))) as B.
  destruct (Uint63Axioms.to_Z (Uint63.of_Z (Z.abs n))) as [|p|p]; [reflexivity| |lia].
  unfold binary_round.
  destruct (shl_align p 0 (fexp prec emax (Z.pos (digits2_pos p) + 0))) as [mz ez].
  apply binary_round_aux_sign.
Qed.

Lemma Math_round_sign (q : float) :
  sign_clear (Prim2SF q) = true -> sign_clear (Prim2SF (Math_round q)) = true.
Proof.
  unfold Math_round. destruct (Prim2SF q) as [s|s| |s m e] eqn:Q;
    try (rewrite Q; exact (fun H => H)).
  cbn [sign_clear]. intros S. destruct s; [discriminate|].
  destruct (0 <=? e)%Z; [rewrite Q; reflexivity|].
  assert (N : (0 <= (2 * Z.pos m + 2 ^ (- e)) / (2 * 2 ^ (- e)))%Z).
  { destruct (Z.le_gt_cases 0 (- e)) as [E|E].
    - pose proof (Z.pow_pos_nonneg 2 (- e) ltac:(lia) E).
      apply Z.div_pos; lia.
    - rewrite (Z.pow_neg_r 2 (- e)) by lia. cbn. lia. }
  destruct (_ =? 0)%Z; [reflexivity|]. apply of_integer_sign, N.
Qed.

Lemma Math_max_zero_sign (m : float) :
  sign_clear (Prim2SF (Math_max 0 m)) = true.
Proof.
  unfold Math_max. destruct (PrimFloat.is_nan 0 || PrimFloat.is_nan m); [reflexivity|].
  destruct (0 <? m)%float eqn:L.
  - rewrite ltb_spec in L. change (Prim2SF 0%float) with (S754_zero false) in L.
    destruct (Prim2SF m) as [s|s| |s mm e]; try discriminate L;
      destruct s; try discriminate L; reflexivity.
  - change (PrimFloat.is_zero 0 && PrimFloat.get_sign 0) with false.
    cbn [andb]. reflexivity.
Qed.

(** A number that passes [isPositiveNumber] is [m * 2^e], not negated. *)
Lemma positive_SF (g : float) :
  isPositiveNumber (VNumber g) = true ->
  exists m e, Prim2SF g = S754_finite false m e.
Proof.
  unfold isPositiveNumber. cbn [isNumber]. rewrite andb_true_iff, is_finite_SF.
  rewrite ltb_spec. change (Prim2SF 0%float) with (S754_zero false).
  intros [F P]. destruct (Prim2SF g) as [s|s| |s m e]; try discriminate.
  destruct s; [discriminate|]. eauto.
Qed.

Lemma step_in_force_positive (settings : value) :
  isSettings settings = true ->
  isPositiveNumber (VNumber (step_in_force settings)) = true.
Proof.
  intros S. apply isSettings_spec in S. destruct S as (_ & _ & _ & _ & G & _).
  unfold step_in_force. destruct (ToBoolean (get (js "showGrid") settings));
    [|reflexivity].
  unfold number_field. pose proof G as G'. destruct G' as (x & E & _).
  rewrite E in *. apply isPositiveNumber_spec, G.
Qed.

(** X20. When the grid step in force is a finite number above zero, as it
    is with settings that pass [isSettings] and whenever the grid is
    hidden, the coordinate that a drop or the end of a drag computes is
    never below zero, wherever the pointer or the dragged node is and
    whatever the sizes are: it is zero or above, or it is [NaN]. (The
    import guard, by contrast, accepts posters at negative coordinates.) *)
Theorem snapped_never_negative (position limit extent : float) (settings : value) :
  isSettings settings = true \/
  isPositiveNumber (VNumber (step_in_force settings)) = true ->
  let r := snapped position limit extent settings in
  PrimFloat.is_nan r = true \/ (0 <=? r)%float = true.
Proof.
  intros S r. subst r.
  assert (P : isPositiveNumber (VNumber (step_in_force settings)) = true).
  { destruct S as [S|S]; [apply step_in_force_positive, S|exact S]. }
  destruct (positive_SF _ P) as (m & e & G).
  assert (C : sign_clear (Prim2SF (snapped position limit extent settings)) = true).
  { unfold snapped, snapToGrid. rewrite mul_spec, G. apply SFmul_sign.
    apply Math_round_sign. rewrite div_spec, G. apply SFdiv_sign.
    apply Math_max_zero_sign. }
  unfold PrimFloat.is_nan. rewrite eqb_spec, leb_spec.
  change (Prim2SF 0%float) with (S754_zero false).
  destruct (Prim2SF (snapped position limit extent settings)) as [s|s| |s mr er];
    cbn [sign_clear] in C; try (destruct s; [discriminate|]).
  - right; reflexivity.
  - right; reflexivity.
  - left; reflexivity.
  - right; reflexivity.
Qed.

(** X19, on the coordinate 47 and the step 20. *)
Lemma snapToGrid_finite_only_if_witness :
  snapToGrid 47 20 = 40%float /\
  PrimFloat.is_finite 20 = true /\ PrimFloat.is_zero 20 = false.
Proof.
  split; [reflexivity|].
  destruct (snapToGrid_finite_only_if 47 20) as [H _].
  exact (proj2 (H eq_refl)).
Defined.

(** X20, on the sample settings: a pointer left of the wall snaps to zero,
    one beyond its right edge to the last grid line on which a poster of
    width 297 fits. *)
Lemma snapped_never_negative_witness :
  snapped_x (-12) 297 sample_settings = 0%float /\
  snapped_x 1390 297 sample_settings = 1100%float /\
  (PrimFloat.is_nan (snapped_x (-12) 297 sample_settings) = true \/
   (0 <=? snapped_x (-12) 297 sample_settings)%float = true).
Proof.
  split; [reflexivity|]. split; [reflexivity|].
  exact (snapped_never_negative (-12) (number_field (js "wallWidth") sample_settings)
           297 sample_settings (or_introl eq_refl)).
Defined.

(* ================================================================== *)
(** * The zoom of the stage *)
(* ================================================================== *)

Lemma is_nan_SF (x : float) :
  PrimFloat.is_nan x
  = match Prim2SF x with
    | S754_nan => true
    | _ => false
    end.
Proof.
  unfold PrimFloat.is_nan. rewrite eqb_spec.
  destruct (Prim2SF x) as [s|s| |s m e]; try (destruct s; reflexivity);
    try reflexivity.
  rewrite SFeqb_same. reflexivity.
Qed.

Lemma ltb_leb (a b : float) :
  (a <? b)%float = true -> (a <=? b)%float = true.
Proof.
  rewrite ltb_spec, leb_spec. unfold SFltb, SFleb.
  destruct (SFcompare (Prim2SF a) (Prim2SF b)) as [[| |]|]; congruence.
Qed.

(** ** Rounding a mantissa that is not negative never yields NaN *)

Lemma iter_pos_kept (A : Type) (keep : A -> Prop) (f : A -> A) :
  (forall a, keep a -> keep (f a)) ->
  forall p a, keep a -> keep (iter_pos f p a).
Proof.
  intros F. induction p as [p IH|p IH|]; intros a K; cbn [iter_pos]; auto.
Qed.

Lemma shr_1_nonneg (mrs : shr_record) :
  (0 <= shr_m mrs)%Z -> (0 <= shr_m (shr_1 mrs))%Z.
Proof.
  destruct mrs as [m r s]. cbn [shr_m]. intros P.
  destruct m as [|[p|p|]|p]; cbn; lia.
Qed.

Lemma shr_fexp_nonneg (m e : Z) (l : location) :
  (0 <= m)%Z -> (0 <= shr_m (fst (shr_fexp prec emax m e l)))%Z.
Proof.
  intros P. unfold shr_fexp, shr.
  assert (R : (0 <= shr_m (shr_record_of_loc m l))%Z).
  { destruct l as [|[| |]]; exact P. }
  destruct (fexp prec emax (Zdigits2 m + e) - e)%Z as [|p|p]; cbn [fst]; try exact R.
  apply (iter_pos_kept _ (fun mrs => (0 <= shr_m mrs)%Z) shr_1 shr_1_nonneg), R.
Qed.

Lemma round_nearest_even_nonneg (m : Z) (l : location) :
  (0 <= m)%Z -> (0 <= round_nearest_even m l)%Z.
Proof.
  intros P. unfold round_nearest_even.
  destruct l as [|[| |]]; try destruct (IntDef.Z.even m); lia.
Qed.

Lemma binary_round_aux_not_nan (sx : bool) (mx ex : Z) (lx : location) :
  (0 <= mx)%Z -> binary_round_aux prec emax sx mx ex lx <> S754_nan.
Proof.
  intros P. unfold binary_round_aux.
  pose proof (shr_fexp_nonneg mx ex lx P) as A.
  destruct (shr_fexp prec emax mx ex lx) as [mrs' e']. cbn [fst] in A.
  pose proof (shr_fexp_nonneg _ e' loc_Exact
                (round_nearest_even_nonneg _ (loc_of_shr_record mrs') A)) as B.
  destruct (shr_fexp prec emax _ e' loc_Exact) as [mrs'' e'']. cbn [fst] in B.
  destruct (shr_m mrs'') as [|m|m]; [discriminate| |lia].
  destruct (e'' <=? emax - prec)%Z; discriminate.
Qed.

Lemma SFdiv_core_nonneg (m1 : positive) (e1 : Z) (m2 : positive) (e2 : Z) :
  (0 <= fst (fst (SFdiv_core_binary prec emax (Z.pos m1) e1 (Z.pos m2) e2)))%Z.
Proof.
  unfold SFdiv_core_binary.
  set (s := (e1 - e2 - _)%Z).
  set (m' := match s with
             | 0%Z => Z.pos m1
             | Z.pos _ => IntDef.Z.shiftl (Z.pos m1) s
             | Z.neg _ => 0%Z
             end).
  assert (M : (0 <= m')%Z).
  { subst m'. destruct s; try lia. apply Z.shiftl_nonneg. lia. }
  pose proof (Z_div_mod m' (Z.pos m2) ltac:(lia)) as D.
  change IntDef.Z.div_eucl with Z.div_eucl.
  destruct (Z.div_eucl m' (Z.pos m2)) as [q r]. cbn [fst]. nia.
Qed.

(** The product and the quotient of two numbers [m * 2^e] are not NaN. *)
Lemma finite_mul_not_nan (a b : float) (sa sb : bool) (ma mb : positive) (ea eb : Z) :
  Prim2SF a = S754_finite sa ma ea -> Prim2SF b = S754_finite sb mb eb ->
  PrimFloat.is_nan (a * b) = false.
Proof.
  intros A B. rewrite is_nan_SF, mul_spec, A, B. unfold SF64mul, SFmul.
  pose proof (binary_round_aux_not_nan (xorb sa sb) (Z.pos (ma * mb)) (ea + eb)
                loc_Exact ltac:(lia)) as N.
  destruct (binary_round_aux _ _ _ _ _ _); try reflexivity. congruence.
Qed.

Lemma finite_div_not_nan (a b : float) (sa sb : bool) (ma mb : positive) (ea eb : Z) :
  Prim2SF a = S754_finite sa ma ea -> Prim2SF b = S754_finite sb mb eb ->
  PrimFloat.is_nan (a / b) = false.
Proof.
  intros A B. rewrite is_nan_SF, div_spec, A, B. unfold SF64div, SFdiv.
  pose proof (SFdiv_core_nonneg ma ea mb eb) as Q.
  destruct (SFdiv_core_binary prec emax (Z.pos ma) ea (Z.pos mb) eb) as [[mz ez] lz].
  cbn [fst] in Q.
  pose proof (binary_round_aux_not_nan (xorb sa sb) mz ez lz Q) as N.
  destruct (binary_round_aux _ _ _ _ _ _); try reflexivity. congruence.
Qed.

(** ** The clamp *)

Lemma clamp_in_range (next : float) :
  PrimFloat.is_nan next = false ->
  in_range (Math_max smallest_scale (Math_min largest_scale next)).
Proof.
  intros N. unfold Math_min.
  change (PrimFloat.is_nan largest_scale) with false. rewrite N. cbn [orb].
  change (PrimFloat.is_zero largest_scale) with false. cbn [andb].
  assert (M : forall m,
             PrimFloat.is_nan m = false -> (m <=? largest_scale)%float = true ->
             in_range (Math_max smallest_scale m)).
  { intros m Nm L. unfold Math_max.
    change (PrimFloat.is_nan smallest_scale) with false. rewrite Nm. cbn [orb].
    change (PrimFloat.is_zero smallest_scale) with false. cbn [andb].
    destruct (smallest_scale <? m)%float eqn:G.
    - split; [apply ltb_leb, G|exact L].
    - split; reflexivity. }
  destruct (next <? largest_scale)%float eqn:L.
  - apply M; [exact N|apply ltb_leb, L].
  - apply M; reflexivity.
Qed.

(** A number in the range is [m * 2^e]. *)
Lemma in_range_SF (x : float) :
  in_range x -> exists m e, Prim2SF x = S754_finite false m e.
Proof.
  unfold in_range. rewrite !leb_spec.
  change (Prim2SF smallest_scale) with (S754_finite false 7205759403792794 (-54)).
  change (Prim2SF largest_scale) with (S754_finite false 6755399441055744 (-51)).
  intros [A B]. destruct (Prim2SF x) as [s|s| |s m e]; try (destruct s; discriminate);
    try discriminate.
  destruct s; [discriminate|]. eauto.
Qed.

(** X21. The zoom factor stays between 0.4 and 3, bounds included,
    whatever wheel events arrive and wherever the pointer is: starting from
    1, every turn of the wheel multiplies or divides it by 1.05 and clamps
    the result. It is therefore never zero, infinite or [NaN]: the
    divisions by the zoom factor, in this handler and in
    [handleCanvasDrop], never divide by zero. *)
Theorem zoom_stays_in_range (v : view) :
  viewing v ->
  (smallest_scale <=? stageScale v)%float = true /\
  (stageScale v <=? largest_scale)%float = true /\
  PrimFloat.is_finite (stageScale v) = true /\
  PrimFloat.is_zero (stageScale v) = false.
Proof.
  intros V.
  assert (R : in_range (stageScale v)).
  { induction V as [|v deltaY pointer V IH|v dx dy V IH].
    - split; reflexivity.
    - destruct pointer as [[px py]|]; [|exact IH]. cbn [handleStageWheel stageScale].
      destruct (in_range_SF _ IH) as (m & e & S).
      apply clamp_in_range.
      destruct (0 <? (if (0 <? deltaY)%float then -1 else 1))%float.
      + eapply finite_mul_not_nan; [exact S|reflexivity].
      + eapply finite_div_not_nan; [exact S|reflexivity].
    - exact IH. }
  destruct R as [A B]. split; [exact A|]. split; [exact B|].
  destruct (in_range_SF _ (conj A B)) as (m & e & S).
  rewrite is_finite_SF, is_zero_SF, S. split; reflexivity.
Qed.

(** X21, after three turns of the wheel away from the user and one back,
    with the pointer in the middle of the stage. *)
Lemma zoom_stays_in_range_witness :
  let v := handleStageWheel 100 (Some (640, 360)%float)
             (Nat.iter 3 (handleStageWheel (-100) (Some (640, 360)%float))
                initial_view) in
  (smallest_scale <=? stageScale v)%float = true /\
  (stageScale v <=? largest_scale)%float = true /\
  PrimFloat.is_finite (stageScale v) = true /\
  PrimFloat.is_zero (stageScale v) = false.
Proof.
  apply zoom_stays_in_range.
  cbn [Nat.iter]. repeat apply viewing_wheel. apply viewing_start.
Defined.
